(** * SJOIN reconciliation of ircd-hybrid (modules/core/m_sjoin.c)

    A shallow embedding of [ms_sjoin], [set_final_mode], [remove_our_modes],
    [remove_a_mode] and [remove_ban_list], and the properties of the channel
    state and of the emitted lines that follow from the code. *)

From Stdlib Require Import NArith ZArith Ascii String List Lia Bool.
From stdpp Require Import base option list strings gmap.

Local Open Scope N_scope.
Local Open Scope nat_scope.

(** ** C strings *)

(** Text is modelled by [string]; the helpers below are the libc calls the
    handler uses. *)
Module Str.

Definition len (s : string) : nat := String.length s.

Definition NUL : ascii := "000"%char.

(** [s[0] == 0] *)
Definition is_empty (s : string) : bool :=
  match s with "" => true | String _ _ => false end.

(** [strlcpy(dst, src, size)]: at most [size - 1] bytes are copied. *)
Fixpoint take (n : nat) (s : string) : string :=
  match n, s with
  | S n', String c s' => String c (take n' s')
  | _, _ => ""
  end.

Definition strlcpy (src : string) (size : nat) : string := take (pred size) src.

(** [strcmp]: the difference of the first two bytes that differ, read as
    unsigned chars. *)
Fixpoint strcmp (s1 s2 : string) : Z :=
  match s1, s2 with
  | "", "" => 0%Z
  | "", String c2 _ => (- Z.of_N (N_of_ascii c2))%Z
  | String c1 _, "" => Z.of_N (N_of_ascii c1)
  | String c1 r1, String c2 r2 =>
      if Ascii.eqb c1 c2 then strcmp r1 r2
      else (Z.of_N (N_of_ascii c1) - Z.of_N (N_of_ascii c2))%Z
  end.

(** The loop that advances [s] over blanks: [while ( *s == ' ') ++s]. *)
Fixpoint skip_spaces (s : string) : string :=
  match s with
  | String c s' => if Ascii.eqb c " "%char then skip_spaces s' else s
  | "" => ""
  end.

(** The text of [s] up to its last byte ([p[-1] = 0] for [p] at the end of [s]). *)
Fixpoint chop (s : string) : string :=
  match s with
  | "" => ""
  | String c "" => ""
  | String c s' => String c (chop s')
  end.

Definition is_digit (c : ascii) : bool :=
  let n := N_of_ascii c in (48 <=? n)%N && (n <=? 57)%N.

Definition digit_char (d : N) : ascii := ascii_of_N (48 + d).

(** The decimal digits at the head of [s], accumulated as libc does. *)
Fixpoint digits_val (s : string) (acc : N) : N :=
  match s with
  | String c s' =>
      if is_digit c then digits_val s' (10 * acc + (N_of_ascii c - 48))%N
      else acc
  | "" => acc
  end.

Definition skip_ws (s : string) : string :=
  (fix go (s : string) : string :=
     match s with
     | String c s' => if Ascii.is_space c then go s' else s
     | "" => ""
     end) s.

Definition sign (s : string) : bool * string :=
  match s with
  | String "-" s' => (true, s')
  | String "+" s' => (false, s')
  | _ => (false, s)
  end.

(** [strtoumax(s, NULL, 10)] for a 64-bit [uintmax_t]: a value out of
    range gives [UINTMAX_MAX], a minus sign negates modulo 2^64. *)
Definition UINTMAX_MAX : N := 2 ^ 64 - 1.

Definition strtoumax (s : string) : N :=
  let '(neg, d) := sign (skip_ws s) in
  let v := digits_val d 0 in
  if (UINTMAX_MAX <? v)%N then UINTMAX_MAX
  else if neg then ((2 ^ 64 - v) mod 2 ^ 64)%N else v.

(** [atoi(s)] stored into an [unsigned int]: [strtol] clamps to the range
    of [long], the conversions to [int] and to [unsigned int] keep the low
    32 bits. *)
Definition atoi (s : string) : N :=
  let '(neg, d) := sign (skip_ws s) in
  let v := Z.of_N (digits_val d 0) in
  let l := if neg then Z.max (- v) (- 2 ^ 63) else Z.min v (2 ^ 63 - 1) in
  Z.to_N (l mod 2 ^ 32).

(** [sprintf("%u")] and [sprintf("%ju")]: the decimal digits of [n]. *)
Fixpoint utoa_go (fuel : nat) (n : N) (acc : string) : string :=
  match fuel with
  | O => acc
  | S f =>
      let acc' := String (digit_char (n mod 10)) acc in
      if (n <? 10)%N then acc' else utoa_go f (n / 10) acc'
  end.

Definition utoa (n : N) : string := utoa_go (S (N.to_nat (N.log2 n))) n "".

(** [" %s"] for each of [l], one after the other (the [sendbuf] loops). *)
Definition spaced (l : list string) : string :=
  fold_right (fun p acc => " " +:+ p +:+ acc) "" l.

(** ["%s "] for each of [l], one after the other. *)
Definition trailed (l : list string) : string :=
  fold_right (fun p acc => p +:+ " " +:+ acc) "" l.

End Str.

(** ** Character buffers

    [modebuf] of [ms_sjoin] is written through a moving pointer and read back
    as a C string while it holds no terminator of its own, so it is kept as
    the bytes of the array: the list is the part of the array written so far,
    everything behind it is still zero (the array is initialised with [""]). *)
Module Raw.

Definition t := list ascii.

(** [buf[i] = c] *)
Fixpoint poke (buf : t) (i : nat) (c : ascii) : t :=
  match i, buf with
  | O, [] => [c]
  | O, _ :: r => c :: r
  | S i', [] => Str.NUL :: poke [] i' c
  | S i', b :: r => b :: poke r i' c
  end.

(** [buf[i]] *)
Definition peek (buf : t) (i : nat) : ascii := nth i buf Str.NUL.

(** The C string that starts at [buf]: the bytes before the first zero. *)
Fixpoint cstr (buf : t) : string :=
  match buf with
  | [] => ""
  | c :: r => if Ascii.eqb c Str.NUL then "" else String c (cstr r)
  end.

(** A pointer into the buffer: the array and the offset of [mbuf]. *)
Definition cursor : Type := t * nat.

(** [*mbuf++ = c] *)
Definition putc (st : cursor) (c : ascii) : cursor :=
  (poke (fst st) (snd st) c, S (snd st)).

(** A string and its terminator written from the start of the array. *)
Definition store (buf : t) (s : string) : t :=
  fst (putc (fold_left putc (list_ascii_of_string s) (buf, O)) Str.NUL).

End Raw.

(** ** Data model (channel.h, channel_mode.h, client.h) *)

Module Mode.
(** [struct Mode] *)
Record t := mk { mode : N; limit : N; key : string }.
End Mode.

Module Ban.
(** [struct Ban] *)
Record t := mk { name : string; user : string; host : string; len : nat }.
End Ban.

Module Client.
(** [struct Client]: the fields the handler reads. [from] names the
    directly connected link the client is reached through; [server],
    [hidden] and [my_connect] are IsServer, IsHidden and MyConnect. *)
Record t := mk {
  name : string; id : string; username : string; host : string;
  account : string; info : string; away : string; from : string;
  server : bool; hidden : bool; my_connect : bool }.
End Client.

Module Membership.
(** [struct Membership] *)
Record t := mk { client_p : Client.t; flags : N }.
End Membership.

Module Channel.
(** [struct Channel]; [members_local] is the part of [members] whose
    clients are local. *)
Record t := mk {
  name : string; creationtime : N; mode : Mode.t;
  topic : string; topic_info : string; topic_time : N;
  members : list Membership.t;
  banlist : list Ban.t; exceptlist : list Ban.t; invexlist : list Ban.t;
  invites : list string }.

Definition set_creationtime (c : t) (ts : N) : t :=
  mk (name c) ts (mode c) (topic c) (topic_info c) (topic_time c) (members c)
     (banlist c) (exceptlist c) (invexlist c) (invites c).
Definition set_mode (c : t) (m : Mode.t) : t :=
  mk (name c) (creationtime c) m (topic c) (topic_info c) (topic_time c)
     (members c) (banlist c) (exceptlist c) (invexlist c) (invites c).
Definition set_name (c : t) (n : string) : t :=
  mk n (creationtime c) (mode c) (topic c) (topic_info c) (topic_time c)
     (members c) (banlist c) (exceptlist c) (invexlist c) (invites c).
Definition set_members (c : t) (l : list Membership.t) : t :=
  mk (name c) (creationtime c) (mode c) (topic c) (topic_info c)
     (topic_time c) l (banlist c) (exceptlist c) (invexlist c) (invites c).
Definition set_lists (c : t) (b e i : list Ban.t) : t :=
  mk (name c) (creationtime c) (mode c) (topic c) (topic_info c)
     (topic_time c) (members c) b e i (invites c).
Definition set_invites (c : t) (l : list string) : t :=
  mk (name c) (creationtime c) (mode c) (topic c) (topic_info c)
     (topic_time c) (members c) (banlist c) (exceptlist c) (invexlist c) l.
Definition set_topic (c : t) (tp info : string) (time : N) : t :=
  mk (name c) (creationtime c) (mode c) tp info time (members c)
     (banlist c) (exceptlist c) (invexlist c) (invites c).
End Channel.

(** [struct chan_mode]: a letter of [cmode_tab] and its bit (0 for the
    letters that are not simple flags). *)
Record chan_mode := { letter : ascii; cm_mode : N }.

(** The constants, the mode table and the helpers of other files that the
    handler depends on. *)
Class Consts := {
  IRCD_BUFSIZE : nat;
  IDLEN : nat;
  KEYLEN : nat;
  CHANNELLEN : nat;
  MAXMODEPARAMS : nat;
  CMEMBER_STATUS_FLAGS_LEN : nat;
  CHFL_CHANOP : N;
  CHFL_HALFOP : N;
  CHFL_VOICE : N;
  (** the bits [clear_ban_cache_list] clears *)
  CHFL_BAN_CACHE : N;
  cmode_tab : list chan_mode;
  channel_check_name : string -> bool -> bool;
  (** the case folding under which the channel hash compares names *)
  casefold : string -> string }.

(** The process state the handler reads and writes: the channel hash, the
    client directory behind [find_person], [me.name], the two configuration
    switches and the clock. *)
Record World := {
  channels : gmap string Channel.t;
  find_person : Client.t -> string -> option Client.t;
  me_name : string;
  hide_servers : bool;
  ignore_bogus_ts : bool;
  CurrentTime : N }.

Definition set_channels (w : World) (m : gmap string Channel.t) : World :=
  {| channels := m; find_person := find_person w; me_name := me_name w;
     hide_servers := hide_servers w; ignore_bogus_ts := ignore_bogus_ts w;
     CurrentTime := CurrentTime w |}.

(** ** Output

    One constructor per format string handed to [sendto_realops_flags],
    [sendto_channel_local] and [sendto_server], with the arguments of the
    call; [wire] is the formatted text. *)
Inductive Event :=
| RealopsBadName (src via chname : string)
| RealopsBogusTS (newts : N) (chname src via : string)
| LocalTSZero (me chname : string) (oldts : N)
| RealopsTSZero (src chname : string) (oldts : N)
| LocalTopic (origin chname : string)
| LocalTSChanged (me chname : string) (oldts newts : N)
| LocalModeDelta (origin chname modebuf parabuf : string)
| RealopsLongSjoin (src via : string)
| LocalJoinExt (who : Client.t) (chname : string)
| LocalJoin (who : Client.t) (chname : string)
| LocalAway (who : Client.t)
| LocalModeStatus (origin chname modebuf : string) (para : list string)
| LocalModeBans (header letters : string) (masks : list string)
| ServerSjoin (uid_buf : string).

Definition userhost (c : Client.t) : string :=
  ":" +:+ Client.name c +:+ "!" +:+ Client.username c +:+ "@" +:+ Client.host c.

Definition wire (e : Event) : string :=
  match e with
  | RealopsBadName src via chname =>
      "*** Too long or invalid channel name from " +:+ src +:+ "(via " +:+ via
      +:+ "): " +:+ chname
  | RealopsBogusTS newts chname src via =>
      "*** Bogus TS " +:+ Str.utoa newts +:+ " on " +:+ chname
      +:+ " ignored from " +:+ src +:+ "(via " +:+ via +:+ ")"
  | LocalTSZero me chname oldts =>
      ":" +:+ me +:+ " NOTICE " +:+ chname +:+ " :*** Notice -- TS for "
      +:+ chname +:+ " changed from " +:+ Str.utoa oldts +:+ " to 0"
  | RealopsTSZero src chname oldts =>
      "Server " +:+ src +:+ " changing TS on " +:+ chname +:+ " from "
      +:+ Str.utoa oldts +:+ " to 0"
  | LocalTopic origin chname => ":" +:+ origin +:+ " TOPIC " +:+ chname +:+ " :"
  | LocalTSChanged me chname oldts newts =>
      ":" +:+ me +:+ " NOTICE " +:+ chname +:+ " :*** Notice -- TS for "
      +:+ chname +:+ " changed from " +:+ Str.utoa oldts +:+ " to "
      +:+ Str.utoa newts
  | LocalModeDelta origin chname modebuf parabuf =>
      ":" +:+ origin +:+ " MODE " +:+ chname +:+ " " +:+ modebuf +:+ " "
      +:+ parabuf
  | RealopsLongSjoin src via =>
      "Long SJOIN from server: " +:+ src +:+ "(via " +:+ via +:+ ") (ignored)"
  | LocalJoinExt who chname =>
      userhost who +:+ " JOIN " +:+ chname +:+ " " +:+ Client.account who
      +:+ " :" +:+ Client.info who
  | LocalJoin who chname => userhost who +:+ " JOIN :" +:+ chname
  | LocalAway who => userhost who +:+ " AWAY :" +:+ Client.away who
  | LocalModeStatus origin chname modebuf para =>
      ":" +:+ origin +:+ " MODE " +:+ chname +:+ " " +:+ modebuf
      +:+ Str.spaced para
  | LocalModeBans header letters masks =>
      (header +:+ letters) +:+ " " +:+ Str.chop (Str.trailed masks)
  | ServerSjoin uid_buf => uid_buf
  end.

Definition nonzero (n : N) : bool := negb (n =? 0)%N.

Section Handler.

Context `{K : Consts}.

(** *** set_final_mode *)

(** One pass over [cmode_tab], up to the entry whose letter is zero: the
    letters of the bits set in [a] and clear in [b]. *)
Fixpoint tab_walk (tab : list chan_mode) (a b : N) (st : Raw.cursor)
  : Raw.cursor :=
  match tab with
  | [] => st
  | t :: r =>
      if Ascii.eqb (letter t) Str.NUL then st
      else tab_walk r a b
             (if nonzero (cm_mode t) && nonzero (N.land (cm_mode t) a)
                 && negb (nonzero (N.land (cm_mode t) b))
              then Raw.putc st (letter t) else st)
  end.

(** The byte before the pointer is replaced when it is [sgn], otherwise
    [c] is written at the pointer. *)
Definition close_sign (st : Raw.cursor) (sgn : ascii) (c : ascii)
           (advance : bool) : Raw.cursor :=
  if Ascii.eqb (Raw.peek (fst st) (pred (snd st))) sgn
  then (Raw.poke (fst st) (pred (snd st)) c, snd st)
  else (Raw.poke (fst st) (snd st) c, if advance then S (snd st) else snd st).

Definition set_final_mode (mode oldmode : Mode.t) (modebuf : Raw.t)
           (parabuf : string) : Raw.t * string :=
  let st := Raw.putc (modebuf, O) "-" in
  let st := tab_walk cmode_tab (Mode.mode oldmode) (Mode.mode mode) st in
  let st := if nonzero (Mode.limit oldmode) && (Mode.limit mode =? 0)%N
            then Raw.putc st "l" else st in
  let '(st, pbuf) :=
    if negb (Str.is_empty (Mode.key oldmode)) && Str.is_empty (Mode.key mode)
    then (Raw.putc st "k", Mode.key oldmode +:+ " ") else (st, "") in
  let st := close_sign st "-" "+" true in
  let st := tab_walk cmode_tab (Mode.mode mode) (Mode.mode oldmode) st in
  let '(st, pbuf) :=
    if nonzero (Mode.limit mode)
       && negb (Mode.limit oldmode =? Mode.limit mode)%N
    then (Raw.putc st "l", pbuf +:+ Str.utoa (Mode.limit mode) +:+ " ")
    else (st, pbuf) in
  let '(st, pbuf) :=
    if negb (Str.is_empty (Mode.key mode))
       && negb (Str.strcmp (Mode.key oldmode) (Mode.key mode) =? 0)%Z
    then (Raw.putc st "k", pbuf +:+ Mode.key mode +:+ " ") else (st, pbuf) in
  let st := close_sign st "+" Str.NUL false in
  (fst st, if Str.is_empty pbuf then parabuf else pbuf).

(** Modelled from the spec: [channel_modes] (channel.c) is not part of the
    sources at hand; it is the spec's [encodeFullMode]: the same traversal
    of the table, unconditionally emitting every set flag, the limit if
    nonzero, the key if non-empty, with their parameters. *)
Definition channel_modes (chptr : Channel.t) (modebuf : Raw.t)
  : Raw.t * string :=
  let m := Channel.mode chptr in
  let st := Raw.putc (modebuf, O) "+" in
  let st := tab_walk cmode_tab (Mode.mode m) 0 st in
  let '(st, pbuf) :=
    if nonzero (Mode.limit m)
    then (Raw.putc st "l", Str.utoa (Mode.limit m) +:+ " ") else (st, "") in
  let '(st, pbuf) :=
    if negb (Str.is_empty (Mode.key m))
    then (Raw.putc st "k", pbuf +:+ Mode.key m +:+ " ") else (st, pbuf) in
  (Raw.poke (fst st) (snd st) Str.NUL, pbuf).

(** *** remove_a_mode, remove_our_modes *)

(** The name lines are sent under: [me.name] when the server is hidden. *)
Definition origin_name (w : World) (source_p : Client.t) : string :=
  if Client.hidden source_p || hide_servers w then me_name w
  else Client.name source_p.

(** The DLINK_FOREACH of [remove_a_mode]: [lmodebuf] holds the sign and the
    letters collected so far, [lpara] the names ([count] is its length).
    Returns the members with the mask cleared, the two buffers as the loop
    leaves them, and the lines flushed on the way. *)
Fixpoint remove_a_mode_loop (origin chname : string) (mask : N) (flag : ascii)
         (members : list Membership.t) (lmodebuf : string)
         (lpara : list string)
  : list Membership.t * (string * list string) * list Event :=
  match members with
  | [] => ([], (lmodebuf, lpara), [])
  | member :: rest =>
      if (N.land (Membership.flags member) mask =? 0)%N then
        let '(ms, st, out) :=
          remove_a_mode_loop origin chname mask flag rest lmodebuf lpara in
        (member :: ms, st, out)
      else
        let member' :=
          Membership.mk (Membership.client_p member)
                        (N.ldiff (Membership.flags member) mask) in
        let lpara := lpara ++ [Client.name (Membership.client_p member)] in
        let lmodebuf := lmodebuf +:+ String flag "" in
        if MAXMODEPARAMS <=? length lpara then
          let ev := LocalModeStatus origin chname lmodebuf
                                    (firstn MAXMODEPARAMS lpara) in
          let '(ms, st, out) :=
            remove_a_mode_loop origin chname mask flag rest "-" [] in
          (member' :: ms, st, ev :: out)
        else
          let '(ms, st, out) :=
            remove_a_mode_loop origin chname mask flag rest lmodebuf lpara in
          (member' :: ms, st, out)
  end.

Definition remove_a_mode (w : World) (chptr : Channel.t)
           (source_p : Client.t) (mask : N) (flag : ascii)
  : Channel.t * list Event :=
  let origin := origin_name w source_p in
  let '(ms, (lmodebuf, lpara), out) :=
    remove_a_mode_loop origin (Channel.name chptr) mask flag
                       (Channel.members chptr) "-" [] in
  (Channel.set_members chptr ms,
   out ++ (if length lpara =? 0 then []
           else [LocalModeStatus origin (Channel.name chptr) lmodebuf lpara])).

Definition remove_our_modes (w : World) (chptr : Channel.t)
           (source_p : Client.t) : Channel.t * list Event :=
  let '(c1, o1) := remove_a_mode w chptr source_p CHFL_CHANOP "o" in
  let '(c2, o2) := remove_a_mode w c1 source_p CHFL_HALFOP "h" in
  let '(c3, o3) := remove_a_mode w c2 source_p CHFL_VOICE "v" in
  (c3, o1 ++ o2 ++ o3).

(** *** remove_ban_list *)

(** ["%s!%s@%s"] *)
Definition ban_mask (ban : Ban.t) : string :=
  Ban.name ban +:+ "!" +:+ Ban.user ban +:+ "@" +:+ Ban.host ban.

(** The DLINK_FOREACH_SAFE of [remove_ban_list]. [letters] is what [mbuf]
    has written behind the header, [masks] what [pbuf] has written, one
    entry per [sprintf]. The test is [count >= MAXMODEPARAMS || cur_len + 1
    + (plen - 1) > IRCD_BUFSIZE - 2], with the 2 moved to the left. Every
    node visited is unlinked by [remove_ban]; the first component of the
    result is what is left of the list. *)
Fixpoint remove_ban_loop (header : string) (mlen : nat) (c : ascii)
         (blist : list Ban.t) (cur_len count : nat) (letters : string)
         (masks : list string)
  : list Ban.t * (string * list string) * list Event :=
  match blist with
  | [] => ([], (letters, masks), [])
  | ban :: node_next =>
      let plen := Ban.len ban + 4 in
      let full := (MAXMODEPARAMS <=? count)
                  || (IRCD_BUFSIZE <? cur_len + 1 + (plen - 1) + 2) in
      let ev := if full then [LocalModeBans header letters masks] else [] in
      let cur_len := if full then mlen else cur_len in
      let letters := if full then "" else letters in
      let masks := if full then [] else masks in
      let count := if full then O else count in
      let '(rest, st, out) :=
        remove_ban_loop header mlen c node_next (cur_len + plen) (S count)
                        (letters +:+ String c "") (masks ++ [ban_mask ban]) in
      (rest, st, ev ++ out)
  end.

Definition remove_ban_list (chptr : Channel.t) (source_p : Client.t)
           (blist : list Ban.t) (c : ascii) : list Ban.t * list Event :=
  if length blist =? 0 then (blist, [])
  else
    let header := ":" +:+ Client.name source_p +:+ " MODE "
                  +:+ Channel.name chptr +:+ " -" in
    let mlen := Str.len header in
    let '(rest, (letters, masks), out) :=
      remove_ban_loop header mlen c blist mlen O "" [] in
    (rest, out ++ [LocalModeBans header letters masks]).

(** *** The channel hash and the helpers of channel.c *)

Definition hash_find_channel (w : World) (name : string) : option Channel.t :=
  channels w !! casefold name.

(** Modelled from the spec: [channel_make] (channel.c) is not part of the
    sources at hand; it is the spec's [createChannel(name)]: a channel with
    no prior state (empty mode, no members, empty lists, no topic), entered
    in the hash under its name. The creation time it carries until
    [ms_sjoin] assigns one is the clock of the world. *)
Definition channel_make (w : World) (name : string) : Channel.t :=
  Channel.mk (Str.strlcpy name (S CHANNELLEN)) (CurrentTime w)
             (Mode.mk 0 0 "") "" "" 0 [] [] [] [] [].

(** The channel object as it stands is what the hash holds at [slot]. *)
Definition hash_put (w : World) (slot : string) (chptr : Channel.t) : World :=
  set_channels w (<[slot := chptr]> (channels w)).

(** Modelled from the spec: [channel_free] (channel.c), the spec's
    [destroyChannel]: the channel leaves the hash. *)
Definition channel_free (w : World) (slot : string) : World :=
  set_channels w (delete slot (channels w)).

(** Modelled from the spec: [clear_ban_cache_list(&chptr->members_local)]
    (channel.c): the per-member ban caches of the local members are
    cleared. *)
Definition clear_ban_cache_list (members : list Membership.t)
  : list Membership.t :=
  map (fun m =>
         if Client.my_connect (Membership.client_p m)
         then Membership.mk (Membership.client_p m)
                            (N.ldiff (Membership.flags m) CHFL_BAN_CACHE)
         else m) members.

(** IsMember(target_p, chptr): pointer equality of clients is equality of
    their ids. *)
Definition IsMember (target_p : Client.t) (chptr : Channel.t) : bool :=
  existsb (fun m => String.eqb (Client.id (Membership.client_p m))
                               (Client.id target_p))
          (Channel.members chptr).

(** Modelled from the spec: [add_user_to_channel] (channel.c): a new
    Membership with the resolved flags is added to the channel. *)
Definition add_user_to_channel (chptr : Channel.t) (target_p : Client.t)
           (fl : N) (flood_ctrl : bool) : Channel.t :=
  Channel.set_members chptr
    (Membership.mk target_p fl :: Channel.members chptr).

(** Modelled from the spec: [cmode_map] (channel_mode.c), the side table
    from a letter to its entry of [cmode_tab], filled by a walk of the table
    up to the entry whose letter is zero. *)
Fixpoint tab_find (tab : list chan_mode) (c : ascii) : option chan_mode :=
  match tab with
  | [] => None
  | t :: r =>
      if Ascii.eqb (letter t) Str.NUL then None
      else if Ascii.eqb (letter t) c then Some t
      else tab_find r c
  end.

Definition cmode_map (c : ascii) : option chan_mode := tab_find cmode_tab c.

(** *** ms_sjoin, the mode letters of parv[3] *)

Definition arg (parv : list string) (i : nat) : string := nth i parv "".

(** The [for] loop over [parv[3]]; [None] is the [return 0] of a [k] or [l]
    that has no argument. *)
Fixpoint parse_modes (parv : list string) (parc : nat) (modes : string)
         (mode : Mode.t) (args : nat) : option (Mode.t * nat) :=
  match modes with
  | "" => Some (mode, args)
  | String c modes' =>
      if Ascii.eqb c "k" then
        let mode := Mode.mk (Mode.mode mode) (Mode.limit mode)
                            (Str.strlcpy (arg parv (4 + args)) (S KEYLEN)) in
        let args := S args in
        if parc <? 5 + args then None
        else parse_modes parv parc modes' mode args
      else if Ascii.eqb c "l" then
        let mode := Mode.mk (Mode.mode mode) (Str.atoi (arg parv (4 + args)))
                            (Mode.key mode) in
        let args := S args in
        if parc <? 5 + args then None
        else parse_modes parv parc modes' mode args
      else
        let mode :=
          match cmode_map c with
          | Some cmode => Mode.mk (N.lor (Mode.mode mode) (cm_mode cmode))
                                  (Mode.limit mode) (Mode.key mode)
          | None => mode
          end in
        parse_modes parv parc modes' mode args
  end.

(** *** ms_sjoin, the timestamps *)

(** The [ConfigGeneral.ignore_bogus_ts] block: the timestamp the handler
    goes on with, and the notices. *)
Definition check_ts (w : World) (source_p : Client.t) (chptr : Channel.t)
           (isnew : bool) (newts oldts : N) : N * list Event :=
  if ignore_bogus_ts w then
    if (newts <? 800000000)%N then
      (if (oldts =? 0)%N then 0%N else 800000000%N,
       [RealopsBogusTS newts (Channel.name chptr) (Client.name source_p)
                       (Client.from source_p)])
    else (newts, [])
  else
    (newts,
     if (newts =? 0)%N && negb isnew && nonzero oldts
     then [LocalTSZero (me_name w) (Channel.name chptr) oldts;
           RealopsTSZero (Client.name source_p) (Channel.name chptr) oldts]
     else []).

(** The outcome of the [if (isnew) ... else ...] chain. *)
Record Arbitration := {
  keep_our_modes : bool;
  keep_new_modes : bool;
  tstosend : N;
  (** [chptr->creationtime] after the chain *)
  creationtime' : N }.

Definition arbitrate (isnew : bool) (newts oldts : N) : Arbitration :=
  if isnew then Build_Arbitration true true newts newts
  else if (newts =? 0)%N || (oldts =? 0)%N then Build_Arbitration true true 0 0
  else if (newts =? oldts)%N then Build_Arbitration true true oldts oldts
  else if (newts <? oldts)%N then Build_Arbitration false true newts newts
  else Build_Arbitration true false oldts oldts.

(** [mode] after the [if (keep_new_modes == false) ... else if
    (keep_our_modes == true) ...] block. *)
Definition merge_modes (a : Arbitration) (mode oldmode : Mode.t) : Mode.t :=
  if negb (keep_new_modes a) then oldmode
  else if keep_our_modes a then
    Mode.mk (N.lor (Mode.mode mode) (Mode.mode oldmode))
            (if (Mode.limit mode <? Mode.limit oldmode)%N
             then Mode.limit oldmode else Mode.limit mode)
            (if (Str.strcmp (Mode.key mode) (Mode.key oldmode) <? 0)%Z
             then Str.strlcpy (Mode.key oldmode) (S KEYLEN)
             else Mode.key mode)
  else mode.

(** *** ms_sjoin, the side that lost the TS *)

(** The [if (keep_our_modes == false)] block. [channel_set_topic] and
    [clear_invite_list] are modelled from the spec: the topic is cleared
    and the pending invite list is emptied. *)
Definition lose_ts (w : World) (source_p : Client.t) (isnew : bool)
           (parv2 : string) (oldts newts : N) (chptr : Channel.t)
  : Channel.t * list Event :=
  let chptr := if isnew then chptr
               else Channel.set_name chptr (Str.strlcpy parv2 (S CHANNELLEN)) in
  let '(chptr, o1) := remove_our_modes w chptr source_p in
  let '(bl, o2) := remove_ban_list chptr source_p (Channel.banlist chptr) "b" in
  let chptr := Channel.set_lists chptr bl (Channel.exceptlist chptr)
                                 (Channel.invexlist chptr) in
  let '(el, o3) := remove_ban_list chptr source_p (Channel.exceptlist chptr) "e" in
  let chptr := Channel.set_lists chptr (Channel.banlist chptr) el
                                 (Channel.invexlist chptr) in
  let '(il, o4) := remove_ban_list chptr source_p (Channel.invexlist chptr) "I" in
  let chptr := Channel.set_lists chptr (Channel.banlist chptr)
                                 (Channel.exceptlist chptr) il in
  let chptr := Channel.set_members chptr
                 (clear_ban_cache_list (Channel.members chptr)) in
  let chptr := Channel.set_invites chptr [] in
  let had_topic := negb (Str.is_empty (Channel.topic chptr)) in
  let chptr := if had_topic then Channel.set_topic chptr "" "" 0 else chptr in
  (chptr,
   o1 ++ o2 ++ o3 ++ o4
      ++ (if had_topic
          then [LocalTopic (origin_name w source_p) (Channel.name chptr)]
          else [])
      ++ [LocalTSChanged (me_name w) (Channel.name chptr) oldts newts]).

(** *** ms_sjoin, the member list *)

(** [":%s SJOIN %ju %s %s %s:"] *)
Definition sjoin_header (source_p : Client.t) (ts : N)
           (chname modebuf parabuf : string) : string :=
  ":" +:+ Client.id source_p +:+ " SJOIN " +:+ Str.utoa ts +:+ " " +:+ chname
  +:+ " " +:+ modebuf +:+ " " +:+ parabuf +:+ ":".

(** The tokens [s] steps through: the pieces of the last parameter between
    blanks. The handler cuts them out in place, one per turn of the loop
    ([strchr], the zero written at the blank, the blanks skipped); what a
    turn does with its token has no effect on the cutting, so the cutting
    is done first. [cur] is the token being read. *)
Fixpoint uid_tokens (s : string) (cur : string) : list string :=
  match s with
  | "" => if Str.is_empty cur then [] else [cur]
  | String c r =>
      if Ascii.eqb c " "
      then (if Str.is_empty cur then [] else [cur]) ++ uid_tokens r ""
      else uid_tokens r (cur +:+ String c "")
  end.

(** The [do ... while (valid_mode)] loop: the flags of the sigils at the
    head of the token, and the rest of the token. *)
Fixpoint status_prefix (s : string) (fl : N) : N * string :=
  match s with
  | String "@" r => status_prefix r (N.lor fl CHFL_CHANOP)
  | String "%" r => status_prefix r (N.lor fl CHFL_HALFOP)
  | String "+" r => status_prefix r (N.lor fl CHFL_VOICE)
  | _ => (fl, s)
  end.

(** What the loop over the tokens carries from one turn to the next. *)
Record Fill := {
  chan : Channel.t;
  uid_buf : string;
  modebuf : Raw.t;
  mbuf : nat;
  para : list string;
  out : list Event }.

(** One of the three [if (fl & CHFL_...)] blocks: the letter and the name
    are queued, and the line is sent when [pargs] has reached
    MAXMODEPARAMS. *)
Definition grant (servername : string) (c : ascii) (target_p : Client.t)
           (st : Fill) : Fill :=
  let '(buf, i) := Raw.putc (modebuf st, mbuf st) c in
  let para := para st ++ [Client.name target_p] in
  if MAXMODEPARAMS <=? length para then
    let buf := Raw.poke buf i Str.NUL in
    let ev := LocalModeStatus servername (Channel.name (chan st))
                              (Raw.cstr buf) (firstn MAXMODEPARAMS para) in
    let '(buf, i) := Raw.putc (buf, O) "+" in
    {| chan := chan st; uid_buf := uid_buf st; modebuf := buf; mbuf := i;
       para := []; out := out st ++ [ev] |}
  else
    {| chan := chan st; uid_buf := uid_buf st; modebuf := buf; mbuf := i;
       para := para; out := out st |}.

Definition has (fl flag : N) : bool := nonzero (N.land fl flag).

(** [uid_prefix] *)
Definition uid_prefix_of (fl : N) : string :=
  (if has fl CHFL_CHANOP then "@" else "")
  +:+ (if has fl CHFL_HALFOP then "%" else "")
  +:+ (if has fl CHFL_VOICE then "+" else "").

(** The relay line takes one more token: [uid_buf] is sent and started
    afresh when the token would not fit, then the token and a blank are
    written. The test is [(uid_ptr - uid_buf + len_uid) > (IRCD_BUFSIZE -
    2)], with the 2 moved to the left. *)
Definition relay_token (source_p : Client.t) (a : Arbitration)
           (parabuf : string) (uid_prefix : string) (target_p : Client.t)
           (st : Fill) : Fill :=
  let len_uid := Str.len (Client.id target_p) + Str.len uid_prefix in
  let flush := IRCD_BUFSIZE <? Str.len (uid_buf st) + len_uid + 2 in
  let buf :=
    if flush
    then sjoin_header source_p (tstosend a) (Channel.name (chan st))
                      (Raw.cstr (modebuf st)) parabuf
    else uid_buf st in
  {| chan := chan st;
     uid_buf := buf +:+ uid_prefix +:+ Client.id target_p +:+ " ";
     modebuf := modebuf st; mbuf := mbuf st; para := para st;
     out := out st ++ (if flush then [ServerSjoin (uid_buf st)] else []) |}.

(** The [if (!IsMember(target_p, chptr))] block. *)
Definition join_user (target_p : Client.t) (fl : N) (have_many_uids : bool)
           (st : Fill) : Fill :=
  if IsMember target_p (chan st) then st
  else
    let chname := Channel.name (chan st) in
    {| chan := add_user_to_channel (chan st) target_p fl
                                   (negb have_many_uids);
       uid_buf := uid_buf st; modebuf := modebuf st;
       mbuf := mbuf st; para := para st;
       out := out st
              ++ [LocalJoinExt target_p chname; LocalJoin target_p chname]
              ++ (if Str.is_empty (Client.away target_p) then []
                  else [LocalAway target_p]) |}.

(** The three [if (fl & CHFL_...)] blocks. *)
Definition grants (servername : string) (target_p : Client.t) (fl : N)
           (st : Fill) : Fill :=
  let st := if has fl CHFL_CHANOP
            then grant servername "o" target_p st else st in
  let st := if has fl CHFL_HALFOP
            then grant servername "h" target_p st else st in
  if has fl CHFL_VOICE then grant servername "v" target_p st else st.

(** One turn of the [while ( *s)] loop, for the token [tok]. *)
Definition sjoin_user (w : World) (source_p : Client.t) (servername : string)
           (a : Arbitration) (parabuf : string) (have_many_uids : bool)
           (st : Fill) (tok : string) : Fill :=
  let '(fl, s) := status_prefix tok 0 in
  match find_person w source_p s with
  | None => st
  | Some target_p =>
      if negb (String.eqb (Client.from target_p) (Client.from source_p))
      then st
      else
        let uid_prefix := if keep_new_modes a then uid_prefix_of fl else "" in
        let fl := if keep_new_modes a then fl else 0%N in
        grants servername target_p fl
          (join_user target_p fl have_many_uids
             (relay_token source_p a parabuf uid_prefix target_p st))
  end.

(** *** ms_sjoin *)

(** [*s != '0'] *)
Definition starts_with_0 (s : string) : bool :=
  match s with String "0" _ => true | _ => false end.

(** What the handler has when it is about to read the member list: the
    channel after arbitration, the lines sent so far, and the pieces of
    the relay line. *)
Record Reconciled := {
  r_chptr : Channel.t;
  r_arb : Arbitration;
  r_modebuf : Raw.t;
  r_parabuf : string;
  r_out : list Event }.

(** From [oldts = chptr->creationtime] to the [channel_modes] call. *)
Definition reconcile (w : World) (source_p : Client.t) (parv2 parv3 : string)
           (newts : N) (mode : Mode.t) (isnew : bool) (chptr : Channel.t)
  : Reconciled :=
  let oldts := Channel.creationtime chptr in
  let oldmode := Channel.mode chptr in
  let '(newts, o_ts) := check_ts w source_p chptr isnew newts oldts in
  let a := arbitrate isnew newts oldts in
  let chptr := Channel.set_creationtime chptr (creationtime' a) in
  let mode := merge_modes a mode oldmode in
  let '(modebuf, parabuf) := set_final_mode mode oldmode [] "" in
  let chptr := Channel.set_mode chptr mode in
  let '(chptr, o_lost) :=
    if keep_our_modes a then (chptr, [])
    else lose_ts w source_p isnew parv2 oldts newts chptr in
  let o_mode :=
    if Str.is_empty (Raw.cstr modebuf) then []
    else [LocalModeDelta (origin_name w source_p) (Channel.name chptr)
                         (Raw.cstr modebuf) parabuf] in
  let '(modebuf, parabuf) :=
    if negb (starts_with_0 parv3) && keep_new_modes a
    then channel_modes chptr modebuf
    else (Raw.poke (Raw.poke modebuf 0 "0") 1 Str.NUL, parabuf) in
  {| r_chptr := chptr; r_arb := a; r_modebuf := modebuf;
     r_parabuf := parabuf; r_out := o_ts ++ o_lost ++ o_mode |}.

(** The relay line as first written into [uid_buf]. *)
Definition first_header (source_p : Client.t) (r : Reconciled) : string :=
  sjoin_header source_p (tstosend (r_arb r)) (Channel.name (r_chptr r))
               (Raw.cstr (r_modebuf r)) (r_parabuf r).

(** [buflen >= (IRCD_BUFSIZE - IDLEN - 2 - CMEMBER_STATUS_FLAGS_LEN - 1)],
    with the subtrahends moved to the left. *)
Definition long_sjoin (buflen : nat) : bool :=
  IRCD_BUFSIZE <=? buflen + IDLEN + 2 + CMEMBER_STATUS_FLAGS_LEN + 1.

(** The loop over the member list, from [char *mbuf = modebuf] to the
    [while] loop's end. *)
Definition fill (w : World) (source_p : Client.t) (r : Reconciled)
           (uids : string) : Fill :=
  let tokens := uid_tokens uids "" in
  let have_many_uids := 2 <=? length tokens in
  fold_left
    (sjoin_user w source_p (origin_name w source_p) (r_arb r) (r_parabuf r)
                have_many_uids)
    tokens
    {| chan := r_chptr r; uid_buf := first_header source_p r;
       modebuf := Raw.poke (r_modebuf r) 0 "+"; mbuf := 1; para := [];
       out := r_out r |}.

Definition ms_sjoin (w : World) (source_p : Client.t) (parv : list string)
  : World * list Event :=
  let parc := length parv in
  if negb (Client.server source_p) then (w, [])
  else if negb (channel_check_name (arg parv 2) false) then
    (w, [RealopsBadName (Client.name source_p) (Client.from source_p)
                        (arg parv 2)])
  else
    let newts := Str.strtoumax (arg parv 1) in
    match parse_modes parv parc (arg parv 3) (Mode.mk 0 0 "") 0 with
    | None => (w, [])
    | Some (mode, args) =>
        let found := hash_find_channel w (arg parv 2) in
        let isnew := if found is None then true else false in
        let chptr := default (channel_make w (arg parv 2)) found in
        let slot := if isnew then casefold (Channel.name chptr)
                    else casefold (arg parv 2) in
        let r := reconcile w source_p (arg parv 2) (arg parv 3) newts mode
                           isnew chptr in
        if long_sjoin (Str.len (first_header source_p r)) then
          (hash_put w slot (r_chptr r),
           r_out r ++ [RealopsLongSjoin (Client.name source_p)
                                        (Client.from source_p)])
        else
          let st := fill w source_p r (arg parv (args + 4)) in
          let modebuf := Raw.poke (modebuf st) (mbuf st) Str.NUL in
          let uid_buf := Str.chop (uid_buf st) in
          let o :=
            out st
            ++ (if length (para st) =? 0 then []
                else [LocalModeStatus (origin_name w source_p)
                                      (Channel.name (chan st))
                                      (Raw.cstr modebuf) (para st)]) in
          if (length (Channel.members (chan st)) =? 0) && isnew then
            (channel_free w slot, o)
          else if Str.is_empty (arg parv (4 + args)) then
            (hash_put w slot (chan st), o)
          else (hash_put w slot (chan st), o ++ [ServerSjoin uid_buf])
    end.

End Handler.

(** ** Reading the output *)

Arguments Str.len : simpl never.

(** Every byte of the string is a decimal digit. *)
Fixpoint all_digits (s : string) : Prop :=
  match s with
  | "" => True
  | String c r => Str.is_digit c = true /\ all_digits r
  end.

(** A notice to the operators. *)
Definition is_notice (e : Event) : Prop :=
  match e with
  | RealopsBadName _ _ _ | RealopsBogusTS _ _ _ _ | RealopsTSZero _ _ _
  | RealopsLongSjoin _ _ => True
  | _ => False
  end.

(** A line handed to [sendto_server]; the handler has no other way to send
    anything to a server. *)
Definition is_relay (e : Event) : Prop :=
  match e with ServerSjoin _ => True | _ => False end.

(** The masks a removal line carries and the number of its mode letters. *)
Definition removal_masks (e : Event) : list string :=
  match e with LocalModeBans _ _ masks => masks | _ => [] end.

Definition removal_units (e : Event) : nat :=
  match e with LocalModeBans _ letters _ => Str.len letters | _ => 0 end.

Definition is_removal (e : Event) : Prop :=
  match e with LocalModeBans _ _ _ => True | _ => False end.

Fixpoint total (l : list nat) : nat :=
  match l with [] => 0 | n :: r => n + total r end.

Section Reading.

Context `{K : Consts}.

(** The lines that grant or remove privileges and the lines that remove
    bans carry at most MAXMODEPARAMS parameters. *)
Definition params_ok (e : Event) : Prop :=
  match e with
  | LocalModeStatus _ _ _ para => length para <= MAXMODEPARAMS
  | LocalModeBans _ _ masks => length masks <= MAXMODEPARAMS
  | _ => True
  end.

(** The state of the loop over the member list as far as the parameter
    count goes. *)
Definition queue_ok (st : Fill) : Prop :=
  Forall params_ok (out st) /\ length (para st) <= MAXMODEPARAMS.

(** The three privilege flags together. *)
Definition CHFL_PRIVS : N := N.lor (N.lor CHFL_CHANOP CHFL_HALFOP) CHFL_VOICE.

(** [member->flags &= ~mask] *)
Definition strip_flags (mask : N) (m : Membership.t) : Membership.t :=
  Membership.mk (Membership.client_p m) (N.ldiff (Membership.flags m) mask).

(** What becomes of a membership on the side that lost the TS: the three
    passes of [remove_our_modes], then [clear_ban_cache_list] for a local
    member. *)
Definition lost_member (m : Membership.t) : Membership.t :=
  let m := strip_flags CHFL_VOICE
             (strip_flags CHFL_HALFOP (strip_flags CHFL_CHANOP m)) in
  if Client.my_connect (Membership.client_p m)
  then strip_flags CHFL_BAN_CACHE m else m.

(** The SJOIN passes the checks at the head of the handler: it comes from
    a server, names a valid channel, and every [k] and [l] of parv[3] has
    its argument; [mode] and [args] are what the loop over parv[3] leaves. *)
Definition accepted (source_p : Client.t) (parv : list string)
           (mode : Mode.t) (args : nat) : Prop :=
  Client.server source_p = true
  /\ channel_check_name (arg parv 2) false = true
  /\ parse_modes parv (length parv) (arg parv 3) (Mode.mk 0 0 "") 0
     = Some (mode, args).

(** The timestamp of parv[1] as the handler arbitrates with it, that is
    after the [ignore_bogus_ts] block. *)
Definition incoming_ts (w : World) (parv : list string) (oldts : N) : N :=
  let newts := Str.strtoumax (arg parv 1) in
  if ignore_bogus_ts w && (newts <? 800000000)%N
  then (if (oldts =? 0)%N then 0%N else 800000000%N)
  else newts.

(** The state the handler has reconciled for an SJOIN on [chptr]. *)
Definition reconciled (w : World) (source_p : Client.t) (parv : list string)
           (mode : Mode.t) (isnew : bool) (chptr : Channel.t) : Reconciled :=
  reconcile w source_p (arg parv 2) (arg parv 3) (Str.strtoumax (arg parv 1))
            mode isnew chptr.

(** The relay line is too long for a member to be added to it. *)
Definition oversized (source_p : Client.t) (r : Reconciled) : bool :=
  long_sjoin (Str.len (first_header source_p r)).

(** Whether the handler has to make the channel, and the channel it
    works on. *)
Definition is_new (w : World) (parv : list string) : bool :=
  if hash_find_channel w (arg parv 2) is None then true else false.

Definition channel_of (w : World) (parv : list string) : Channel.t :=
  default (channel_make w (arg parv 2)) (hash_find_channel w (arg parv 2)).

(** The slot of the hash the channel sits in. *)
Definition slot_of (w : World) (parv : list string) : string :=
  if is_new w parv then casefold (Channel.name (channel_of w parv))
  else casefold (arg parv 2).

(** The channel object as the handler leaves it. *)
Definition settled (w : World) (source_p : Client.t) (parv : list string)
           (mode : Mode.t) (args : nat) (isnew : bool) (chptr : Channel.t)
  : Channel.t :=
  let r := reconciled w source_p parv mode isnew chptr in
  if oversized source_p r then r_chptr r
  else chan (fill w source_p r (arg parv (args + 4))).

End Reading.

(** ** Applying a mode delta *)

Section Delta.

Context `{K : Consts}.

(** Modelled from the spec: the repository applies mode changes in
    channel_mode.c, which is not part of the sources at hand. A delta is
    read as the spec writes it: a [-] or a [+] sets the direction for the
    letters after it; [k] takes the next parameter in either direction and
    sets or clears the key; [l] takes the next parameter when added and sets
    the limit, and clears the limit, without a parameter, when removed; any
    other letter sets or clears its bit of the table. The state is the
    direction, the parameters not yet taken, and the mode. *)
Definition delta_step (st : bool * list string * Mode.t) (c : ascii)
  : bool * list string * Mode.t :=
  let '(plus, params, m) := st in
  if Ascii.eqb c "+" then (true, params, m)
  else if Ascii.eqb c "-" then (false, params, m)
  else if Ascii.eqb c "k" then
    (plus, tail params,
     Mode.mk (Mode.mode m) (Mode.limit m) (if plus then hd "" params else ""))
  else if Ascii.eqb c "l" then
    if plus
    then (plus, tail params,
          Mode.mk (Mode.mode m) (Str.atoi (hd "" params)) (Mode.key m))
    else (plus, params, Mode.mk (Mode.mode m) 0 (Mode.key m))
  else
    match cmode_map c with
    | Some t =>
        (plus, params,
         Mode.mk (if plus then N.lor (Mode.mode m) (cm_mode t)
                  else N.ldiff (Mode.mode m) (cm_mode t))
                 (Mode.limit m) (Mode.key m))
    | None => st
    end.

(** The delta [modebuf], [parabuf] applied to [m]; the parameters are the
    pieces of [parabuf] between blanks. *)
Definition apply_delta (m : Mode.t) (modebuf parabuf : string) : Mode.t :=
  snd (fold_left delta_step (list_ascii_of_string modebuf)
                 (true, uid_tokens parabuf "", m)).

(** The entries of the table the loops visit. *)
Fixpoint tab_entries (tab : list chan_mode) : list chan_mode :=
  match tab with
  | [] => []
  | t :: r => if Ascii.eqb (letter t) Str.NUL then [] else t :: tab_entries r
  end.

(** The table is a table of simple flags: an entry with a mode is one bit,
    its letter is none of the four that have a meaning of their own, and
    the letter leads back to the bit. *)
Definition tab_wf : Prop :=
  forall t, In t (tab_entries cmode_tab) -> cm_mode t <> 0%N ->
    (exists k, cm_mode t = (2 ^ k)%N)
    /\ letter t <> "+"%char /\ letter t <> "-"%char
    /\ letter t <> "k"%char /\ letter t <> "l"%char
    /\ (exists t', cmode_map (letter t) = Some t' /\ cm_mode t' = cm_mode t).

(** The flag bits are bits of the table. *)
Definition recognized (m : N) : Prop :=
  forall n, N.testbit m n = true ->
    exists t, In t (tab_entries cmode_tab) /\ cm_mode t = (2 ^ n)%N.

(** No blank inside. *)
Fixpoint no_blank (s : string) : Prop :=
  match s with
  | "" => True
  | String c r => c <> " "%char /\ no_blank r
  end.

(** A key as a channel can have it: no zero byte and no blank inside. *)
Fixpoint key_ok (s : string) : Prop :=
  match s with
  | "" => True
  | String c r => c <> Str.NUL /\ c <> " "%char /\ key_ok r
  end.

(** The entries a pass of [tab_walk] writes the letters of. *)
Fixpoint selected (tab : list chan_mode) (a b : N) : list chan_mode :=
  match tab with
  | [] => []
  | t :: r =>
      if Ascii.eqb (letter t) Str.NUL then []
      else (if nonzero (cm_mode t) && nonzero (N.land (cm_mode t) a)
               && negb (nonzero (N.land (cm_mode t) b))
            then [t] else []) ++ selected r a b
  end.

(** The letters [set_final_mode] writes behind the [-] and behind the [+],
    and the parameters it writes. *)
Definition removed_letters (mode oldmode : Mode.t) : list ascii :=
  map letter (selected cmode_tab (Mode.mode oldmode) (Mode.mode mode))
  ++ (if nonzero (Mode.limit oldmode) && (Mode.limit mode =? 0)%N
      then ["l"%char] else [])
  ++ (if negb (Str.is_empty (Mode.key oldmode)) && Str.is_empty (Mode.key mode)
      then ["k"%char] else []).

Definition added_letters (mode oldmode : Mode.t) : list ascii :=
  map letter (selected cmode_tab (Mode.mode mode) (Mode.mode oldmode))
  ++ (if nonzero (Mode.limit mode)
         && negb (Mode.limit oldmode =? Mode.limit mode)%N
      then ["l"%char] else [])
  ++ (if negb (Str.is_empty (Mode.key mode))
         && negb (Str.strcmp (Mode.key oldmode) (Mode.key mode) =? 0)%Z
      then ["k"%char] else []).

Definition delta_letters (mode oldmode : Mode.t) : list ascii :=
  (if removed_letters mode oldmode is [] then []
   else "-"%char :: removed_letters mode oldmode)
  ++ (if added_letters mode oldmode is [] then []
      else "+"%char :: added_letters mode oldmode).

Definition delta_params (mode oldmode : Mode.t) : list string :=
  (if negb (Str.is_empty (Mode.key oldmode)) && Str.is_empty (Mode.key mode)
   then [Mode.key oldmode] else [])
  ++ (if nonzero (Mode.limit mode)
         && negb (Mode.limit oldmode =? Mode.limit mode)%N
      then [Str.utoa (Mode.limit mode)] else [])
  ++ (if negb (Str.is_empty (Mode.key mode))
         && negb (Str.strcmp (Mode.key oldmode) (Mode.key mode) =? 0)%Z
      then [Mode.key mode] else []).

(** The pointer [mbuf] of [set_final_mode], [parabuf] left aside. *)
Definition final_mode_cursor (mode oldmode : Mode.t) (modebuf : Raw.t)
  : Raw.cursor :=
  let st := fold_left Raw.putc ("-"%char :: removed_letters mode oldmode)
                      (modebuf, 0) in
  let st := close_sign st "-" "+" true in
  let st := fold_left Raw.putc (added_letters mode oldmode) st in
  close_sign st "+" Str.NUL false.

(** What a pointer has written: the bytes of the array before it. *)
Definition written (st : Raw.cursor) (w : list ascii) : Prop :=
  firstn (snd st) (fst st) = w /\ length w = snd st.

(** A mode of the data model. *)
Definition mode_ok (m : Mode.t) : Prop :=
  recognized (Mode.mode m) /\ (Mode.limit m < 2 ^ 32)%N /\ key_ok (Mode.key m).

End Delta.

(** ** Sizes

    The handler builds its lines from names whose lengths the rest of the
    server bounds. [Sizes] names the bounds that are not among the constants
    of the handler: of a nick, of a server name, and of the three parts of
    a ban mask together. *)
Record Sizes := { NICKLEN : nat; HOSTLEN : nat; BANLEN : nat }.

Section Fitting.

Context `{K : Consts} (Z : Sizes).

(** How far [modebuf] is ever written, and how long [parabuf] gets. *)
Definition RAWLEN : nat :=
  Nat.max (2 * length cmode_tab + 7) (MAXMODEPARAMS + 3).

Definition PARALEN : nat := 2 * (KEYLEN + 1) + 33.

(** The longest head of a relay line: the id of the sender, 64 digits of
    timestamp, the channel name, [modebuf] and [parabuf]. *)
Definition HEADLEN : nat :=
  1 + IDLEN + 7 + 64 + 1 + CHANNELLEN + 1 + RAWLEN + 1 + PARALEN + 1.

(** The constants leave room: a head of a relay line and one member, a
    MODE line with all its parameters, a line of mode changes, and a
    removal line with one mask are all within IRCD_BUFSIZE - 2. *)
Definition sizes_fit : Prop :=
  HEADLEN + IDLEN + 3 + 2 <= IRCD_BUFSIZE
  /\ 8 + HOSTLEN Z + CHANNELLEN + (MAXMODEPARAMS + 2)
     + MAXMODEPARAMS * (1 + NICKLEN Z) + 2 <= IRCD_BUFSIZE
  /\ 9 + HOSTLEN Z + CHANNELLEN + RAWLEN + PARALEN + 2 <= IRCD_BUFSIZE
  /\ 9 + HOSTLEN Z + CHANNELLEN + BANLEN Z + 4 + 2 <= IRCD_BUFSIZE.

Definition ban_fits (b : Ban.t) : Prop :=
  Ban.len b = Str.len (Ban.name b) + Str.len (Ban.user b) + Str.len (Ban.host b)
  /\ Ban.len b <= BANLEN Z.

(** A channel of the hash within the bounds. *)
Definition channel_fits (c : Channel.t) : Prop :=
  Str.len (Channel.name c) <= CHANNELLEN
  /\ (Channel.creationtime c < 2 ^ 64)%N
  /\ Str.len (Mode.key (Channel.mode c)) <= KEYLEN
  /\ (Mode.limit (Channel.mode c) < 2 ^ 32)%N
  /\ Forall (fun m => Str.len (Client.name (Membership.client_p m))
                      <= NICKLEN Z) (Channel.members c)
  /\ Forall ban_fits (Channel.banlist c)
  /\ Forall ban_fits (Channel.exceptlist c)
  /\ Forall ban_fits (Channel.invexlist c).

(** The world and the sender within the bounds; the clock is a value of
    [uintmax_t]. *)
Definition world_fits (w : World) (source_p : Client.t) : Prop :=
  Str.len (me_name w) <= HOSTLEN Z
  /\ Str.len (Client.name source_p) <= HOSTLEN Z
  /\ Str.len (Client.id source_p) <= IDLEN
  /\ (forall s c, find_person w source_p s = Some c ->
                  Str.len (Client.name c) <= NICKLEN Z
                  /\ Str.len (Client.id c) <= IDLEN)
  /\ (forall k c, channels w !! k = Some c -> channel_fits c)
  /\ (CurrentTime w < 2 ^ 64)%N.

(** The bound on a line: a MODE line or a removal line leaves room for
    the two bytes of the line end, a relay line is at least one byte short
    of the buffer. *)
Definition line_fits (e : Event) : Prop :=
  match e with
  | ServerSjoin uid_buf => Str.len uid_buf + 1 <= IRCD_BUFSIZE
  | LocalModeDelta _ _ _ _ | LocalModeStatus _ _ _ _ | LocalModeBans _ _ _ =>
      Str.len (wire e) + 2 <= IRCD_BUFSIZE
  | _ => True
  end.

(** The entries of the three lists of a channel. *)
Definition all_bans (c : Channel.t) : list Ban.t :=
  Channel.banlist c ++ Channel.exceptlist c ++ Channel.invexlist c.

(** A MODE line that grants or removes privileges. *)
Definition is_status (e : Event) : Prop :=
  match e with LocalModeStatus _ _ _ _ => True | _ => False end.

(** The loop over the member list keeps its buffers within their bounds:
    the relay line under construction leaves a byte of the buffer free,
    [modebuf] stays within RAWLEN, [mbuf] is one past the letters of the
    queued names. *)
Definition fill_fits (chname : string) (st : Fill) : Prop :=
  Forall line_fits (out st)
  /\ Str.len (uid_buf st) + 1 <= IRCD_BUFSIZE
  /\ length (modebuf st) <= RAWLEN
  /\ mbuf st = S (length (para st))
  /\ length (para st) <= MAXMODEPARAMS
  /\ Forall (fun n => Str.len n <= NICKLEN Z) (para st)
  /\ Channel.name (chan st) = chname.

End Fitting.

(** ** The wording of the spec where the code differs from it *)

Section Stated.

Context `{K : Consts}.

(** The key the spec gives a merge: the lexicographically smaller
    non-empty key, the only non-empty key if one side has none. *)
Definition smaller_nonempty_key (a b : string) : string :=
  if Str.is_empty a then b
  else if Str.is_empty b then a
  else if (Str.strcmp a b <? 0)%Z then a else b.

(** The key the code gives a merge. *)
Definition greater_key (a b : string) : string :=
  if (Str.strcmp a b <? 0)%Z then b else a.

(** A string as C has them: no zero byte inside. *)
Fixpoint cstring (s : string) : Prop :=
  match s with
  | "" => True
  | String c r => c <> Str.NUL /\ cstring r
  end.

(** The merge of both sides' modes, as stated: on the timestamps of the
    message and of the channel, with the smaller key. *)
Definition merge_as_stated (w : World) (source_p : Client.t)
           (parv : list string) : Prop :=
  forall mode args chptr,
    accepted source_p parv mode args ->
    hash_find_channel w (arg parv 2) = Some chptr ->
    let newts := Str.strtoumax (arg parv 1) in
    let oldts := Channel.creationtime chptr in
    (newts = oldts /\ newts <> 0%N) \/ newts = 0%N \/ oldts = 0%N ->
    exists chptr',
      channels (fst (ms_sjoin w source_p parv)) !! casefold (arg parv 2)
      = Some chptr'
      /\ Mode.mode (Channel.mode chptr')
         = N.lor (Mode.mode mode) (Mode.mode (Channel.mode chptr))
      /\ Mode.limit (Channel.mode chptr')
         = N.max (Mode.limit mode) (Mode.limit (Channel.mode chptr))
      /\ Mode.key (Channel.mode chptr')
         = smaller_nonempty_key (Mode.key mode)
                                (Mode.key (Channel.mode chptr)).

(** The loss of the TS, as stated: on the timestamp of the message. *)
Definition older_sjoin_as_stated (w : World) (source_p : Client.t)
           (parv : list string) : Prop :=
  forall mode args chptr,
    accepted source_p parv mode args ->
    hash_find_channel w (arg parv 2) = Some chptr ->
    let newts := Str.strtoumax (arg parv 1) in
    let oldts := Channel.creationtime chptr in
    newts <> 0%N -> oldts <> 0%N -> (newts < oldts)%N ->
    exists chptr',
      channels (fst (ms_sjoin w source_p parv)) !! casefold (arg parv 2)
      = Some chptr'
      /\ Channel.creationtime chptr' = newts
      /\ Forall (fun m => IsMember (Membership.client_p m) chptr = true ->
                          N.land (Membership.flags m) CHFL_PRIVS = 0%N)
                (Channel.members chptr')
      /\ Channel.banlist chptr' = []
      /\ Channel.exceptlist chptr' = []
      /\ Channel.invexlist chptr' = [].


(** The SJOIN for a channel that does not exist, as stated: the channel
    takes the timestamp of the message. *)
Definition new_channel_as_stated (w : World) (source_p : Client.t)
           (parv : list string) : Prop :=
  forall mode args,
    accepted source_p parv mode args ->
    hash_find_channel w (arg parv 2) = None ->
    forall chptr',
      channels (fst (ms_sjoin w source_p parv))
        !! casefold (Channel.name (channel_make w (arg parv 2)))
      = Some chptr' ->
      Channel.creationtime chptr' = Str.strtoumax (arg parv 1)
      /\ Channel.mode chptr' = mode.

(** The malformed SJOINs of the spec: an invalid name, a [k] or [l]
    without its argument, a relay line that is oversized. *)
Definition malformed (w : World) (source_p : Client.t) (parv : list string)
  : Prop :=
  channel_check_name (arg parv 2) false = false
  \/ (channel_check_name (arg parv 2) false = true
      /\ parse_modes parv (length parv) (arg parv 3) (Mode.mk 0 0 "") 0
         = None)
  \/ (exists mode args,
         accepted source_p parv mode args
         /\ oversized source_p
              (reconciled w source_p parv mode (is_new w parv)
                          (channel_of w parv)) = true).

(** The handling of a malformed SJOIN, as stated: a notice in each of the
    three cases. *)
Definition malformed_as_stated (w : World) (source_p : Client.t)
           (parv : list string) : Prop :=
  Client.server source_p = true ->
  malformed w source_p parv ->
  Exists is_notice (snd (ms_sjoin w source_p parv))
  /\ Forall (fun e => ~ is_relay e) (snd (ms_sjoin w source_p parv))
  /\ (channel_check_name (arg parv 2) false = false
      \/ parse_modes parv (length parv) (arg parv 3) (Mode.mk 0 0 "") 0
         = None ->
      fst (ms_sjoin w source_p parv) = w).

End Stated.

(** ** A sample server

    Sizes as ircd-hybrid declares them, a mode table with the usual letters,
    and a small network: the server [hub] that sends the SJOINs, three of
    its users, and a channel [#a]. *)
Module Sample.

Definition entry (c : ascii) (bit : N) : chan_mode :=
  {| letter := c; cm_mode := bit |}.

Definition consts : Consts := {|
  IRCD_BUFSIZE := 512; IDLEN := 12; KEYLEN := 23; CHANNELLEN := 50;
  MAXMODEPARAMS := 4; CMEMBER_STATUS_FLAGS_LEN := 3;
  CHFL_CHANOP := 1; CHFL_HALFOP := 2; CHFL_VOICE := 4; CHFL_BAN_CACHE := 56;
  cmode_tab :=
    [entry "b" 0; entry "c" 1024; entry "e" 0; entry "h" 0; entry "i" 16;
     entry "I" 0; entry "k" 0; entry "l" 0; entry "m" 4; entry "n" 32;
     entry "o" 0; entry "p" 1; entry "s" 2; entry "t" 8; entry "v" 0];
  channel_check_name :=
    fun s _ => match s with
               | String "#" _ => Str.len s <=? 50
               | _ => false
               end;
  casefold := fun s => s |}.

Definition hub : Client.t :=
  Client.mk "hub.example" "0AB" "" "" "" "" "" "hub.example" true false false.

Definition user (nick uid : string) (local : bool) : Client.t :=
  Client.mk nick uid "user" "host.example" "*" "Real Name" ""
            (if local then nick else "hub.example") false false local.

Definition alice : Client.t := user "alice" "0ABAAAAAA" false.
Definition bob : Client.t := user "bob" "0ABAAAAAB" false.
Definition carol : Client.t := user "carol" "9ZZAAAAAC" true.

Definition directory (_ : Client.t) (s : string) : option Client.t :=
  if String.eqb s "0ABAAAAAA" then Some alice
  else if String.eqb s "0ABAAAAAB" then Some bob
  else None.

(** [#a], created at 2000, with key, topic, a pending invite, three bans
    and the local operator carol, whose ban cache is filled. *)
Definition room : Channel.t :=
  Channel.mk "#a" 2000 (Mode.mk 32 0 "b") "welcome" "carol" 2000
             [Membership.mk carol 9]
             [Ban.mk "x" "y" "z" 3; Ban.mk "spam" "*" "*" 6;
              Ban.mk "*" "*" "bad.example" 13]
             [] [] ["dave"].

(** The network with [#a], and with the [ignore_bogus_ts] switch as
    given. *)
Definition net (bogus : bool) : World := {|
  channels := {[ "#a" := room ]};
  find_person := directory;
  me_name := "me.example";
  hide_servers := false;
  ignore_bogus_ts := bogus;
  CurrentTime := 1700000000 |}.

(** The network without any channel. *)
Definition bare (bogus : bool) : World := {|
  channels := ∅;
  find_person := directory;
  me_name := "me.example";
  hide_servers := false;
  ignore_bogus_ts := bogus;
  CurrentTime := 1700000000 |}.

(** The bounds on nicks, server names and ban masks. *)
Definition sizes : Sizes := {| NICKLEN := 30; HOSTLEN := 63; BANLEN := 103 |}.

(** [#a] with a creation time that [ignore_bogus_ts] lets through, and
    the network with it and the switch on. *)
Definition hall : Channel.t := Channel.set_creationtime room 900000000.

Definition town : World := {|
  channels := {[ "#a" := hall ]};
  find_person := directory;
  me_name := "me.example";
  hide_servers := false;
  ignore_bogus_ts := true;
  CurrentTime := 1700000000 |}.

(** SJOINs from [hub] for [#a] and for the new channel [#b]. *)
Definition sjoin (ts chname modes : string) (rest : list string)
  : list string :=
  ["SJOIN"; ts; chname; modes] ++ rest.

Definition two_users : string := "@0ABAAAAAA +0ABAAAAAB".

(** The same sizes with a line length of 40, which no relay line of
    [hub] fits. *)
Definition cramped : Consts := {|
  IRCD_BUFSIZE := 40; IDLEN := 12; KEYLEN := 23; CHANNELLEN := 50;
  MAXMODEPARAMS := 4; CMEMBER_STATUS_FLAGS_LEN := 3;
  CHFL_CHANOP := 1; CHFL_HALFOP := 2; CHFL_VOICE := 4; CHFL_BAN_CACHE := 56;
  cmode_tab := @cmode_tab consts;
  channel_check_name := @channel_check_name consts;
  casefold := fun s => s |}.

(** The same tables with a line length of 45 and ids of 9 bytes: the
    head of a relay line of [hub] and two members fill the line to its
    last byte but one. *)
Definition tight : Consts := {|
  IRCD_BUFSIZE := 45; IDLEN := 9; KEYLEN := 23; CHANNELLEN := 50;
  MAXMODEPARAMS := 4; CMEMBER_STATUS_FLAGS_LEN := 3;
  CHFL_CHANOP := 1; CHFL_HALFOP := 2; CHFL_VOICE := 4; CHFL_BAN_CACHE := 56;
  cmode_tab := @cmode_tab consts;
  channel_check_name := @channel_check_name consts;
  casefold := fun s => s |}.





End Sample.

(** ** More of what the handler reads and writes *)

(** The sign, the letters and the names of a MODE line that grants or
    removes privileges. *)
Definition status_sign (e : Event) : option ascii :=
  match e with
  | LocalModeStatus _ _ (String s _) _ => Some s
  | _ => None
  end.

Definition status_letters (e : Event) : list ascii :=
  match e with
  | LocalModeStatus _ _ (String _ letters) _ => list_ascii_of_string letters
  | _ => []
  end.

Definition status_names (e : Event) : list string :=
  match e with LocalModeStatus _ _ _ para => para | _ => [] end.

(** The letters of a line, each with the name it stands for. *)
Definition status_pairs (e : Event) : list (ascii * string) :=
  combine (status_letters e) (status_names e).

(** The letters of a removal line. *)
Definition removal_letters (e : Event) : list ascii :=
  match e with
  | LocalModeBans _ letters _ => list_ascii_of_string letters
  | _ => []
  end.

Definition removal_header (e : Event) : string :=
  match e with LocalModeBans header _ _ => header | _ => "" end.

(** The lines handed to [sendto_server], in order. *)
Definition relay_lines (out : list Event) : list string :=
  flat_map (fun e => match e with ServerSjoin l => [l] | _ => [] end) out.

(** A piece of a relay line: its head and the units behind it. *)
Definition render (c : string * list string) : string :=
  fst c +:+ Str.trailed (snd c).

(** A line of mode changes. *)
Definition is_delta (e : Event) : Prop :=
  match e with LocalModeDelta _ _ _ _ => True | _ => False end.


(** What the loop over the member list and the end of the handler send. *)
Definition is_member_line (e : Event) : Prop :=
  match e with
  | LocalJoinExt _ _ | LocalJoin _ _ | LocalAway _ | LocalModeStatus _ _ _ _
  | ServerSjoin _ | RealopsLongSjoin _ _ => True
  | _ => False
  end.

Section More.

Context `{K : Consts}.

(** The number of [k] and [l] among the letters of parv[3]. *)
Fixpoint kl_count (modes : string) : nat :=
  match modes with
  | "" => 0
  | String c r =>
      (if Ascii.eqb c "k" || Ascii.eqb c "l" then 1 else 0) + kl_count r
  end.

(** The token passes the two tests in front of [goto nextnick]: the flags
    of its sigils and the client it names. *)
Definition accepted_member (w : World) (source_p : Client.t) (tok : string)
  : option (N * Client.t) :=
  match find_person w source_p (snd (status_prefix tok 0)) with
  | Some target_p =>
      if String.eqb (Client.from target_p) (Client.from source_p)
      then Some (fst (status_prefix tok 0), target_p) else None
  | None => None
  end.

(** The members of a member list, in order. *)
Definition accepted_members (w : World) (source_p : Client.t) (uids : string)
  : list (N * Client.t) :=
  flat_map (fun tok => match accepted_member w source_p tok with
                       | Some m => [m]
                       | None => []
                       end)
           (uid_tokens uids "").

(** The flags a member is given: those of its sigils when the modes of the
    SJOIN are kept, none otherwise. *)
Definition given_flags (a : Arbitration) (fl : N) : N :=
  if keep_new_modes a then fl else 0%N.

(** The unit a relay line carries for a member. *)
Definition unit_of (a : Arbitration) (m : N * Client.t) : string :=
  uid_prefix_of (given_flags a (fst m)) +:+ Client.id (snd m).

(** The letters the MODE lines carry for a member, each with the name. *)
Definition grants_of (a : Arbitration) (m : N * Client.t)
  : list (ascii * string) :=
  let fl := given_flags a (fst m) in
  (if has fl CHFL_CHANOP then [("o"%char, Client.name (snd m))] else [])
  ++ (if has fl CHFL_HALFOP then [("h"%char, Client.name (snd m))] else [])
  ++ (if has fl CHFL_VOICE then [("v"%char, Client.name (snd m))] else []).

(** One member more: a client that is not yet on the channel is put in
    front with the flags it is given, a client that is on it already
    changes nothing. *)
Definition join_member (a : Arbitration) (ms : list Membership.t)
           (m : N * Client.t) : list Membership.t :=
  if existsb (fun x => String.eqb (Client.id (Membership.client_p x))
                                  (Client.id (snd m))) ms
  then ms
  else Membership.mk (snd m) (given_flags a (fst m)) :: ms.

(** [join_member] with the decision on the sigils spelled out: [keep]
    tells whether the flags of the sigils are given. *)
Definition join_flagged (keep : bool) (ms : list Membership.t)
           (m : N * Client.t) : list Membership.t :=
  if existsb (fun x => String.eqb (Client.id (Membership.client_p x))
                                  (Client.id (snd m))) ms
  then ms
  else Membership.mk (snd m) (if keep then fst m else 0%N) :: ms.

(** The head of a relay line for the channel [c]: the id of the sender,
    the creation time and the name of the channel, then modes and
    parameters. *)
Definition relay_head (source_p : Client.t) (c : Channel.t) (params : string)
           (h : string) : Prop :=
  exists modes,
    h = sjoin_header source_p (Channel.creationtime c) (Channel.name c)
                     modes params.

(** What the loop over the member list has queued for its next MODE line:
    [pend] holds the letters behind the [+] of [modebuf], each with the
    name queued for it in [para]. *)
Definition queued (st : Fill) (pend : list (ascii * string)) : Prop :=
  written (modebuf st, mbuf st) ("+"%char :: map fst pend)
  /\ para st = map snd pend
  /\ Forall (fun p : ascii * string => fst p <> Str.NUL) pend
  /\ length pend < MAXMODEPARAMS.

(** A MODE line that grants privileges: a [+], one letter for each name,
    at least one name. *)
Definition grant_line (e : Event) : Prop :=
  status_sign e = Some "+"%char
  /\ length (status_letters e) = length (status_names e)
  /\ status_names e <> [].

(** From [st] to [st'] the loop has taken the letters and names [added]:
    they are on the lines sent in between or queued in [pend']. *)
Definition queue_step (st st' : Fill) (pend pend' added : list (ascii * string))
  : Prop :=
  exists evs,
    out st' = out st ++ evs
    /\ flat_map status_pairs evs ++ pend' = pend ++ added
    /\ Forall (fun e => is_status e -> grant_line e) evs.

(** A line of mode changes tells the step from [old] to [new]: the delta
    it carries, applied to [old], gives [new]. *)
Definition announces (old new : Mode.t) (e : Event) : Prop :=
  match e with
  | LocalModeDelta _ _ modebuf parabuf => apply_delta old modebuf parabuf = new
  | _ => True
  end.

(** The three privilege flags are bits of their own. *)
Definition flags_apart : Prop :=
  CHFL_CHANOP <> 0%N /\ CHFL_HALFOP <> 0%N /\ CHFL_VOICE <> 0%N
  /\ N.land CHFL_CHANOP CHFL_HALFOP = 0%N
  /\ N.land CHFL_CHANOP CHFL_VOICE = 0%N
  /\ N.land CHFL_HALFOP CHFL_VOICE = 0%N.

(** The string does not start with a sigil. *)
Definition no_sigil (s : string) : Prop :=
  match s with
  | String c _ => c <> "@"%char /\ c <> "%"%char /\ c <> "+"%char
  | "" => True
  end.

(** A timestamp the [ignore_bogus_ts] block lets through. *)
Definition ts_sane (t : N) : Prop := t = 0%N \/ (800000000 <= t)%N.

(** The ids of the members of a channel. *)
Definition member_ids (c : Channel.t) : list string :=
  map (fun m => Client.id (Membership.client_p m)) (Channel.members c).

(** The mode of a channel as the rest of the server keeps it: flag bits of
    the table, a limit that is an [unsigned int], a key within KEYLEN. *)
Definition mode_kept (m : Mode.t) : Prop :=
  recognized (Mode.mode m) /\ (Mode.limit m < 2 ^ 32)%N
  /\ Str.len (Mode.key m) <= KEYLEN.

End More.

(** * Properties *)

(** ** Strings *)

Lemma app_cons (c : ascii) (s t : string) :
  String c s +:+ t = String c (s +:+ t).
Proof. reflexivity. Qed.

Lemma app_empty_l (s : string) : "" +:+ s = s.
Proof. reflexivity. Qed.

Lemma app_empty_r (s : string) : s +:+ "" = s.
Proof. induction s as [|c s IH]; [reflexivity|]. rewrite app_cons. now f_equal. Qed.

Lemma app_assoc_s (a b c : string) : (a +:+ b) +:+ c = a +:+ (b +:+ c).
Proof.
  induction a as [|x a IH]; [reflexivity|].
  rewrite !app_cons. now f_equal.
Qed.

Lemma len_app (s t : string) : Str.len (s +:+ t) = Str.len s + Str.len t.
Proof.
  induction s as [|c s IH]; [reflexivity|].
  rewrite app_cons. unfold Str.len in *. simpl. now rewrite IH.
Qed.


Lemma is_empty_app (s t : string) :
  Str.is_empty (s +:+ t) = Str.is_empty s && Str.is_empty t.
Proof. now destruct s. Qed.

Lemma len_cons (c : ascii) (s : string) : Str.len (String c s) = S (Str.len s).
Proof. reflexivity. Qed.

Lemma len_take (n : nat) (s : string) : Str.len (Str.take n s) <= n.
Proof.
  revert s. induction n as [|n IH]; intros [|c s]; simpl;
    rewrite ?len_cons; try (unfold Str.len; simpl; lia).
  specialize (IH s). lia.
Qed.

Lemma take_all (n : nat) (s : string) : Str.len s <= n -> Str.take n s = s.
Proof.
  revert s. induction n as [|n IH]; intros [|c s]; simpl; trivial;
    rewrite len_cons; intros Hle; [lia|].
  f_equal. apply IH. lia.
Qed.

Lemma strlcpy_fits (s : string) (n : nat) :
  Str.len s <= n -> Str.strlcpy s (S n) = s.
Proof. apply take_all. Qed.

Lemma len_strlcpy (s : string) (n : nat) : Str.len (Str.strlcpy s (S n)) <= n.
Proof. apply len_take. Qed.

Lemma is_empty_true (s : string) : Str.is_empty s = true <-> s = "".
Proof. destruct s; simpl; split; congruence. Qed.

Lemma is_empty_len (s : string) : Str.is_empty s = true <-> Str.len s = 0.
Proof. destruct s; unfold Str.len; simpl; split; congruence. Qed.

Lemma len_chop (s : string) : Str.len (Str.chop s) = pred (Str.len s).
Proof.
  induction s as [|c s IH]; [reflexivity|].
  destruct s as [|d s]; [reflexivity|].
  change (Str.chop (String c (String d s))) with (String c (Str.chop (String d s))).
  rewrite !len_cons in *. rewrite IH. reflexivity.
Qed.

Lemma chop_snoc (s : string) (c : ascii) : Str.chop (s +:+ String c "") = s.
Proof.
  induction s as [|d s IH]; [reflexivity|].
  rewrite app_cons.
  destruct (s +:+ String c "") as [|a r] eqn:E.
  - destruct s; discriminate.
  - change (Str.chop (String d (String a r)))
      with (String d (Str.chop (String a r))).
    now rewrite IH.
Qed.

(** ** The ban list pruner *)

Lemma total_app (a b : list nat) : total (a ++ b) = total a + total b.
Proof. induction a as [|n a IH]; simpl; lia. Qed.

Section Pruner.

Context `{K : Consts}.

(** What the loop has queued and what it has already sent add up to the
    entries it went through. *)
Lemma remove_ban_loop_spec header mlen c (blist : list Ban.t) :
  forall cur_len count letters masks rest letters' masks' out,
    remove_ban_loop header mlen c blist cur_len count letters masks
    = (rest, (letters', masks'), out) ->
    rest = []
    /\ flat_map removal_masks out ++ masks' = masks ++ map ban_mask blist
    /\ total (map removal_units out) + Str.len letters'
       = Str.len letters + length blist
    /\ Forall is_removal out.
Proof.
  induction blist as [|ban blist IH]; intros cur_len count letters masks
    rest letters' masks' out; simpl.
  - intros [= <- <- <- <-]. simpl. rewrite app_nil_r. auto.
  - destruct (remove_ban_loop _ _ _ blist _ _ _ _)
      as [[rest0 [l0 m0]] out0] eqn:E.
    intros [= <- <- <- <-].
    apply IH in E as (-> & Hm & Hu & Hf).
    split; [reflexivity|].
    destruct ((MAXMODEPARAMS <=? count)
              || (IRCD_BUFSIZE <? cur_len + 1 + (Ban.len ban + 4 - 1) + 2)).
    + simpl in *. repeat split.
      * rewrite <- app_assoc, Hm. reflexivity.
      * lia.
      * constructor; [exact I | exact Hf].
    + simpl in *. rewrite len_app in Hu.
      change (Str.len (String c "")) with 1 in Hu.
      repeat split.
      * rewrite Hm, <- app_assoc. reflexivity.
      * lia.
      * exact Hf.
Qed.

End Pruner.

(** ** The parameter count of MODE lines *)

Section Params.

Context `{K : Consts}.

Lemma remove_ban_loop_params header mlen c (blist : list Ban.t) :
  0 < MAXMODEPARAMS ->
  forall cur_len count letters masks rest letters' masks' out,
    count = length masks -> count <= MAXMODEPARAMS ->
    remove_ban_loop header mlen c blist cur_len count letters masks
    = (rest, (letters', masks'), out) ->
    Forall params_ok out /\ length masks' <= MAXMODEPARAMS.
Proof.
  intros Hpos.
  induction blist as [|ban blist IH]; intros cur_len count letters masks
    rest letters' masks' out Hc Hle; simpl.
  - intros [= <- <- <- <-]. split; [constructor | lia].
  - destruct (remove_ban_loop _ _ _ blist _ _ _ _)
      as [[rest0 [l0 m0]] out0] eqn:E.
    intros [= <- <- <- <-].
    destruct (MAXMODEPARAMS <=? count) eqn:Hfull; simpl in E.
    + apply IH in E as [Hf Hm]; [|reflexivity|simpl; lia].
      split; [|exact Hm]. simpl. constructor; [simpl; lia | exact Hf].
    + apply Nat.leb_gt in Hfull.
      destruct (IRCD_BUFSIZE <? _); simpl in E.
      * apply IH in E as [Hf Hm]; [|reflexivity|simpl; lia].
        split; [|exact Hm]. simpl. constructor; [simpl; lia | exact Hf].
      * apply IH in E as [Hf Hm]; [auto| |lia].
        rewrite length_app. simpl. lia.
Qed.

Lemma remove_ban_list_params chptr source_p (blist : list Ban.t) c :
  0 < MAXMODEPARAMS ->
  Forall params_ok (snd (remove_ban_list chptr source_p blist c)).
Proof.
  intros Hpos. unfold remove_ban_list.
  destruct (length blist =? 0); [constructor|].
  destruct (remove_ban_loop _ _ _ _ _ _ _ _) as [[rest [l m]] out] eqn:E.
  apply remove_ban_loop_params in E as [Hf Hm]; [|assumption|reflexivity|lia].
  simpl. apply Forall_app. split; [exact Hf|].
  constructor; [exact Hm | constructor].
Qed.

Lemma remove_a_mode_loop_params origin chname mask flag
      (members : list Membership.t) :
  forall lmodebuf lpara ms lmodebuf' lpara' out,
    length lpara <= MAXMODEPARAMS ->
    remove_a_mode_loop origin chname mask flag members lmodebuf lpara
    = (ms, (lmodebuf', lpara'), out) ->
    Forall params_ok out /\ length lpara' <= MAXMODEPARAMS.
Proof.
  induction members as [|m members IH]; intros lmodebuf lpara ms lmodebuf'
    lpara' out Hle; simpl.
  - intros [= <- <- <- <-]. split; [constructor | exact Hle].
  - destruct (N.land _ _ =? 0)%N.
    + destruct (remove_a_mode_loop _ _ _ _ members lmodebuf lpara)
        as [[ms0 [l0 p0]] out0] eqn:E.
      intros [= <- <- <- <-]. eapply IH; eauto.
    + destruct (MAXMODEPARAMS <=? _) eqn:Hfull.
      * destruct (remove_a_mode_loop _ _ _ _ members "-" [])
          as [[ms0 [l0 p0]] out0] eqn:E.
        intros [= <- <- <- <-].
        apply IH in E as [Hf Hp]; [|simpl; lia].
        split; [|exact Hp]. constructor; [|exact Hf].
        simpl. rewrite length_take. lia.
      * apply Nat.leb_gt in Hfull.
        destruct (remove_a_mode_loop _ _ _ _ members _ _)
          as [[ms0 [l0 p0]] out0] eqn:E.
        intros [= <- <- <- <-].
        apply IH in E as [Hf Hp]; [auto|lia].
Qed.

Lemma remove_a_mode_params w chptr source_p mask flag :
  Forall params_ok (snd (remove_a_mode w chptr source_p mask flag)).
Proof.
  unfold remove_a_mode.
  destruct (remove_a_mode_loop _ _ _ _ _ _ _) as [[ms [l p]] out] eqn:E.
  apply remove_a_mode_loop_params in E as [Hf Hp]; [|simpl; lia].
  simpl. apply Forall_app. split; [exact Hf|].
  destruct (length p =? 0); constructor; [exact Hp | constructor].
Qed.

Lemma remove_our_modes_params w chptr source_p :
  Forall params_ok (snd (remove_our_modes w chptr source_p)).
Proof.
  unfold remove_our_modes.
  pose proof (remove_a_mode_params w chptr source_p CHFL_CHANOP "o") as H1.
  destruct (remove_a_mode w chptr source_p CHFL_CHANOP "o") as [c1 o1].
  pose proof (remove_a_mode_params w c1 source_p CHFL_HALFOP "h") as H2.
  destruct (remove_a_mode w c1 source_p CHFL_HALFOP "h") as [c2 o2].
  pose proof (remove_a_mode_params w c2 source_p CHFL_VOICE "v") as H3.
  destruct (remove_a_mode w c2 source_p CHFL_VOICE "v") as [c3 o3].
  simpl in *. rewrite !Forall_app. auto.
Qed.

End Params.

(** ** The loop over the member list *)

Section Loop.

Context `{K : Consts}.

(** A property of the loop state that every turn keeps holds when the
    loop is over. *)
Lemma fill_invariant (P : Fill -> Prop) w source_p r uids :
  (forall st tok have_many,
      P st ->
      P (sjoin_user w source_p (origin_name w source_p) (r_arb r)
                    (r_parabuf r) have_many st tok)) ->
  P {| chan := r_chptr r; uid_buf := first_header source_p r;
       modebuf := Raw.poke (r_modebuf r) 0 "+"; mbuf := 1; para := [];
       out := r_out r |} ->
  P (fill w source_p r uids).
Proof.
  intros Hstep. unfold fill.
  generalize (uid_tokens uids "") at 2 as toks.
  generalize (2 <=? length (uid_tokens uids "")) as many.
  intros many toks. 
  generalize {| chan := r_chptr r; uid_buf := first_header source_p r;
                modebuf := Raw.poke (r_modebuf r) 0 "+"; mbuf := 1;
                para := []; out := r_out r |} as st.
  induction toks as [|tok toks IH]; intros st Hst; simpl; [exact Hst|].
  apply IH, Hstep, Hst.
Qed.

(** A turn of the loop is the identity or the three steps in a row. *)
Lemma sjoin_user_cases (P : Fill -> Prop) w source_p servername a parabuf
      many st tok :
  P st ->
  (forall target_p fl uid_prefix,
      find_person w source_p (snd (status_prefix tok 0)) = Some target_p ->
      Client.from target_p = Client.from source_p ->
      uid_prefix = (if keep_new_modes a
                    then uid_prefix_of (fst (status_prefix tok 0)) else "") ->
      fl = (if keep_new_modes a then fst (status_prefix tok 0) else 0%N) ->
      P (grants servername target_p fl
           (join_user target_p fl many
              (relay_token source_p a parabuf uid_prefix target_p st)))) ->
  P (sjoin_user w source_p servername a parabuf many st tok).
Proof.
  intros Hst Hgo. unfold sjoin_user.
  destruct (status_prefix tok 0) as [fl s]. simpl in Hgo.
  destruct (find_person w source_p s) as [target_p|]; [|exact Hst].
  destruct (String.eqb _ _) eqn:E; simpl; [|exact Hst].
  apply Hgo; auto. now apply String.eqb_eq.
Qed.

Lemma grant_queue_ok servername c target_p st :
  queue_ok st -> queue_ok (grant servername c target_p st).
Proof.
  intros [Ho Hp]. unfold grant, queue_ok. simpl.
  destruct (MAXMODEPARAMS <=? _) eqn:E; simpl.
  - split; [|lia]. apply Forall_app. split; [exact Ho|].
    constructor; [|constructor]. simpl. rewrite length_take. lia.
  - apply Nat.leb_gt in E. split; [exact Ho | lia].
Qed.

Lemma grants_queue_ok servername target_p fl st :
  queue_ok st -> queue_ok (grants servername target_p fl st).
Proof.
  intros H. unfold grants.
  repeat match goal with
         | |- context [if ?b then _ else _] => destruct b
         end; auto using grant_queue_ok.
Qed.

Lemma join_user_queue_ok target_p fl many st :
  queue_ok st -> queue_ok (join_user target_p fl many st).
Proof.
  intros [Ho Hp]. unfold join_user, queue_ok.
  destruct (IsMember _ _); [auto|]. simpl. split; [|exact Hp].
  apply Forall_app. split; [exact Ho|].
  do 2 (constructor; [exact I|]).
  destruct (Str.is_empty _); repeat constructor.
Qed.

Lemma relay_token_queue_ok source_p a parabuf uid_prefix target_p st :
  queue_ok st ->
  queue_ok (relay_token source_p a parabuf uid_prefix target_p st).
Proof.
  intros [Ho Hp]. unfold relay_token, queue_ok. simpl. split; [|exact Hp].
  apply Forall_app. split; [exact Ho|].
  destruct (IRCD_BUFSIZE <? _); repeat constructor.
Qed.

Lemma fill_queue_ok w source_p r uids :
  Forall params_ok (r_out r) -> queue_ok (fill w source_p r uids).
Proof.
  intros Hr. apply fill_invariant.
  - intros st tok many Hst. apply sjoin_user_cases; [exact Hst|].
    intros. apply grants_queue_ok, join_user_queue_ok, relay_token_queue_ok.
    exact Hst.
  - unfold queue_ok. simpl. split; [exact Hr | lia].
Qed.

Lemma lose_ts_params w source_p isnew parv2 oldts newts chptr :
  0 < MAXMODEPARAMS ->
  Forall params_ok (snd (lose_ts w source_p isnew parv2 oldts newts chptr)).
Proof.
  intros Hpos. unfold lose_ts.
  set (c0 := if isnew then chptr else _).
  pose proof (remove_our_modes_params w c0 source_p) as H1.
  destruct (remove_our_modes w c0 source_p) as [c1 o1].
  pose proof (remove_ban_list_params c1 source_p (Channel.banlist c1) "b" Hpos)
    as H2.
  destruct (remove_ban_list c1 source_p (Channel.banlist c1) "b") as [bl o2].
  set (c2 := Channel.set_lists c1 _ _ _).
  pose proof (remove_ban_list_params c2 source_p (Channel.exceptlist c2) "e"
                                     Hpos) as H3.
  destruct (remove_ban_list c2 source_p (Channel.exceptlist c2) "e")
    as [el o3].
  set (c3 := Channel.set_lists c2 _ _ _).
  pose proof (remove_ban_list_params c3 source_p (Channel.invexlist c3) "I"
                                     Hpos) as H4.
  destruct (remove_ban_list c3 source_p (Channel.invexlist c3) "I")
    as [il o4].
  simpl in *. rewrite !Forall_app. repeat split; auto.
  - destruct (negb _); repeat constructor.
  - repeat constructor.
Qed.

Lemma check_ts_params w source_p chptr isnew newts oldts :
  Forall params_ok (snd (check_ts w source_p chptr isnew newts oldts)).
Proof.
  unfold check_ts.
  repeat match goal with
         | |- context [if ?b then _ else _] => destruct b
         end; repeat constructor.
Qed.

Lemma reconcile_params w source_p parv2 parv3 newts mode isnew chptr :
  0 < MAXMODEPARAMS ->
  Forall params_ok
         (r_out (reconcile w source_p parv2 parv3 newts mode isnew chptr)).
Proof.
  intros Hpos. unfold reconcile.
  pose proof (check_ts_params w source_p chptr isnew newts
                              (Channel.creationtime chptr)) as H1.
  destruct (check_ts _ _ _ _ _ _) as [ts o_ts].
  destruct (set_final_mode _ _ _ _) as [mb pb].
  set (a := arbitrate _ _ _).
  set (c1 := Channel.set_mode _ _).
  pose proof (lose_ts_params w source_p isnew parv2
                             (Channel.creationtime chptr) ts c1 Hpos) as H2.
  destruct (keep_our_modes a);
    [|destruct (lose_ts w source_p isnew parv2 _ ts c1) as [c2 o2]];
    destruct (negb (starts_with_0 parv3) && keep_new_modes a);
    try destruct (channel_modes _ _); simpl in *;
    rewrite !Forall_app; repeat split; auto;
    destruct (Str.is_empty _); repeat constructor.
Qed.

End Loop.

(** ** Single lines *)

Section Lines.

Context `{K : Consts}.

(** C6. A list-type mode list handed to [remove_ban_list] is empty
    afterwards; the masks of the removal lines that were sent, read in
    order, are the entries of the list, each of them once, whether or not
    lines were flushed on the way; and the mode letters of these lines add
    up to the length of the list. *)
Theorem remove_ban_list_removes_each_once chptr source_p
        (blist : list Ban.t) c :
  fst (remove_ban_list chptr source_p blist c) = []
  /\ flat_map removal_masks (snd (remove_ban_list chptr source_p blist c))
     = map ban_mask blist
  /\ total (map removal_units (snd (remove_ban_list chptr source_p blist c)))
     = length blist
  /\ Forall is_removal (snd (remove_ban_list chptr source_p blist c)).
Proof.
  unfold remove_ban_list.
  destruct blist as [|ban blist]; [simpl; auto|].
  change (length (ban :: blist) =? 0) with false. cbv iota.
  destruct (remove_ban_loop _ _ _ _ _ _ _ _) as [[rest [l m]] out] eqn:E.
  apply remove_ban_loop_spec in E as (-> & Hm & Hu & Hf).
  cbn [fst snd]. split; [reflexivity|].
  rewrite flat_map_app, map_app, total_app. simpl.
  rewrite app_nil_r. simpl in Hm, Hu.
  repeat split; [exact Hm | unfold Str.len in *; simpl in *; lia |].
  apply Forall_app. split; [exact Hf | repeat constructor].
Qed.

(** C7. No MODE line that grants privileges, removes privileges or
    removes bans carries more than MAXMODEPARAMS parameters. *)
Theorem mode_lines_within_maxmodeparams w source_p parv :
  0 < MAXMODEPARAMS ->
  Forall params_ok (snd (ms_sjoin w source_p parv)).
Proof.
  intros Hpos. unfold ms_sjoin.
  destruct (negb (Client.server source_p)); [constructor|].
  destruct (negb (channel_check_name _ _)); [repeat constructor|].
  destruct (parse_modes _ _ _ _ _) as [[mode args]|]; [|constructor].
  set (found := hash_find_channel w (arg parv 2)).
  set (isnew := if found is None then true else false).
  set (chptr := default _ found).
  set (r := reconcile _ _ _ _ _ _ _ _).
  assert (Hr : Forall params_ok (r_out r)) by now apply reconcile_params.
  destruct (long_sjoin _).
  - simpl. apply Forall_app. split; [exact Hr | repeat constructor].
  - destruct (fill_queue_ok w source_p r (arg parv (args + 4)) Hr) as [Ho Hp].
    assert (Hfin : Forall params_ok
              (out (fill w source_p r (arg parv (args + 4)))
               ++ (if length (para (fill w source_p r (arg parv (args + 4))))
                      =? 0 then []
                   else [LocalModeStatus (origin_name w source_p)
                           (Channel.name
                              (chan (fill w source_p r (arg parv (args + 4)))))
                           (Raw.cstr
                              (Raw.poke
                                 (modebuf (fill w source_p r
                                                (arg parv (args + 4))))
                                 (mbuf (fill w source_p r
                                             (arg parv (args + 4))))
                                 Str.NUL))
                           (para (fill w source_p r (arg parv (args + 4))))]))).
    { apply Forall_app. split; [exact Ho|].
      destruct (length _ =? 0); repeat constructor. exact Hp. }
    destruct (_ && isnew); [exact Hfin|].
    destruct (Str.is_empty _); [exact Hfin|].
    simpl. apply Forall_app. split; [exact Hfin | repeat constructor].
Qed.

End Lines.

(** ** The channel after the handler *)

Section State.

Context `{K : Consts}.

Lemma check_ts_fst w source_p chptr isnew parv oldts :
  fst (check_ts w source_p chptr isnew (Str.strtoumax (arg parv 1)) oldts)
  = incoming_ts w parv oldts.
Proof.
  unfold check_ts, incoming_ts.
  destruct (ignore_bogus_ts w); simpl; [|reflexivity].
  destruct (_ <? _)%N; reflexivity.
Qed.

Lemma remove_ban_list_empties chptr source_p (blist : list Ban.t) c :
  fst (remove_ban_list chptr source_p blist c) = [].
Proof.
  unfold remove_ban_list.
  destruct blist as [|ban blist]; [reflexivity|].
  change (length (ban :: blist) =? 0) with false. cbv iota.
  destruct (remove_ban_loop _ _ _ _ _ _ _ _) as [[rest [l m]] out] eqn:E.
  apply remove_ban_loop_spec in E as (-> & _). reflexivity.
Qed.

Lemma strip_flags_noop mask m :
  N.land (Membership.flags m) mask = 0%N -> strip_flags mask m = m.
Proof.
  intros H. destruct m as [c f]. unfold strip_flags. simpl in *. f_equal.
  apply N.bits_inj. intros n. rewrite N.ldiff_spec.
  assert (Hn : N.testbit (N.land f mask) n = false)
    by (rewrite H; apply N.bits_0).
  rewrite N.land_spec in Hn.
  destruct (N.testbit f n), (N.testbit mask n); simpl in *; congruence.
Qed.

Lemma remove_a_mode_loop_members origin chname mask flag
      (members : list Membership.t) :
  forall lmodebuf lpara,
    fst (fst (remove_a_mode_loop origin chname mask flag members
                                 lmodebuf lpara))
    = map (strip_flags mask) members.
Proof.
  induction members as [|m members IH]; intros lmodebuf lpara; simpl;
    [reflexivity|].
  destruct (N.land _ _ =? 0)%N eqn:E.
  - apply N.eqb_eq in E.
    specialize (IH lmodebuf lpara).
    destruct (remove_a_mode_loop _ _ _ _ members lmodebuf lpara)
      as [[ms0 st0] out0].
    simpl in *. now rewrite IH, strip_flags_noop.
  - destruct (MAXMODEPARAMS <=? _).
    + specialize (IH "-" []).
      destruct (remove_a_mode_loop _ _ _ _ members "-" [])
        as [[ms0 st0] out0].
      simpl in *. now rewrite IH.
    + match goal with
      | |- context [remove_a_mode_loop _ _ _ _ members ?b ?p] =>
          specialize (IH b p);
          destruct (remove_a_mode_loop origin chname mask flag members b p)
            as [[ms0 st0] out0]
      end.
      simpl in *. now rewrite IH.
Qed.

Lemma remove_a_mode_fst w chptr source_p mask flag :
  fst (remove_a_mode w chptr source_p mask flag)
  = Channel.set_members chptr
      (map (strip_flags mask) (Channel.members chptr)).
Proof.
  unfold remove_a_mode.
  pose proof (remove_a_mode_loop_members (origin_name w source_p)
                (Channel.name chptr) mask flag (Channel.members chptr)
                "-" []) as H.
  destruct (remove_a_mode_loop _ _ _ _ _ _ _) as [[ms [l p]] out].
  simpl in *. now rewrite H.
Qed.

Lemma remove_our_modes_fst w chptr source_p :
  fst (remove_our_modes w chptr source_p)
  = Channel.set_members chptr
      (map (fun m => strip_flags CHFL_VOICE
                       (strip_flags CHFL_HALFOP (strip_flags CHFL_CHANOP m)))
           (Channel.members chptr)).
Proof.
  unfold remove_our_modes.
  pose proof (remove_a_mode_fst w chptr source_p CHFL_CHANOP "o") as H1.
  destruct (remove_a_mode w chptr source_p CHFL_CHANOP "o") as [c1 o1].
  pose proof (remove_a_mode_fst w c1 source_p CHFL_HALFOP "h") as H2.
  destruct (remove_a_mode w c1 source_p CHFL_HALFOP "h") as [c2 o2].
  pose proof (remove_a_mode_fst w c2 source_p CHFL_VOICE "v") as H3.
  destruct (remove_a_mode w c2 source_p CHFL_VOICE "v") as [c3 o3].
  simpl in *. subst c3 c2 c1. destruct chptr. simpl.
  now rewrite !map_map.
Qed.

(** The channel the side that lost the TS is left with. *)
Lemma lose_ts_fst w source_p isnew parv2 oldts newts chptr :
  fst (lose_ts w source_p isnew parv2 oldts newts chptr)
  = Channel.mk
      (if isnew then Channel.name chptr
       else Str.strlcpy parv2 (S CHANNELLEN))
      (Channel.creationtime chptr) (Channel.mode chptr) ""
      (if Str.is_empty (Channel.topic chptr)
       then Channel.topic_info chptr else "")
      (if Str.is_empty (Channel.topic chptr)
       then Channel.topic_time chptr else 0%N)
      (map lost_member (Channel.members chptr)) [] [] [] [].
Proof.
  unfold lose_ts.
  set (c0 := if isnew then chptr else _).
  pose proof (remove_our_modes_fst w c0 source_p) as H1.
  destruct (remove_our_modes w c0 source_p) as [c1 o1].
  pose proof (remove_ban_list_empties c1 source_p (Channel.banlist c1) "b")
    as H2.
  destruct (remove_ban_list c1 source_p (Channel.banlist c1) "b") as [bl o2].
  set (c2 := Channel.set_lists c1 _ _ _).
  pose proof (remove_ban_list_empties c2 source_p (Channel.exceptlist c2) "e")
    as H3.
  destruct (remove_ban_list c2 source_p (Channel.exceptlist c2) "e")
    as [el o3].
  set (c3 := Channel.set_lists c2 _ _ _).
  pose proof (remove_ban_list_empties c3 source_p (Channel.invexlist c3) "I")
    as H4.
  destruct (remove_ban_list c3 source_p (Channel.invexlist c3) "I")
    as [il o4].
  simpl in H1, H2, H3, H4. subst bl el il c3 c2 c1 c0.
  cbn [fst]. unfold clear_ban_cache_list, lost_member.
  destruct chptr as [n ct md tp ti tt ms b e i inv].
  destruct isnew; simpl; rewrite map_map;
    destruct (Str.is_empty tp) eqn:Et; simpl; try reflexivity;
    apply is_empty_true in Et; subst tp; reflexivity.
Qed.

Lemma reconciled_arb w source_p parv mode isnew chptr :
  r_arb (reconciled w source_p parv mode isnew chptr)
  = arbitrate isnew (incoming_ts w parv (Channel.creationtime chptr))
              (Channel.creationtime chptr).
Proof.
  unfold reconciled, reconcile.
  rewrite <- (check_ts_fst w source_p chptr isnew parv).
  destruct (check_ts _ _ _ _ _ _) as [ts o_ts].
  destruct (set_final_mode _ _ _ _) as [mb pb].
  destruct (keep_our_modes _); [|destruct (lose_ts _ _ _ _ _ _ _)];
    destruct (_ && _); try destruct (channel_modes _ _); reflexivity.
Qed.

Lemma reconciled_chptr w source_p parv mode isnew chptr :
  let newts := incoming_ts w parv (Channel.creationtime chptr) in
  let a := arbitrate isnew newts (Channel.creationtime chptr) in
  let c1 := Channel.set_mode
              (Channel.set_creationtime chptr (creationtime' a))
              (merge_modes a mode (Channel.mode chptr)) in
  r_chptr (reconciled w source_p parv mode isnew chptr)
  = if keep_our_modes a then c1
    else fst (lose_ts w source_p isnew (arg parv 2)
                      (Channel.creationtime chptr) newts c1).
Proof.
  unfold reconciled, reconcile.
  rewrite <- (check_ts_fst w source_p chptr isnew parv).
  destruct (check_ts _ _ _ _ _ _) as [ts o_ts].
  destruct (set_final_mode _ _ _ _) as [mb pb]. simpl.
  destruct (keep_our_modes _); [|destruct (lose_ts _ _ _ _ _ _ _)];
    destruct (_ && _); try destruct (channel_modes _ _); reflexivity.
Qed.

Lemma set_members_same chptr :
  Channel.set_members chptr (Channel.members chptr) = chptr.
Proof. now destruct chptr. Qed.

Lemma grant_chan servername c target_p st :
  chan (grant servername c target_p st) = chan st.
Proof. unfold grant. simpl. now destruct (MAXMODEPARAMS <=? _). Qed.

Lemma grants_chan servername target_p fl st :
  chan (grants servername target_p fl st) = chan st.
Proof.
  unfold grants.
  repeat match goal with
         | |- context [if ?b then _ else _] => destruct b
         end; now rewrite ?grant_chan.
Qed.

(** The loop over the member list only adds memberships, in front of the
    ones the channel had; without [keep_new_modes] they carry no flag. *)
Lemma fill_chan w source_p r uids :
  exists added,
    chan (fill w source_p r uids)
    = Channel.set_members (r_chptr r) (added ++ Channel.members (r_chptr r))
    /\ (keep_new_modes (r_arb r) = false ->
        Forall (fun m => Membership.flags m = 0%N) added).
Proof.
  apply fill_invariant.
  - intros st tok many (added & Hc & Hf).
    apply sjoin_user_cases; [now exists added|].
    intros target_p fl uid_prefix _ _ _ Hfl.
    rewrite grants_chan. unfold join_user. simpl.
    destruct (IsMember _ _); simpl; [now exists added|].
    exists (Membership.mk target_p fl :: added). split.
    + unfold add_user_to_channel. rewrite Hc. now destruct (r_chptr r).
    + intros Hk. constructor; [|auto]. simpl. now rewrite Hfl, Hk.
  - exists []. simpl. now rewrite set_members_same.
Qed.

Lemma IsMember_add target_p chptr who fl flood :
  IsMember target_p (add_user_to_channel chptr who fl flood)
  = String.eqb (Client.id who) (Client.id target_p) || IsMember target_p chptr.
Proof. now destruct chptr. Qed.

Lemma sjoin_user_keeps_members w source_p servername a parabuf many st tok
      target_p :
  IsMember target_p (chan st) = true ->
  IsMember target_p
    (chan (sjoin_user w source_p servername a parabuf many st tok)) = true.
Proof.
  intros H. apply sjoin_user_cases; [exact H|].
  intros who fl uid_prefix _ _ _ _. rewrite grants_chan. unfold join_user.
  simpl. destruct (IsMember who (chan st)); simpl; [exact H|].
  rewrite IsMember_add, H. apply orb_true_r.
Qed.

Lemma sjoin_user_joins w source_p servername a parabuf many st tok target_p :
  find_person w source_p (snd (status_prefix tok 0)) = Some target_p ->
  Client.from target_p = Client.from source_p ->
  IsMember target_p
    (chan (sjoin_user w source_p servername a parabuf many st tok)) = true.
Proof.
  intros Hf Hfrom. unfold sjoin_user.
  destruct (status_prefix tok 0) as [fl s]. simpl in Hf. rewrite Hf.
  rewrite Hfrom, String.eqb_refl. simpl.
  rewrite grants_chan. unfold join_user. simpl.
  destruct (IsMember target_p (chan st)) eqn:E; simpl; [exact E|].
  rewrite IsMember_add, String.eqb_refl. reflexivity.
Qed.

(** Every token of the member list that names a user reachable through
    the link of the sender has that user in the channel when the loop is
    over. *)
Lemma fill_joins w source_p r uids tok target_p :
  In tok (uid_tokens uids "") ->
  find_person w source_p (snd (status_prefix tok 0)) = Some target_p ->
  Client.from target_p = Client.from source_p ->
  IsMember target_p (chan (fill w source_p r uids)) = true.
Proof.
  intros Hin Hf Hfrom. unfold fill.
  generalize (2 <=? length (uid_tokens uids "")) as many. intros many.
  generalize {| chan := r_chptr r; uid_buf := first_header source_p r;
                modebuf := Raw.poke (r_modebuf r) 0 "+"; mbuf := 1;
                para := []; out := r_out r |} as st.
  induction (uid_tokens uids "") as [|t toks IH]; intros st;
    [destruct Hin|].
  simpl. destruct Hin as [-> | Hin]; [|now apply IH].
  clear IH.
  assert (H0 : IsMember target_p
                 (chan (sjoin_user w source_p (origin_name w source_p)
                          (r_arb r) (r_parabuf r) many st tok)) = true)
    by now apply sjoin_user_joins.
  revert H0.
  generalize (sjoin_user w source_p (origin_name w source_p) (r_arb r)
                         (r_parabuf r) many st tok) as st'.
  induction toks as [|t toks IH]; intros st' H0; simpl; [exact H0|].
  apply IH. now apply sjoin_user_keeps_members.
Qed.

Lemma lost_member_client m :
  Membership.client_p (lost_member m) = Membership.client_p m.
Proof.
  unfold lost_member. simpl.
  now destruct (Client.my_connect (Membership.client_p m)).
Qed.

Lemma lost_member_privs m :
  N.land (Membership.flags (lost_member m)) CHFL_PRIVS = 0%N.
Proof.
  unfold lost_member, CHFL_PRIVS. simpl.
  destruct (Client.my_connect _); simpl; apply N.bits_inj; intros n;
    rewrite N.land_spec, !N.ldiff_spec, !N.lor_spec, N.bits_0;
    destruct (N.testbit (Membership.flags m) n),
             (N.testbit CHFL_CHANOP n), (N.testbit CHFL_HALFOP n),
             (N.testbit CHFL_VOICE n); simpl; try reflexivity;
    now rewrite andb_false_r.
Qed.







(** An SJOIN for a channel of the hash leaves the settled channel in its
    slot. *)
Lemma ms_sjoin_found w source_p parv mode args chptr :
  accepted source_p parv mode args ->
  hash_find_channel w (arg parv 2) = Some chptr ->
  channels (fst (ms_sjoin w source_p parv)) !! casefold (arg parv 2)
  = Some (settled w source_p parv mode args false chptr).
Proof.
  intros (Hs & Hn & Hp) Hf. unfold ms_sjoin, settled, oversized, reconciled.
  rewrite Hs, Hn, Hp, Hf. simpl.
  destruct (long_sjoin _); simpl; [apply lookup_insert_eq|].
  rewrite andb_false_r.
  destruct (Str.is_empty _); simpl; apply lookup_insert_eq.
Qed.

(** An SJOIN for a channel that is not in the hash: the channel made for
    it is discarded when nobody has joined, and is otherwise left settled
    in the slot of its name. *)
Lemma ms_sjoin_made w source_p parv mode args :
  accepted source_p parv mode args ->
  hash_find_channel w (arg parv 2) = None ->
  let chptr := channel_make w (arg parv 2) in
  let chptr' := settled w source_p parv mode args true chptr in
  channels (fst (ms_sjoin w source_p parv)) !! casefold (Channel.name chptr)
  = if oversized source_p (reconciled w source_p parv mode true chptr)
    then Some chptr'
    else if length (Channel.members chptr') =? 0 then None else Some chptr'.
Proof.
  intros (Hs & Hn & Hp) Hf. unfold ms_sjoin, settled, oversized, reconciled.
  rewrite Hs, Hn, Hp, Hf. simpl.
  destruct (long_sjoin _); simpl; [apply lookup_insert_eq|].
  rewrite andb_true_r.
  destruct (length _ =? 0); simpl; [apply lookup_delete_eq|].
  destruct (Str.is_empty _); simpl; apply lookup_insert_eq.
Qed.

(** The settled channel is the reconciled one with the members the loop
    has added in front. *)
Lemma settled_members w source_p parv mode args isnew chptr :
  let r := reconciled w source_p parv mode isnew chptr in
  exists added,
    settled w source_p parv mode args isnew chptr
    = Channel.set_members (r_chptr r) (added ++ Channel.members (r_chptr r))
    /\ (keep_new_modes (r_arb r) = false ->
        Forall (fun m => Membership.flags m = 0%N) added).
Proof.
  intros r. unfold settled. fold r.
  destruct (oversized source_p r).
  - exists []. simpl. rewrite set_members_same. auto.
  - apply fill_chan.
Qed.

End State.

(** ** Timestamp arbitration *)

Section Arbitration.

Context `{K : Consts}.

Lemma arbitrate_newer newts oldts :
  newts <> 0%N -> oldts <> 0%N -> (oldts < newts)%N ->
  arbitrate false newts oldts = Build_Arbitration true false oldts oldts.
Proof.
  intros Hn Ho Hlt. unfold arbitrate.
  destruct (N.eqb_spec newts 0); [contradiction|].
  destruct (N.eqb_spec oldts 0); [contradiction|].
  destruct (N.eqb_spec newts oldts); [lia|].
  destruct (N.ltb_spec newts oldts); [lia|]. reflexivity.
Qed.

Lemma arbitrate_older newts oldts :
  newts <> 0%N -> oldts <> 0%N -> (newts < oldts)%N ->
  arbitrate false newts oldts = Build_Arbitration false true newts newts.
Proof.
  intros Hn Ho Hlt. unfold arbitrate.
  destruct (N.eqb_spec newts 0); [contradiction|].
  destruct (N.eqb_spec oldts 0); [contradiction|].
  destruct (N.eqb_spec newts oldts); [lia|].
  destruct (N.ltb_spec newts oldts); [|lia]. reflexivity.
Qed.

Lemma arbitrate_both newts oldts :
  newts = 0%N \/ oldts = 0%N \/ newts = oldts ->
  keep_our_modes (arbitrate false newts oldts) = true
  /\ keep_new_modes (arbitrate false newts oldts) = true.
Proof.
  intros H. unfold arbitrate.
  destruct (N.eqb_spec newts 0); [now simpl|].
  destruct (N.eqb_spec oldts 0); [now simpl|].
  destruct (N.eqb_spec newts oldts); [now simpl|].
  destruct H as [H | [H | H]]; contradiction.
Qed.

Lemma Forall2_map_self {A : Type} (f : A -> A) (P : A -> A -> Prop)
      (l : list A) :
  (forall x, P x (f x)) -> Forall2 P l (map f l).
Proof. intros H. induction l; simpl; constructor; auto. Qed.

(** The channel of an SJOIN that makes the local side lose the TS. *)
Lemma settled_lost w source_p parv mode args chptr :
  let oldts := Channel.creationtime chptr in
  let newts := incoming_ts w parv oldts in
  newts <> 0%N -> oldts <> 0%N -> (newts < oldts)%N ->
  exists added md info time,
    settled w source_p parv mode args false chptr
    = Channel.mk (Str.strlcpy (arg parv 2) (S CHANNELLEN)) newts md ""
                 info time
                 (added ++ map lost_member (Channel.members chptr))
                 [] [] [] [].
Proof.
  intros oldts newts Hn Ho Hlt.
  destruct (settled_members w source_p parv mode args false chptr)
    as (added & -> & _).
  rewrite reconciled_chptr. fold oldts newts.
  rewrite (arbitrate_older newts oldts Hn Ho Hlt). cbn [keep_our_modes].
  rewrite lose_ts_fst. exists added. simpl.
  destruct chptr; simpl. eauto.
Qed.

(** C2, amended. An SJOIN on an existing channel whose timestamp, after
    the [ignore_bogus_ts] adjustment, is non-zero and smaller than the
    non-zero timestamp of the channel: the channel takes that timestamp,
    the members it had keep none of the flags CHFL_CHANOP, CHFL_HALFOP and
    CHFL_VOICE, and its ban, exception and invite-exempt lists are empty. *)
Theorem older_sjoin_resets_channel w source_p parv mode args chptr :
  accepted source_p parv mode args ->
  hash_find_channel w (arg parv 2) = Some chptr ->
  incoming_ts w parv (Channel.creationtime chptr) <> 0%N ->
  Channel.creationtime chptr <> 0%N ->
  (incoming_ts w parv (Channel.creationtime chptr)
   < Channel.creationtime chptr)%N ->
  exists chptr' added had,
    channels (fst (ms_sjoin w source_p parv)) !! casefold (arg parv 2)
    = Some chptr'
    /\ Channel.creationtime chptr'
       = incoming_ts w parv (Channel.creationtime chptr)
    /\ Channel.members chptr' = added ++ had
    /\ Forall2 (fun m m' =>
                  Membership.client_p m' = Membership.client_p m
                  /\ N.land (Membership.flags m') CHFL_PRIVS = 0%N)
               (Channel.members chptr) had
    /\ Channel.banlist chptr' = []
    /\ Channel.exceptlist chptr' = []
    /\ Channel.invexlist chptr' = [].
Proof.
  intros Hacc Hfound Hn Ho Hlt.
  destruct (settled_lost w source_p parv mode args chptr Hn Ho Hlt)
    as (added & md & info & time & Hs).
  exists (settled w source_p parv mode args false chptr), added,
         (map lost_member (Channel.members chptr)).
  split; [now apply ms_sjoin_found|].
  rewrite Hs. simpl.
  do 2 (split; [reflexivity|]). split; [|auto].
  apply Forall2_map_self. intros m.
  split; [apply lost_member_client | apply lost_member_privs].
Qed.


Lemma strcmp_nil_r s : (Str.strcmp s "" <? 0)%Z = false.
Proof. destruct s as [|c s]; simpl; [reflexivity|]. apply Z.ltb_ge. lia. Qed.

Lemma strcmp_nil_l s :
  cstring s -> s <> "" -> (Str.strcmp "" s <? 0)%Z = true.
Proof.
  destruct s as [|c s]; [contradiction|]. simpl. intros [Hc _] _.
  apply Z.ltb_lt.
  assert (N_of_ascii c <> 0%N).
  { intros H. apply Hc. rewrite <- (ascii_N_embedding c), H. reflexivity. }
  lia.
Qed.

Lemma merge_modes_both a mode oldmode :
  keep_our_modes a = true -> keep_new_modes a = true ->
  Str.len (Mode.key oldmode) <= KEYLEN ->
  merge_modes a mode oldmode
  = Mode.mk (N.lor (Mode.mode mode) (Mode.mode oldmode))
            (N.max (Mode.limit mode) (Mode.limit oldmode))
            (greater_key (Mode.key mode) (Mode.key oldmode)).
Proof.
  intros Ho Hn Hk. unfold merge_modes, greater_key. rewrite Ho, Hn. simpl.
  rewrite strlcpy_fits by exact Hk. f_equal.
  destruct (N.ltb_spec (Mode.limit mode) (Mode.limit oldmode)); lia.
Qed.

(** C1, amended. When both sides' modes are kept on an existing channel
    (the timestamp of the message after the [ignore_bogus_ts] adjustment
    and that of the channel are equal, or either of them is zero), the
    flag bits of the channel become the union of the two flag sets, the
    limit the greater of the two limits, and the key the one of the two
    keys that [strcmp] orders last: the only non-empty key if one side
    has none, the greater one if both have one. *)
Theorem merge_keeps_union_max_and_greater_key w source_p parv mode args
        chptr :
  accepted source_p parv mode args ->
  hash_find_channel w (arg parv 2) = Some chptr ->
  incoming_ts w parv (Channel.creationtime chptr) = 0%N
  \/ Channel.creationtime chptr = 0%N
  \/ incoming_ts w parv (Channel.creationtime chptr)
     = Channel.creationtime chptr ->
  Str.len (Mode.key (Channel.mode chptr)) <= KEYLEN ->
  exists chptr',
    channels (fst (ms_sjoin w source_p parv)) !! casefold (arg parv 2)
    = Some chptr'
    /\ Mode.mode (Channel.mode chptr')
       = N.lor (Mode.mode mode) (Mode.mode (Channel.mode chptr))
    /\ Mode.limit (Channel.mode chptr')
       = N.max (Mode.limit mode) (Mode.limit (Channel.mode chptr))
    /\ Mode.key (Channel.mode chptr')
       = greater_key (Mode.key mode) (Mode.key (Channel.mode chptr))
    /\ (Mode.key (Channel.mode chptr) = "" ->
        Mode.key (Channel.mode chptr') = Mode.key mode)
    /\ (Mode.key mode = "" -> cstring (Mode.key (Channel.mode chptr)) ->
        Mode.key (Channel.mode chptr') = Mode.key (Channel.mode chptr)).
Proof.
  intros Hacc Hfound Hts Hk.
  exists (settled w source_p parv mode args false chptr).
  split; [now apply ms_sjoin_found|].
  destruct (settled_members w source_p parv mode args false chptr)
    as (added & -> & _).
  rewrite reconciled_chptr.
  destruct (arbitrate_both _ _ Hts) as [Ho Hn]. rewrite Ho.
  cbn [Channel.mode Channel.set_members Channel.set_mode].
  rewrite (merge_modes_both _ _ _ Ho Hn Hk).
  cbn [Mode.mode Mode.limit Mode.key]. do 3 (split; [reflexivity|]).
  unfold greater_key. split.
  - intros ->. now rewrite strcmp_nil_r.
  - intros -> Hc.
    destruct (Mode.key (Channel.mode chptr)) eqn:E; [reflexivity|].
    now rewrite strcmp_nil_l.
Qed.

Lemma merge_modes_new newts oldts mode :
  merge_modes (arbitrate true newts oldts) mode (Mode.mk 0 0 "") = mode.
Proof.
  unfold merge_modes. simpl. rewrite strcmp_nil_r, N.lor_0_r.
  destruct mode as [m l k]. simpl. f_equal. now destruct l.
Qed.

Lemma remove_a_mode_loop_local origin chname mask flag
      (members : list Membership.t) :
  forall lmodebuf lpara,
    Forall (fun e => ~ is_relay e)
           (snd (remove_a_mode_loop origin chname mask flag members
                                    lmodebuf lpara)).
Proof.
  induction members as [|m members IH]; intros lmodebuf lpara; simpl;
    [constructor|].
  destruct (N.land _ _ =? 0)%N.
  - specialize (IH lmodebuf lpara).
    now destruct (remove_a_mode_loop _ _ _ _ members lmodebuf lpara)
      as [[ms0 st0] out0].
  - destruct (MAXMODEPARAMS <=? _).
    + specialize (IH "-" []).
      destruct (remove_a_mode_loop _ _ _ _ members "-" [])
        as [[ms0 st0] out0].
      simpl in *. constructor; [tauto | exact IH].
    + match goal with
      | |- context [remove_a_mode_loop _ _ _ _ members ?b ?p] =>
          specialize (IH b p);
          now destruct (remove_a_mode_loop origin chname mask flag members
                                           b p) as [[ms0 st0] out0]
      end.
Qed.

Lemma remove_a_mode_local w chptr source_p mask flag :
  Forall (fun e => ~ is_relay e)
         (snd (remove_a_mode w chptr source_p mask flag)).
Proof.
  unfold remove_a_mode.
  pose proof (remove_a_mode_loop_local (origin_name w source_p)
                (Channel.name chptr) mask flag (Channel.members chptr)
                "-" []) as H.
  destruct (remove_a_mode_loop _ _ _ _ _ _ _) as [[ms [l p]] out].
  simpl in *. apply Forall_app. split; [exact H|].
  destruct (length p =? 0); repeat constructor. tauto.
Qed.

Lemma remove_ban_list_local chptr source_p (blist : list Ban.t) c :
  Forall (fun e => ~ is_relay e)
         (snd (remove_ban_list chptr source_p blist c)).
Proof.
  unfold remove_ban_list.
  destruct (length blist =? 0); [constructor|].
  destruct (remove_ban_loop _ _ _ _ _ _ _ _) as [[rest [l m]] out] eqn:E.
  apply remove_ban_loop_spec in E as (_ & _ & _ & Hf).
  simpl. apply Forall_app. split.
  - eapply Forall_impl; [exact Hf|]. now intros [].
  - repeat constructor. tauto.
Qed.

Lemma lose_ts_local w source_p isnew parv2 oldts newts chptr :
  Forall (fun e => ~ is_relay e)
         (snd (lose_ts w source_p isnew parv2 oldts newts chptr)).
Proof.
  unfold lose_ts, remove_our_modes.
  set (c0 := if isnew then chptr else _).
  pose proof (remove_a_mode_local w c0 source_p CHFL_CHANOP "o") as A1.
  destruct (remove_a_mode w c0 source_p CHFL_CHANOP "o") as [a1 p1].
  pose proof (remove_a_mode_local w a1 source_p CHFL_HALFOP "h") as A2.
  destruct (remove_a_mode w a1 source_p CHFL_HALFOP "h") as [a2 p2].
  pose proof (remove_a_mode_local w a2 source_p CHFL_VOICE "v") as A3.
  destruct (remove_a_mode w a2 source_p CHFL_VOICE "v") as [c1 p3].
  pose proof (remove_ban_list_local c1 source_p (Channel.banlist c1) "b")
    as H2.
  destruct (remove_ban_list c1 source_p (Channel.banlist c1) "b") as [bl o2].
  set (c2 := Channel.set_lists c1 _ _ _).
  pose proof (remove_ban_list_local c2 source_p (Channel.exceptlist c2) "e")
    as H3.
  destruct (remove_ban_list c2 source_p (Channel.exceptlist c2) "e")
    as [el o3].
  set (c3 := Channel.set_lists c2 _ _ _).
  pose proof (remove_ban_list_local c3 source_p (Channel.invexlist c3) "I")
    as H4.
  destruct (remove_ban_list c3 source_p (Channel.invexlist c3) "I")
    as [il o4].
  simpl in *. rewrite !Forall_app. repeat split; auto;
    try destruct (negb _); repeat constructor; tauto.
Qed.

(** Nothing is sent to a server before the member list is read. *)
Lemma reconcile_local w source_p parv2 parv3 newts mode isnew chptr :
  Forall (fun e => ~ is_relay e)
         (r_out (reconcile w source_p parv2 parv3 newts mode isnew chptr)).
Proof.
  unfold reconcile.
  assert (H1 : Forall (fun e => ~ is_relay e)
                 (snd (check_ts w source_p chptr isnew newts
                                (Channel.creationtime chptr)))).
  { unfold check_ts.
    repeat match goal with
           | |- context [if ?b then _ else _] => destruct b
           end; repeat constructor; tauto. }
  destruct (check_ts _ _ _ _ _ _) as [ts o_ts].
  destruct (set_final_mode _ _ _ _) as [mb pb].
  set (a := arbitrate _ _ _).
  set (c1 := Channel.set_mode _ _).
  pose proof (lose_ts_local w source_p isnew parv2
                            (Channel.creationtime chptr) ts c1) as H2.
  destruct (keep_our_modes a);
    [|destruct (lose_ts w source_p isnew parv2 _ ts c1) as [c2 o2]];
    destruct (negb (starts_with_0 parv3) && keep_new_modes a);
    try destruct (channel_modes _ _); simpl in *;
    rewrite !Forall_app; repeat split; auto;
    destruct (Str.is_empty _); repeat constructor; tauto.
Qed.

(** C9, amended. A malformed SJOIN from a server is dropped on the spot.
    With an invalid channel name the world is as it was and the one thing
    sent is a notice to the operators; with a [k] or [l] that has no
    argument the world is as it was and nothing at all is sent, no notice
    either; with an oversized relay line the channel stays as reconciled,
    no member is read, and a notice to the operators is the last thing
    sent. In none of the three cases is anything sent to a server. *)
Theorem malformed_sjoin_is_dropped w source_p parv :
  Client.server source_p = true ->
  (channel_check_name (arg parv 2) false = false ->
   ms_sjoin w source_p parv
   = (w, [RealopsBadName (Client.name source_p) (Client.from source_p)
                         (arg parv 2)]))
  /\ (channel_check_name (arg parv 2) false = true ->
      parse_modes parv (length parv) (arg parv 3) (Mode.mk 0 0 "") 0 = None ->
      ms_sjoin w source_p parv = (w, []))
  /\ (forall mode args,
         accepted source_p parv mode args ->
         let r := reconciled w source_p parv mode (is_new w parv)
                             (channel_of w parv) in
         oversized source_p r = true ->
         ms_sjoin w source_p parv
         = (hash_put w (slot_of w parv) (r_chptr r),
            r_out r ++ [RealopsLongSjoin (Client.name source_p)
                                         (Client.from source_p)])
         /\ Forall (fun e => ~ is_relay e) (snd (ms_sjoin w source_p parv))).
Proof.
  intros Hs. split; [|split].
  - intros Hn. unfold ms_sjoin. now rewrite Hs, Hn.
  - intros Hn Hp. unfold ms_sjoin. now rewrite Hs, Hn, Hp.
  - intros mode args (_ & Hn & Hp) r Hlong.
    assert (E : ms_sjoin w source_p parv
                = (hash_put w (slot_of w parv) (r_chptr r),
                   r_out r ++ [RealopsLongSjoin (Client.name source_p)
                                                (Client.from source_p)])).
    { unfold ms_sjoin. rewrite Hs, Hn, Hp. simpl.
      unfold oversized, reconciled in *. fold (is_new w parv).
      fold (channel_of w parv). subst r. now rewrite Hlong. }
    split; [exact E|]. rewrite E. simpl.
    apply Forall_app. split; [apply reconcile_local|].
    repeat constructor. tauto.
Qed.

End Arbitration.

(** ** Character buffers *)

Section Buffers.

Lemma length_poke buf i c :
  length (Raw.poke buf i c) = Nat.max (length buf) (S i).
Proof.
  revert buf. induction i as [|i IH]; intros [|b r]; simpl; try lia.
  - specialize (IH []). simpl in IH. lia.
  - specialize (IH r). lia.
Qed.

Lemma cstr_le buf : Str.len (Raw.cstr buf) <= length buf.
Proof.
  induction buf as [|c r IH]; simpl; [reflexivity|].
  destruct (Ascii.eqb c Str.NUL); [unfold Str.len; simpl; lia|].
  rewrite len_cons. lia.
Qed.

Lemma firstn_poke buf i c :
  length (firstn i buf) = i ->
  firstn (S i) (Raw.poke buf i c) = firstn i buf ++ [c].
Proof.
  revert buf. induction i as [|i IH]; intros [|b r] H; simpl in *;
    try reflexivity; try discriminate.
  f_equal. apply IH. lia.
Qed.

Lemma written_start buf : written (buf, 0) [].
Proof. split; reflexivity. Qed.

Lemma written_putc st w c : written st w -> written (Raw.putc st c) (w ++ [c]).
Proof.
  destruct st as [buf i]. intros [Hw Hl]. simpl in *. split; simpl.
  - rewrite firstn_poke; [now rewrite Hw | now rewrite Hw].
  - rewrite length_app. simpl. lia.
Qed.

Lemma written_fold l : forall st w,
  written st w -> written (fold_left Raw.putc l st) (w ++ l).
Proof.
  induction l as [|c l IH]; intros st w H; simpl.
  - now rewrite app_nil_r.
  - replace (w ++ c :: l) with ((w ++ [c]) ++ l) by now rewrite <- app_assoc.
    apply IH, written_putc, H.
Qed.

Lemma firstn_prefix {A : Type} (l : list A) n w x :
  firstn (S n) l = w ++ [x] -> length w = n -> firstn n l = w.
Proof.
  revert l w. induction n as [|n IH]; intros l w H Hl.
  - destruct w; [reflexivity | discriminate].
  - destruct l as [|a l]; [destruct w; discriminate|].
    destruct w as [|b w]; [discriminate|].
    simpl in H, Hl. injection H as -> H. simpl. f_equal.
    apply IH; [exact H | lia].
Qed.

Lemma written_last st w x :
  written st (w ++ [x]) ->
  snd st = S (length w) /\ written (fst st, length w) w
  /\ Raw.peek (fst st) (length w) = x.
Proof.
  destruct st as [buf i]. intros [Hw Hl]. simpl in *.
  rewrite length_app in Hl. simpl in Hl.
  replace (length w + 1) with (S (length w)) in Hl by lia. subst i.
  split; [reflexivity|]. split.
  - split; simpl; [|reflexivity]. now apply firstn_prefix with (x := x).
  - revert buf Hw. induction w as [|a w IH]; intros [|b r] Hw;
      simpl in *; try discriminate.
    + now injection Hw.
    + injection Hw as -> Hw. now apply IH.
Qed.

Lemma written_cstr st w :
  written st w -> Forall (fun c => c <> Str.NUL) w ->
  Raw.cstr (Raw.poke (fst st) (snd st) Str.NUL) = string_of_list_ascii w.
Proof.
  destruct st as [buf i]. intros [Hw Hl] Hn. simpl in *. subst i.
  revert buf Hw. induction Hn as [|a w Ha Hn IH]; intros buf Hw.
  - simpl. destruct buf; reflexivity.
  - destruct buf as [|b r]; [discriminate|].
    simpl in Hw. injection Hw as -> Hw. simpl.
    destruct (Ascii.eqb_spec a Str.NUL); [contradiction|].
    f_equal. now apply IH.
Qed.

Lemma string_of_list_ascii_app a b :
  string_of_list_ascii (a ++ b)
  = string_of_list_ascii a +:+ string_of_list_ascii b.
Proof. induction a as [|c a IH]; simpl; [reflexivity|]. now rewrite IH. Qed.

End Buffers.

(** ** Decimal numbers *)

Section Decimal.

Lemma digit_char_val d :
  (d < 10)%N ->
  Str.is_digit (Str.digit_char d) = true
  /\ (N_of_ascii (Str.digit_char d) - 48)%N = d.
Proof.
  intros H. unfold Str.is_digit, Str.digit_char.
  rewrite N_ascii_embedding by lia.
  split; [|lia].
  apply andb_true_iff. split; apply N.leb_le; lia.
Qed.

Lemma digits_val_utoa_go f : forall n acc a,
  (n < 2 ^ N.of_nat (S f))%N ->
  exists k, Str.digits_val (Str.utoa_go (S f) n acc) a
            = Str.digits_val acc (a * 10 ^ k + n)%N.
Proof.
  induction f as [|f IH]; intros n acc a Hn.
  - assert (Hlt : (n < 10)%N) by (change (2 ^ N.of_nat 1)%N with 2%N in Hn; lia).
    simpl. apply N.ltb_lt in Hlt as Hb. rewrite Hb.
    rewrite N.mod_small by exact Hlt.
    destruct (digit_char_val n Hlt) as [Hd Hv].
    exists 1%N. simpl. rewrite Hd, Hv. f_equal. lia.
  - change (Str.utoa_go (S (S f)) n acc)
      with (if (n <? 10)%N then String (Str.digit_char (n mod 10)) acc
            else Str.utoa_go (S f) (n / 10)
                             (String (Str.digit_char (n mod 10)) acc)).
    destruct (N.ltb_spec n 10) as [Hlt | Hge].
    + rewrite N.mod_small by exact Hlt.
      destruct (digit_char_val n Hlt) as [Hd Hv].
      exists 1%N. simpl. rewrite Hd, Hv. f_equal. lia.
    + assert (Hdiv : (n / 10 < 2 ^ N.of_nat (S f))%N).
      { apply N.Div0.div_lt_upper_bound.
        replace (N.of_nat (S (S f))) with (N.succ (N.of_nat (S f))) in Hn by lia.
        rewrite N.pow_succ_r' in Hn. lia. }
      destruct (IH (n / 10)%N (String (Str.digit_char (n mod 10)) acc) a Hdiv)
        as (k & Hk).
      assert (Hm : (n mod 10 < 10)%N) by (apply N.mod_lt; lia).
      destruct (digit_char_val _ Hm) as [Hd Hv].
      exists (N.succ k). rewrite Hk. simpl. rewrite Hd, Hv. f_equal.
      rewrite N.pow_succ_r'.
      pose proof (N.Div0.div_mod n 10) as Hdm. lia.
Qed.

Lemma utoa_fuel n : (n < 2 ^ N.of_nat (S (N.to_nat (N.log2 n))))%N.
Proof.
  replace (N.of_nat (S (N.to_nat (N.log2 n)))) with (N.succ (N.log2 n)) by lia.
  destruct (N.eq_dec n 0%N) as [-> | Hn]; [reflexivity|].
  apply N.log2_spec. lia.
Qed.

Lemma digits_val_utoa n : Str.digits_val (Str.utoa n) 0%N = n.
Proof.
  unfold Str.utoa.
  destruct (digits_val_utoa_go _ n "" 0%N (utoa_fuel n)) as (k & ->).
  simpl. lia.
Qed.

Lemma utoa_go_digits f : forall n acc,
  all_digits acc -> all_digits (Str.utoa_go f n acc).
Proof.
  induction f as [|f IH]; intros n acc H; simpl; [exact H|].
  assert (Hm : (n mod 10 < 10)%N) by (apply N.mod_lt; lia).
  destruct (digit_char_val _ Hm) as [Hd _].
  destruct (n <? 10)%N; [now split | apply IH; now split].
Qed.

Lemma utoa_go_len f : forall n acc,
  Str.len acc <= Str.len (Str.utoa_go f n acc)
  /\ Str.len (Str.utoa_go f n acc) <= f + Str.len acc.
Proof.
  induction f as [|f IH]; intros n acc; simpl; [lia|].
  destruct (n <? 10)%N.
  - rewrite len_cons. lia.
  - destruct (IH (n / 10)%N (String (Str.digit_char (n mod 10)) acc)) as [H1 H2].
    rewrite len_cons in *. lia.
Qed.

Lemma utoa_digits n : all_digits (Str.utoa n).
Proof. apply utoa_go_digits. exact I. Qed.

Lemma utoa_nonempty n : Str.utoa n <> "".
Proof.
  unfold Str.utoa. simpl.
  destruct (n <? 10)%N; [discriminate|].
  intros E.
  destruct (utoa_go_len (N.to_nat (N.log2 n)) (n / 10)%N
              (String (Str.digit_char (n mod 10)) "")) as [H _].
  rewrite E in H. rewrite len_cons in H. unfold Str.len in H. simpl in H. lia.
Qed.

(** The digits of a number below 2^w are at most w. *)
Lemma utoa_len n w :
  (n < 2 ^ N.of_nat w)%N -> 0 < w -> Str.len (Str.utoa n) <= w.
Proof.
  intros Hn Hw. unfold Str.utoa.
  destruct (utoa_go_len (S (N.to_nat (N.log2 n))) n "") as [_ H].
  change (Str.len "") with 0 in H.
  destruct (N.eq_dec n 0%N) as [-> | Hz]; [simpl in *; lia|].
  assert (N.log2 n < N.of_nat w)%N by (apply N.log2_lt_pow2; lia).
  lia.
Qed.

Lemma atoi_utoa n : (n < 2 ^ 32)%N -> Str.atoi (Str.utoa n) = n.
Proof.
  intros Hn. unfold Str.atoi.
  pose proof (utoa_digits n) as Hd. pose proof (digits_val_utoa n) as Hv.
  pose proof (utoa_nonempty n) as Hne.
  destruct (Str.utoa n) as [|c s]; [contradiction|].
  destruct Hd as [Hc _].
  assert (Hsp : Ascii.is_space c = false).
  { unfold Str.is_digit in Hc. apply andb_true_iff in Hc as [H1 H2].
    apply N.leb_le in H1, H2.
    destruct c as [[] [] [] [] [] [] [] []]; try reflexivity;
      simpl in H1, H2; lia. }
  assert (Hsg : Str.sign (String c s) = (false, String c s)).
  { unfold Str.is_digit in Hc. apply andb_true_iff in Hc as [H1 H2].
    apply N.leb_le in H1, H2.
    destruct c as [[] [] [] [] [] [] [] []]; try reflexivity;
      simpl in H1, H2; lia. }
  simpl. rewrite Hsp, Hsg, Hv.
  assert (2 ^ 32 = 4294967296)%N by reflexivity.
  rewrite Z.min_l by lia.
  rewrite Z.mod_small by lia. lia.
Qed.

End Decimal.

(** ** The mode delta *)

Section DeltaFacts.

Context `{K : Consts}.

Lemma tab_walk_fold tab a b : forall st,
  tab_walk tab a b st = fold_left Raw.putc (map letter (selected tab a b)) st.
Proof.
  induction tab as [|t tab IH]; intros st; simpl; [reflexivity|].
  destruct (Ascii.eqb (letter t) Str.NUL); [reflexivity|].
  rewrite IH, map_app, fold_left_app.
  now destruct (nonzero (cm_mode t) && _ && _).
Qed.

Lemma selected_in tab a b t :
  In t (selected tab a b) ->
  In t (tab_entries tab) /\ cm_mode t <> 0%N
  /\ N.land (cm_mode t) a <> 0%N /\ N.land (cm_mode t) b = 0%N
  /\ letter t <> Str.NUL.
Proof.
  induction tab as [|u tab IH]; simpl; [contradiction|].
  destruct (Ascii.eqb_spec (letter u) Str.NUL) as [|Hn]; [contradiction|].
  rewrite in_app_iff. intros [H | H].
  - destruct (nonzero (cm_mode u)) eqn:E1; [|contradiction].
    destruct (nonzero (N.land (cm_mode u) a)) eqn:E2; [|contradiction].
    destruct (nonzero (N.land (cm_mode u) b)) eqn:E3; [contradiction|].
    simpl in H. destruct H as [<- | []].
    unfold nonzero in *.
    apply negb_true_iff, N.eqb_neq in E1.
    apply negb_true_iff, N.eqb_neq in E2.
    apply negb_false_iff, N.eqb_eq in E3.
    repeat split; auto. now left.
  - destruct (IH H) as (? & ? & ? & ? & ?). repeat split; auto. now right.
Qed.

Lemma in_selected tab a b t :
  In t (tab_entries tab) -> cm_mode t <> 0%N ->
  N.land (cm_mode t) a <> 0%N -> N.land (cm_mode t) b = 0%N ->
  In t (selected tab a b).
Proof.
  intros Hin H0 Ha Hb. induction tab as [|u tab IH]; simpl in *;
    [contradiction|].
  destruct (Ascii.eqb (letter u) Str.NUL); [contradiction|].
  rewrite in_app_iff. destruct Hin as [-> | Hin]; [left | right; auto].
  unfold nonzero.
  apply N.eqb_neq in H0, Ha. apply N.eqb_eq in Hb.
  rewrite H0, Ha, Hb. simpl. now left.
Qed.

Lemma selected_same tab a : selected tab a a = [].
Proof.
  induction tab as [|t tab IH]; simpl; [reflexivity|].
  destruct (Ascii.eqb (letter t) Str.NUL); [reflexivity|].
  rewrite IH, app_nil_r.
  destruct (nonzero (cm_mode t)); simpl; [|reflexivity].
  now destruct (nonzero (N.land (cm_mode t) a)).
Qed.

Lemma set_final_mode_fst mode oldmode buf pin :
  fst (set_final_mode mode oldmode buf pin)
  = fst (final_mode_cursor mode oldmode buf).
Proof.
  unfold set_final_mode, final_mode_cursor, removed_letters, added_letters.
  rewrite !tab_walk_fold.
  destruct (nonzero (Mode.limit oldmode) && _);
    destruct (negb (Str.is_empty (Mode.key oldmode)) && _);
    destruct (nonzero (Mode.limit mode) && _);
    destruct (negb (Str.is_empty (Mode.key mode)) && _);
    simpl; rewrite ?tab_walk_fold, ?fold_left_app, ?app_nil_r; simpl;
    reflexivity.
Qed.

Lemma set_final_mode_snd mode oldmode buf pin :
  snd (set_final_mode mode oldmode buf pin)
  = if delta_params mode oldmode is [] then pin
    else Str.trailed (delta_params mode oldmode).
Proof.
  unfold set_final_mode, delta_params.
  destruct (negb (Str.is_empty (Mode.key oldmode)) && _);
    destruct (nonzero (Mode.limit mode) && _);
    destruct (negb (Str.is_empty (Mode.key mode)) && _);
    cbn [fst snd app Str.trailed fold_right];
    rewrite ?is_empty_app; cbn [Str.is_empty];
    rewrite ?andb_false_r, ?app_assoc_s, ?app_empty_r, ?app_empty_l;
    reflexivity.
Qed.

Lemma close_sign_open st w :
  written st ("-"%char :: w) -> Forall (fun c => c <> "-"%char) w ->
  written (close_sign st "-" "+" true)
          (if w is [] then ["+"%char] else "-"%char :: w ++ ["+"%char]).
Proof.
  intros Hw Hf. unfold close_sign.
  destruct w as [|a w'].
  - destruct (written_last st [] "-"%char Hw) as (Hs & _ & Hp).
    rewrite Hs. simpl in *. rewrite Hp. simpl.
    now destruct (fst st).
  - destruct (exists_last (l := a :: w')) as (v & x & E); [discriminate|].
    rewrite E in *.
    change ("-"%char :: v ++ [x]) with (("-"%char :: v) ++ [x]) in Hw.
    destruct (written_last st _ x Hw) as (Hs & _ & Hp).
    rewrite Hs. cbn [pred]. rewrite Hp.
    apply Forall_app in Hf as [_ Hx]. apply Forall_inv in Hx.
    destruct (Ascii.eqb_spec x "-"); [contradiction|].
    rewrite <- Hs.
    change (written (Raw.putc st "+") ((("-"%char :: v) ++ [x]) ++ ["+"%char])).
    now apply written_putc.
Qed.

Lemma close_sign_end st v x :
  written st (v ++ [x]) -> Forall (fun c => c <> Str.NUL) (v ++ [x]) ->
  Raw.cstr (fst (close_sign st "+" Str.NUL false))
  = string_of_list_ascii (if Ascii.eqb x "+" then v else v ++ [x]).
Proof.
  intros Hw Hf. unfold close_sign.
  destruct (written_last st v x Hw) as (Hs & Hv & Hp).
  rewrite Hs. cbn [pred]. rewrite Hp.
  destruct (Ascii.eqb x "+"); cbn [fst].
  - apply Forall_app in Hf as [Hf _].
    exact (written_cstr (fst st, length v) v Hv Hf).
  - rewrite <- Hs. now apply written_cstr.
Qed.

(** The C string [set_final_mode] leaves in [modebuf] is the delta: the
    removed letters behind a [-], the added letters behind a [+], and no
    sign for a side that is empty. *)
Lemma set_final_mode_cstr mode oldmode buf pin :
  Forall (fun c => c <> Str.NUL /\ c <> "+"%char /\ c <> "-"%char)
         (removed_letters mode oldmode ++ added_letters mode oldmode) ->
  Raw.cstr (fst (set_final_mode mode oldmode buf pin))
  = string_of_list_ascii (delta_letters mode oldmode).
Proof.
  intros Hf. rewrite set_final_mode_fst. unfold final_mode_cursor, delta_letters.
  apply Forall_app in Hf as [Hr Ha].
  set (rm := removed_letters mode oldmode) in *.
  set (ad := added_letters mode oldmode) in *.
  assert (H1 : written (fold_left Raw.putc ("-"%char :: rm) (buf, 0))
                       ("-"%char :: rm))
    by exact (written_fold _ _ _ (written_start buf)).
  apply close_sign_open in H1;
    [|eapply Forall_impl; [exact Hr | now intros c (_ & _ & ?)]].
  set (w1 := if rm is [] then ["+"%char] else "-"%char :: rm ++ ["+"%char])
    in *.
  assert (E1 : w1 = (if rm is [] then [] else "-"%char :: rm) ++ ["+"%char])
    by (unfold w1; now destruct rm).
  assert (N1 : Forall (fun c => c <> Str.NUL)
                      (if rm is [] then [] else "-"%char :: rm)).
  { destruct rm; constructor; [discriminate|].
    eapply Forall_impl; [exact Hr | now intros c (? & _)]. }
  pose proof (written_fold ad _ _ H1) as H2.
  destruct ad as [|a ad'] eqn:Ead.
  - rewrite app_nil_r in *. rewrite E1 in H2.
    rewrite (close_sign_end _ _ _ H2).
    + reflexivity.
    + apply Forall_app. split; [exact N1 | repeat constructor; discriminate].
  - destruct (exists_last (l := a :: ad')) as (v & x & E); [discriminate|].
    rewrite E in *. rewrite app_assoc in H2.
    apply Forall_app in Ha as [Hv Hx]. apply Forall_inv in Hx.
    destruct Hx as (Hx0 & Hx1 & _).
    rewrite (close_sign_end _ _ _ H2).
    + destruct (Ascii.eqb_spec x "+"); [contradiction|].
      rewrite E1, <- !app_assoc. reflexivity.
    + rewrite E1, <- !app_assoc. apply Forall_app. split; [exact N1|].
      constructor; [discriminate|]. apply Forall_app. split.
      * eapply Forall_impl; [exact Hv | now intros c (? & _)].
      * now repeat constructor.
Qed.

Lemma strcmp_refl s : Str.strcmp s s = 0%Z.
Proof.
  induction s as [|c s IH]; simpl; [reflexivity|].
  now rewrite Ascii.eqb_refl.
Qed.

(** The delta from a mode to itself is empty. *)
Lemma delta_same M :
  removed_letters M M = [] /\ added_letters M M = [] /\ delta_params M M = [].
Proof.
  unfold removed_letters, added_letters, delta_params.
  rewrite selected_same, strcmp_refl, N.eqb_refl. simpl.
  rewrite !andb_false_r.
  assert (E1 : nonzero (Mode.limit M) && (Mode.limit M =? 0)%N = false)
    by (unfold nonzero; now destruct (Mode.limit M =? 0)%N).
  assert (E2 : negb (Str.is_empty (Mode.key M)) && Str.is_empty (Mode.key M)
               = false) by now destruct (Str.is_empty (Mode.key M)).
  now rewrite E1, E2.
Qed.

(** *** The parameters of a delta, read back *)

Lemma uid_tokens_word p : forall rest cur,
  no_blank p ->
  uid_tokens (p +:+ " " +:+ rest) cur
  = (if Str.is_empty (cur +:+ p) then [] else [cur +:+ p])
    ++ uid_tokens rest "".
Proof.
  induction p as [|c p IH]; intros rest cur Hp.
  - rewrite app_empty_l, app_empty_r. reflexivity.
  - destruct Hp as [Hc Hp]. rewrite app_cons. simpl.
    destruct (Ascii.eqb_spec c " "); [contradiction|].
    rewrite IH by exact Hp. now rewrite app_assoc_s.
Qed.

Lemma tokens_trailed ps :
  Forall (fun p => p <> "" /\ no_blank p) ps ->
  uid_tokens (Str.trailed ps) "" = ps.
Proof.
  induction 1 as [|p ps [Hne Hb] _ IH]; [reflexivity|].
  simpl. rewrite uid_tokens_word by exact Hb. rewrite app_empty_l, IH.
  destruct p; [contradiction | reflexivity].
Qed.

Lemma key_ok_no_blank s : key_ok s -> no_blank s.
Proof. induction s as [|c s IH]; simpl; [auto|]. intros (_ & ? & ?). auto. Qed.

Lemma key_ok_cstring s : key_ok s -> cstring s.
Proof. induction s as [|c s IH]; simpl; [auto|]. intros (? & _ & ?). auto. Qed.

Lemma all_digits_no_blank s : all_digits s -> no_blank s.
Proof.
  induction s as [|c s IH]; simpl; [auto|]. intros [Hc Hs]. split; [|auto].
  intros ->. discriminate.
Qed.

Lemma strcmp_eq s : forall t,
  cstring s -> cstring t -> Str.strcmp s t = 0%Z -> s = t.
Proof.
  induction s as [|c s IH]; intros [|d t] Hs Ht H; simpl in *.
  - reflexivity.
  - destruct Ht as [Hd _]. exfalso. apply Hd.
    rewrite <- (ascii_N_embedding d).
    assert (N_of_ascii d = 0%N) as -> by lia. reflexivity.
  - destruct Hs as [Hc _]. exfalso. apply Hc.
    rewrite <- (ascii_N_embedding c).
    assert (N_of_ascii c = 0%N) as -> by lia. reflexivity.
  - destruct (Ascii.eqb_spec c d) as [-> | Hne].
    + f_equal. apply IH; tauto.
    + exfalso. apply Hne.
      rewrite <- (ascii_N_embedding c), <- (ascii_N_embedding d).
      f_equal. lia.
Qed.

(** *** The flag bits of a delta, applied *)

Lemma testbit_fold_ldiff es n : forall f,
  N.testbit (fold_left (fun f t => N.ldiff f (cm_mode t)) es f) n
  = N.testbit f n && negb (existsb (fun t => N.testbit (cm_mode t) n) es).
Proof.
  induction es as [|t es IH]; intros f; simpl; [now rewrite andb_true_r|].
  rewrite IH, N.ldiff_spec, negb_orb. now rewrite andb_assoc.
Qed.

Lemma testbit_fold_lor es n : forall f,
  N.testbit (fold_left (fun f t => N.lor f (cm_mode t)) es f) n
  = N.testbit f n || existsb (fun t => N.testbit (cm_mode t) n) es.
Proof.
  induction es as [|t es IH]; intros f; simpl; [now rewrite orb_false_r|].
  rewrite IH, N.lor_spec. now rewrite orb_assoc.
Qed.

Lemma land_pow2 m n :
  N.land (2 ^ n) m = if N.testbit m n then (2 ^ n)%N else 0%N.
Proof.
  apply N.bits_inj. intros i. rewrite N.land_spec, N.pow2_bits_eqb.
  destruct (N.eqb_spec n i) as [-> | Hne]; simpl.
  - destruct (N.testbit m i); [|now rewrite N.bits_0].
    now rewrite N.pow2_bits_eqb, N.eqb_refl.
  - destruct (N.testbit m n); [|now rewrite N.bits_0].
    rewrite N.pow2_bits_eqb. symmetry. now apply N.eqb_neq.
Qed.

Lemma pow2_nonzero n : (2 ^ n)%N <> 0%N.
Proof. apply N.pow_nonzero. discriminate. Qed.

(** Clearing the removed bits and setting the added ones turns the old
    flags into the new ones. *)
Lemma flags_round_trip old new :
  tab_wf -> recognized old -> recognized new ->
  fold_left (fun f t => N.lor f (cm_mode t)) (selected cmode_tab new old)
    (fold_left (fun f t => N.ldiff f (cm_mode t)) (selected cmode_tab old new)
               old)
  = new.
Proof.
  intros Hwf Ho Hn. apply N.bits_inj. intros n.
  rewrite testbit_fold_lor, testbit_fold_ldiff.
  destruct (existsb _ (selected cmode_tab new old)) eqn:EA.
  - rewrite orb_true_r.
    apply existsb_exists in EA as (t & Hin & Hb).
    apply selected_in in Hin as (Hent & H0 & Ha & _ & _).
    destruct (Hwf t Hent H0) as ((k & Hk) & _).
    rewrite Hk in *. rewrite N.pow2_bits_eqb in Hb.
    apply N.eqb_eq in Hb. subst k. rewrite land_pow2 in Ha.
    destruct (N.testbit new n); [reflexivity | contradiction].
  - rewrite orb_false_r.
    destruct (existsb _ (selected cmode_tab old new)) eqn:ER.
    + rewrite andb_false_r.
      apply existsb_exists in ER as (t & Hin & Hb).
      apply selected_in in Hin as (Hent & H0 & _ & Hz & _).
      destruct (Hwf t Hent H0) as ((k & Hk) & _).
      rewrite Hk in *. rewrite N.pow2_bits_eqb in Hb.
      apply N.eqb_eq in Hb. subst k. rewrite land_pow2 in Hz.
      destruct (N.testbit new n); [|reflexivity].
      now apply pow2_nonzero in Hz.
    + rewrite andb_true_r.
      destruct (N.testbit old n) eqn:Eo, (N.testbit new n) eqn:En;
        try reflexivity; exfalso.
      * destruct (Ho n Eo) as (t & Hent & Hk).
        assert (Hin : In t (selected cmode_tab old new)).
        { apply in_selected; [exact Hent | | |]; rewrite Hk.
          - apply pow2_nonzero.
          - rewrite land_pow2, Eo. apply pow2_nonzero.
          - now rewrite land_pow2, En. }
        assert (existsb (fun t => N.testbit (cm_mode t) n)
                        (selected cmode_tab old new) = true).
        { apply existsb_exists. exists t. split; [exact Hin|].
          now rewrite Hk, N.pow2_bits_eqb, N.eqb_refl. }
        congruence.
      * destruct (Hn n En) as (t & Hent & Hk).
        assert (Hin : In t (selected cmode_tab new old)).
        { apply in_selected; [exact Hent | | |]; rewrite Hk.
          - apply pow2_nonzero.
          - rewrite land_pow2, En. apply pow2_nonzero.
          - now rewrite land_pow2, Eo. }
        assert (existsb (fun t => N.testbit (cm_mode t) n)
                        (selected cmode_tab new old) = true).
        { apply existsb_exists. exists t. split; [exact Hin|].
          now rewrite Hk, N.pow2_bits_eqb, N.eqb_refl. }
        congruence.
Qed.

(** *** The letters of a delta, applied *)

Lemma fold_flag_letters (plus : bool) es : forall ps m,
  (forall t, In t es ->
     letter t <> "+"%char /\ letter t <> "-"%char
     /\ letter t <> "k"%char /\ letter t <> "l"%char
     /\ (exists t', cmode_map (letter t) = Some t' /\ cm_mode t' = cm_mode t)) ->
  fold_left delta_step (map letter es) (plus, ps, m)
  = (plus, ps,
     Mode.mk (fold_left (fun f t => if plus then N.lor f (cm_mode t)
                                    else N.ldiff f (cm_mode t))
                        es (Mode.mode m))
             (Mode.limit m) (Mode.key m)).
Proof.
  induction es as [|t es IH]; intros ps m H; simpl; [now destruct m|].
  destruct (H t (or_introl eq_refl)) as (H1 & H2 & H3 & H4 & t' & Hm & Hc).
  unfold delta_step at 1.
  destruct (Ascii.eqb_spec (letter t) "+"); [contradiction|].
  destruct (Ascii.eqb_spec (letter t) "-"); [contradiction|].
  destruct (Ascii.eqb_spec (letter t) "k"); [contradiction|].
  destruct (Ascii.eqb_spec (letter t) "l"); [contradiction|].
  rewrite Hm, Hc. rewrite IH by (intros u Hu; apply H; now right).
  reflexivity.
Qed.

Lemma selected_plain a b t :
  tab_wf -> In t (selected cmode_tab a b) ->
  letter t <> "+"%char /\ letter t <> "-"%char
  /\ letter t <> "k"%char /\ letter t <> "l"%char
  /\ (exists t', cmode_map (letter t) = Some t' /\ cm_mode t' = cm_mode t).
Proof.
  intros Hwf Hin. apply selected_in in Hin as (Hent & H0 & _).
  destruct (Hwf t Hent H0) as (_ & ? & ? & ? & ? & ?). auto.
Qed.

Lemma delta_letters_plain mode oldmode :
  tab_wf ->
  Forall (fun c => c <> Str.NUL /\ c <> "+"%char /\ c <> "-"%char)
         (removed_letters mode oldmode ++ added_letters mode oldmode).
Proof.
  intros Hwf. unfold removed_letters, added_letters.
  assert (Hs : forall a b,
             Forall (fun c => c <> Str.NUL /\ c <> "+"%char /\ c <> "-"%char)
                    (map letter (selected cmode_tab a b))).
  { intros a b. apply List.Forall_forall. intros c Hc.
    apply in_map_iff in Hc as (t & <- & Hin).
    destruct (selected_plain a b t Hwf Hin) as (? & ? & _).
    apply selected_in in Hin as (_ & _ & _ & _ & ?). auto. }
  rewrite !Forall_app. repeat split; auto;
    match goal with
    | |- Forall _ (if ?b then _ else _) =>
        destruct b; repeat constructor; discriminate
    end.
Qed.

Lemma rm_part_fold l ps m :
  snd (fold_left delta_step (if l is [] then [] else "-"%char :: l) (true, ps, m))
  = snd (fold_left delta_step l (false, ps, m))
  /\ snd (fst (fold_left delta_step (if l is [] then [] else "-"%char :: l)
                         (true, ps, m)))
     = snd (fst (fold_left delta_step l (false, ps, m))).
Proof. destruct l; simpl; auto. Qed.

Lemma ad_part_fold l st :
  snd (fold_left delta_step (if l is [] then [] else "+"%char :: l) st)
  = snd (fold_left delta_step l (true, snd (fst st), snd st)).
Proof. destruct st as [[d ps] m]. destruct l; simpl; auto. Qed.

Lemma delta_params_ok mode oldmode :
  key_ok (Mode.key oldmode) -> key_ok (Mode.key mode) ->
  Forall (fun p => p <> "" /\ no_blank p) (delta_params mode oldmode).
Proof.
  intros Ko Kn. unfold delta_params. rewrite !Forall_app. repeat split.
  - destruct (negb (Str.is_empty (Mode.key oldmode)) && _) eqn:E;
      constructor; [|constructor].
    apply andb_true_iff in E as [E _]. apply negb_true_iff in E.
    split; [|now apply key_ok_no_blank]. intros H. now rewrite H in E.
  - destruct (nonzero (Mode.limit mode) && _); constructor; [|constructor].
    split; [apply utoa_nonempty | apply all_digits_no_blank, utoa_digits].
  - destruct (negb (Str.is_empty (Mode.key mode)) && _) eqn:E;
      constructor; [|constructor].
    apply andb_true_iff in E as [E _]. apply negb_true_iff in E.
    split; [|now apply key_ok_no_blank]. intros H. now rewrite H in E.
Qed.

Lemma limit_settled (ol nl : N) :
  nonzero nl && negb (ol =? nl)%N = false ->
  (if nonzero ol && (nl =? 0)%N then 0%N else ol) = nl.
Proof.
  unfold nonzero.
  destruct (N.eqb_spec nl 0), (N.eqb_spec ol nl), (N.eqb_spec ol 0);
    simpl; intros; subst; try congruence; try discriminate.
Qed.

Lemma key_settled (ok nk : string) :
  cstring ok -> cstring nk ->
  negb (Str.is_empty nk) && negb (Str.strcmp ok nk =? 0)%Z = false ->
  (if negb (Str.is_empty ok) && Str.is_empty nk then "" else ok) = nk.
Proof.
  intros Ho Hn H.
  destruct nk as [|c nk]; simpl in *.
  - rewrite andb_true_r. now destruct ok.
  - rewrite andb_false_r.
    destruct (Z.eqb_spec (Str.strcmp ok (String c nk)) 0) as [E|];
      [|discriminate].
    now apply strcmp_eq.
Qed.

(** C5. The delta from a mode to itself is empty: [set_final_mode] leaves
    no letter in [modebuf] and writes no parameter. And for a table of
    simple flags and two modes of the data model, the delta from the old
    mode to the new one, applied to the old mode, gives the new mode. *)
Theorem mode_delta_round_trip :
  (forall M modebuf parabuf,
      Raw.cstr (fst (set_final_mode M M modebuf parabuf)) = ""
      /\ snd (set_final_mode M M modebuf parabuf) = parabuf)
  /\ (tab_wf ->
      forall oldmode mode modebuf parabuf,
        mode_ok oldmode -> mode_ok mode ->
        apply_delta oldmode
          (Raw.cstr (fst (set_final_mode mode oldmode modebuf parabuf)))
          (snd (set_final_mode mode oldmode modebuf parabuf))
        = mode).
Proof.
  split.
  - intros M modebuf parabuf.
    destruct (delta_same M) as (Hr & Ha & Hp).
    rewrite set_final_mode_snd, Hp. split; [|reflexivity].
    rewrite set_final_mode_cstr; [|rewrite Hr, Ha; constructor].
    unfold delta_letters. now rewrite Hr, Ha.
  - intros Hwf old new buf pin (Ro & Lo & Ko) (Rn & Ln & Kn).
    rewrite set_final_mode_cstr by now apply delta_letters_plain.
    rewrite set_final_mode_snd.
    unfold apply_delta. rewrite list_ascii_of_string_of_list_ascii.
    unfold delta_letters. rewrite fold_left_app, ad_part_fold.
    set (ps := uid_tokens _ "").
    destruct (rm_part_fold (removed_letters new old) ps old) as [Hm Hps].
    rewrite Hm, Hps. clear Hm Hps.
    assert (Hps : delta_params new old <> [] -> ps = delta_params new old).
    { intros Hne. unfold ps.
      destruct (delta_params new old) eqn:E; [contradiction|].
      rewrite <- E. apply tokens_trailed. now apply delta_params_ok. }
    clearbody ps.
    pose proof (limit_settled (Mode.limit old) (Mode.limit new)) as HL.
    pose proof (key_settled (Mode.key old) (Mode.key new)
                            (key_ok_cstring _ Ko) (key_ok_cstring _ Kn)) as HK.
    pose proof (atoi_utoa (Mode.limit new) Ln) as HA.
    pose proof (flags_round_trip (Mode.mode old) (Mode.mode new) Hwf Ro Rn)
      as HF.
    unfold removed_letters, added_letters, delta_params in *.
    rewrite !fold_left_app.
    rewrite (fold_flag_letters false) by (intros t; now apply selected_plain).
    set (c1 := nonzero (Mode.limit old) && (Mode.limit new =? 0)%N) in *.
    set (c2 := negb (Str.is_empty (Mode.key old))
               && Str.is_empty (Mode.key new)) in *.
    set (c3 := nonzero (Mode.limit new)
               && negb (Mode.limit old =? Mode.limit new)%N) in *.
    set (c4 := negb (Str.is_empty (Mode.key new))
               && negb (Str.strcmp (Mode.key old) (Mode.key new) =? 0)%Z) in *.
    destruct new as [nm nl nk]. cbn [Mode.mode Mode.limit Mode.key] in *.
    destruct c2, c3, c4; cbn [app] in Hps;
      try (rewrite Hps by discriminate); clear Hps;
      destruct c1; cbn [fold_left delta_step Ascii.eqb Bool.eqb fst snd
                        hd tail Mode.mode Mode.limit Mode.key];
      rewrite (fold_flag_letters true) by (intros t; now apply selected_plain);
      cbn [fst snd Mode.mode Mode.limit Mode.key fold_left delta_step
           Ascii.eqb Bool.eqb hd tail];
      rewrite HF; f_equal;
      try (symmetry; exact HA); try reflexivity;
      try (specialize (HL eq_refl)); try (specialize (HK eq_refl));
      try exact HL; try exact HK; try congruence.
Qed.

Lemma recognized_0 : recognized 0.
Proof. intros n H. now rewrite N.bits_0 in H. Qed.

Lemma recognized_lor a b : recognized a -> recognized b -> recognized (N.lor a b).
Proof.
  intros Ha Hb n H. rewrite N.lor_spec in H.
  apply orb_true_iff in H as [H | H]; auto.
Qed.

Lemma recognized_bit t k :
  In t (tab_entries cmode_tab) -> cm_mode t = (2 ^ k)%N -> recognized (2 ^ k).
Proof.
  intros Hin Hk n H. rewrite N.pow2_bits_eqb in H. apply N.eqb_eq in H.
  subst n. eauto.
Qed.

End DeltaFacts.

(** ** The length of the lines *)

Section Lengths.

Context `{K : Consts} (Z : Sizes).

Lemma len_spaced l n :
  Forall (fun p => Str.len p <= n) l ->
  Str.len (Str.spaced l) <= length l * (1 + n).
Proof.
  induction 1 as [|p l Hp _ IH]; simpl; [reflexivity|].
  rewrite !len_app. change (Str.len " ") with 1. lia.
Qed.

Lemma trailed_app a b : Str.trailed (a ++ b) = Str.trailed a +:+ Str.trailed b.
Proof.
  induction a as [|p a IH]; simpl; [reflexivity|].
  now rewrite IH, !app_assoc_s.
Qed.

Lemma len_trailed_snoc l p :
  Str.len (Str.trailed (l ++ [p])) = Str.len (Str.trailed l) + Str.len p + 1.
Proof.
  rewrite trailed_app, len_app. simpl. rewrite !len_app.
  change (Str.len " ") with 1. change (Str.len "") with 0. lia.
Qed.

Lemma wire_status_len o c m p :
  Str.len (wire (LocalModeStatus o c m p))
  = 8 + Str.len o + Str.len c + Str.len m + Str.len (Str.spaced p).
Proof.
  simpl. rewrite !len_app.
  change (Str.len ":") with 1. change (Str.len " MODE ") with 6.
  change (Str.len " ") with 1. lia.
Qed.

Lemma wire_delta_len o c m p :
  Str.len (wire (LocalModeDelta o c m p))
  = 9 + Str.len o + Str.len c + Str.len m + Str.len p.
Proof.
  simpl. rewrite !len_app.
  change (Str.len ":") with 1. change (Str.len " MODE ") with 6.
  change (Str.len " ") with 1. lia.
Qed.

Lemma wire_bans_len h l m :
  Str.len (wire (LocalModeBans h l m))
  = Str.len h + Str.len l + 1 + pred (Str.len (Str.trailed m)).
Proof.
  simpl. rewrite !len_app, len_chop. change (Str.len " ") with 1. lia.
Qed.

Lemma firstn_Forall {A : Type} (P : A -> Prop) n (l : list A) :
  Forall P l -> Forall P (firstn n l).
Proof.
  intros H. revert n. induction H; intros [|n]; simpl; constructor; auto.
Qed.

(** A MODE line with a sign, at most MAXMODEPARAMS + 1 letters and at most
    MAXMODEPARAMS nicks fits. *)
Lemma status_line_fits o c m p :
  sizes_fit Z ->
  Str.len o <= HOSTLEN Z -> Str.len c <= CHANNELLEN ->
  Str.len m <= MAXMODEPARAMS + 2 ->
  Forall (fun n => Str.len n <= NICKLEN Z) p ->
  line_fits (LocalModeStatus o c m (firstn MAXMODEPARAMS p)).
Proof.
  intros (_ & K1 & _) Ho Hc Hm Hp. unfold line_fits.
  rewrite wire_status_len.
  pose proof (len_spaced (firstn MAXMODEPARAMS p) (NICKLEN Z)
                         (firstn_Forall _ _ _ Hp)) as Hs.
  rewrite length_take in Hs.
  assert (Nat.min MAXMODEPARAMS (length p) * (1 + NICKLEN Z)
          <= MAXMODEPARAMS * (1 + NICKLEN Z)) by (apply Nat.mul_le_mono_r; lia).
  lia.
Qed.

Lemma remove_a_mode_loop_fits origin chname mask flag
      (members : list Membership.t) :
  sizes_fit Z ->
  Str.len origin <= HOSTLEN Z -> Str.len chname <= CHANNELLEN ->
  Forall (fun m => Str.len (Client.name (Membership.client_p m)) <= NICKLEN Z)
         members ->
  forall lmodebuf lpara ms lmodebuf' lpara' out,
    Str.len lmodebuf = 1 + length lpara -> length lpara <= MAXMODEPARAMS ->
    Forall (fun n => Str.len n <= NICKLEN Z) lpara ->
    remove_a_mode_loop origin chname mask flag members lmodebuf lpara
    = (ms, (lmodebuf', lpara'), out) ->
    Forall line_fits out
    /\ Str.len lmodebuf' = 1 + length lpara'
    /\ length lpara' <= MAXMODEPARAMS
    /\ Forall (fun n => Str.len n <= NICKLEN Z) lpara'.
Proof.
  intros HK Ho Hc Hm.
  induction Hm as [|m members Hn _ IH]; intros lmodebuf lpara ms lmodebuf'
    lpara' out Hl Hle Hp; simpl.
  - intros [= <- <- <- <-]. auto.
  - destruct (N.land _ _ =? 0)%N.
    + destruct (remove_a_mode_loop _ _ _ _ members lmodebuf lpara)
        as [[ms0 [l0 p0]] out0] eqn:E.
      intros [= <- <- <- <-]. eapply IH; eauto.
    + assert (Hp' : Forall (fun n => Str.len n <= NICKLEN Z)
                           (lpara ++ [Client.name (Membership.client_p m)]))
        by (apply Forall_app; auto).
      assert (Hl' : Str.len (lmodebuf +:+ String flag "")
                    = 1 + length (lpara
                                  ++ [Client.name (Membership.client_p m)])).
      { rewrite len_app, length_app, Hl. simpl.
        change (Str.len (String flag "")) with 1. lia. }
      destruct (MAXMODEPARAMS <=? _) eqn:Hfull.
      * destruct (remove_a_mode_loop _ _ _ _ members "-" [])
          as [[ms0 [l0 p0]] out0] eqn:E.
        intros [= <- <- <- <-].
        apply IH in E as (Hf & Hrest); [|reflexivity|simpl; lia|constructor].
        split; [|exact Hrest]. constructor; [|exact Hf].
        apply status_line_fits; auto.
        rewrite Hl', length_app. simpl. lia.
      * apply Nat.leb_gt in Hfull.
        destruct (remove_a_mode_loop _ _ _ _ members _ _)
          as [[ms0 [l0 p0]] out0] eqn:E.
        intros [= <- <- <- <-].
        apply IH in E; [exact E | exact Hl' | lia | exact Hp'].
Qed.

Lemma origin_name_len w source_p :
  world_fits Z w source_p -> Str.len (origin_name w source_p) <= HOSTLEN Z.
Proof.
  intros (Hme & Hsrc & _). unfold origin_name.
  now destruct (Client.hidden source_p || hide_servers w).
Qed.

Lemma remove_a_mode_fits w chptr source_p mask flag :
  sizes_fit Z -> world_fits Z w source_p ->
  Str.len (Channel.name chptr) <= CHANNELLEN ->
  Forall (fun m => Str.len (Client.name (Membership.client_p m)) <= NICKLEN Z)
         (Channel.members chptr) ->
  Forall line_fits (snd (remove_a_mode w chptr source_p mask flag)).
Proof.
  intros HK Hw Hc Hm. unfold remove_a_mode.
  destruct (remove_a_mode_loop _ _ _ _ _ _ _) as [[ms [l p]] out] eqn:E.
  eapply remove_a_mode_loop_fits in E as (Hf & Hl & Hle & Hp); eauto;
    try (now apply origin_name_len); try (simpl; lia); try constructor.
  simpl. apply Forall_app. split; [exact Hf|].
  destruct (length p =? 0); constructor; [|constructor].
  rewrite <- (firstn_all2 (n := MAXMODEPARAMS) p) by exact Hle.
  apply status_line_fits; auto; [now apply origin_name_len | lia].
Qed.

Lemma strip_flags_names mask (ms : list Membership.t) :
  Forall (fun m => Str.len (Client.name (Membership.client_p m)) <= NICKLEN Z)
         ms ->
  Forall (fun m => Str.len (Client.name (Membership.client_p m)) <= NICKLEN Z)
         (map (strip_flags mask) ms).
Proof. induction 1; simpl; constructor; auto. Qed.

Lemma remove_our_modes_fits w chptr source_p :
  sizes_fit Z -> world_fits Z w source_p ->
  Str.len (Channel.name chptr) <= CHANNELLEN ->
  Forall (fun m => Str.len (Client.name (Membership.client_p m)) <= NICKLEN Z)
         (Channel.members chptr) ->
  Forall line_fits (snd (remove_our_modes w chptr source_p)).
Proof.
  intros HK Hw Hc Hm. unfold remove_our_modes.
  pose proof (remove_a_mode_fits w chptr source_p CHFL_CHANOP "o" HK Hw Hc Hm)
    as F1.
  pose proof (remove_a_mode_fst w chptr source_p CHFL_CHANOP "o") as E1.
  destruct (remove_a_mode w chptr source_p CHFL_CHANOP "o") as [c1 o1].
  simpl in E1, F1.
  assert (Hc1 : Str.len (Channel.name c1) <= CHANNELLEN)
    by (subst c1; now destruct chptr).
  assert (Hm1 : Forall (fun m => Str.len (Client.name (Membership.client_p m))
                                 <= NICKLEN Z) (Channel.members c1)).
  { subst c1. destruct chptr; simpl in *. now apply strip_flags_names. }
  pose proof (remove_a_mode_fits w c1 source_p CHFL_HALFOP "h" HK Hw Hc1 Hm1)
    as F2.
  pose proof (remove_a_mode_fst w c1 source_p CHFL_HALFOP "h") as E2.
  destruct (remove_a_mode w c1 source_p CHFL_HALFOP "h") as [c2 o2].
  simpl in E2, F2.
  assert (Hc2 : Str.len (Channel.name c2) <= CHANNELLEN)
    by (subst c2; now destruct c1).
  assert (Hm2 : Forall (fun m => Str.len (Client.name (Membership.client_p m))
                                 <= NICKLEN Z) (Channel.members c2)).
  { subst c2. destruct c1; simpl in *. now apply strip_flags_names. }
  pose proof (remove_a_mode_fits w c2 source_p CHFL_VOICE "v" HK Hw Hc2 Hm2)
    as F3.
  destruct (remove_a_mode w c2 source_p CHFL_VOICE "v") as [c3 o3].
  simpl in *. rewrite !Forall_app. auto.
Qed.

(** *** Removal lines *)

Lemma ban_mask_len b :
  ban_fits Z b -> Str.len (ban_mask b) = Ban.len b + 2.
Proof.
  intros [H _]. unfold ban_mask. rewrite !len_app.
  change (Str.len "!") with 1. change (Str.len "@") with 1. lia.
Qed.

Lemma removal_line_fits header letters masks cur_len :
  Str.len header + 3 <= IRCD_BUFSIZE ->
  cur_len = Str.len header + Str.len letters + Str.len (Str.trailed masks) ->
  Str.len letters = length masks ->
  cur_len + 2 <= IRCD_BUFSIZE ->
  line_fits (LocalModeBans header letters masks).
Proof.
  intros Hh Hc Hl Hle. unfold line_fits. rewrite wire_bans_len.
  destruct masks as [|m masks].
  - simpl in *. change (Str.len "") with 0. lia.
  - assert (1 <= Str.len (Str.trailed (m :: masks))).
    { simpl. rewrite !len_app. change (Str.len " ") with 1. lia. }
    lia.
Qed.

Lemma remove_ban_loop_fits header c (blist : list Ban.t) :
  Str.len header + BANLEN Z + 4 + 2 <= IRCD_BUFSIZE ->
  Forall (ban_fits Z) blist ->
  forall cur_len count letters masks rest letters' masks' out,
    cur_len = Str.len header + Str.len letters + Str.len (Str.trailed masks) ->
    Str.len letters = length masks ->
    cur_len + 2 <= IRCD_BUFSIZE ->
    remove_ban_loop header (Str.len header) c blist cur_len count letters masks
    = (rest, (letters', masks'), out) ->
    Forall line_fits out /\ line_fits (LocalModeBans header letters' masks').
Proof.
  intros Hh Hb.
  induction Hb as [|ban blist Hban _ IH]; intros cur_len count letters masks
    rest letters' masks' out Hc Hl Hle; simpl.
  - intros [= <- <- <- <-]. split; [constructor|].
    eapply removal_line_fits; eauto. lia.
  - destruct (remove_ban_loop _ _ _ blist _ _ _ _)
      as [[rest0 [l0 m0]] out0] eqn:E.
    intros [= <- <- <- <-].
    pose proof (ban_mask_len ban Hban) as Hmask. destruct Hban as [_ Hlen].
    destruct ((MAXMODEPARAMS <=? count) || _) eqn:Hfull.
    + apply IH in E as (Hf & Hlast).
      * split; [|exact Hlast]. simpl. constructor; [|exact Hf].
        eapply removal_line_fits; eauto. lia.
      * simpl. rewrite !len_app. change (Str.len "") with 0.
        change (Str.len (String c "")) with 1. change (Str.len " ") with 1.
        lia.
      * reflexivity.
      * lia.
    + apply orb_false_iff in Hfull as [_ Hfit]. apply Nat.ltb_ge in Hfit.
      apply IH in E as (Hf & Hlast).
      * split; [exact Hf | exact Hlast].
      * rewrite len_app, len_trailed_snoc.
        change (Str.len (String c "")) with 1. lia.
      * rewrite len_app, length_app. simpl.
        change (Str.len (String c "")) with 1. lia.
      * lia.
Qed.

Lemma remove_ban_list_fits w chptr source_p (blist : list Ban.t) c :
  sizes_fit Z -> world_fits Z w source_p ->
  Str.len (Channel.name chptr) <= CHANNELLEN ->
  Forall (ban_fits Z) blist ->
  Forall line_fits (snd (remove_ban_list chptr source_p blist c)).
Proof.
  intros (_ & _ & _ & K3) (_ & Hsrc & _) Hc Hb. unfold remove_ban_list.
  destruct (length blist =? 0); [constructor|].
  set (header := ":" +:+ Client.name source_p +:+ " MODE "
                 +:+ Channel.name chptr +:+ " -").
  assert (Hh : Str.len header + BANLEN Z + 4 + 2 <= IRCD_BUFSIZE).
  { unfold header. rewrite !len_app.
    change (Str.len ":") with 1. change (Str.len " MODE ") with 6.
    change (Str.len " -") with 2. lia. }
  destruct (remove_ban_loop _ _ _ _ _ _ _ _) as [[rest [l m]] out] eqn:E.
  apply remove_ban_loop_fits in E as (Hf & Hlast); auto.
  - simpl. apply Forall_app. split; [exact Hf | now constructor].
  - clearbody header. change (Str.len "") with 0.
    change (Str.len (Str.trailed [])) with 0. lia.
  - lia.
Qed.

Lemma lose_ts_fits w source_p isnew parv2 oldts newts chptr :
  sizes_fit Z -> world_fits Z w source_p -> channel_fits Z chptr ->
  Forall line_fits (snd (lose_ts w source_p isnew parv2 oldts newts chptr)).
Proof.
  intros HK Hw (Hn & _ & _ & _ & Hm & Hb & He & Hi). unfold lose_ts.
  set (c0 := if isnew then chptr else _).
  assert (Hn0 : Str.len (Channel.name c0) <= CHANNELLEN).
  { unfold c0. destruct isnew; [exact Hn|].
    destruct chptr; simpl. apply len_strlcpy. }
  assert (E0 : Channel.members c0 = Channel.members chptr
               /\ Channel.banlist c0 = Channel.banlist chptr
               /\ Channel.exceptlist c0 = Channel.exceptlist chptr
               /\ Channel.invexlist c0 = Channel.invexlist chptr)
    by (unfold c0; destruct isnew, chptr; auto).
  destruct E0 as (Em & Eb & Ee & Ei).
  pose proof (remove_our_modes_fits w c0 source_p HK Hw Hn0) as F1.
  rewrite Em in F1. specialize (F1 Hm).
  pose proof (remove_our_modes_fst w c0 source_p) as E1.
  destruct (remove_our_modes w c0 source_p) as [c1 o1]. simpl in E1, F1.
  assert (Hc1 : Channel.name c1 = Channel.name c0
                /\ Channel.banlist c1 = Channel.banlist c0
                /\ Channel.exceptlist c1 = Channel.exceptlist c0
                /\ Channel.invexlist c1 = Channel.invexlist c0)
    by (subst c1; destruct c0; auto).
  destruct Hc1 as (N1 & B1 & X1 & I1).
  assert (F2 : Forall line_fits
                 (snd (remove_ban_list c1 source_p (Channel.banlist c1) "b"))).
  { apply (remove_ban_list_fits w); auto; [now rewrite N1|].
    now rewrite B1, Eb. }
  destruct (remove_ban_list c1 source_p (Channel.banlist c1) "b") as [bl o2].
  set (c2 := Channel.set_lists c1 _ _ _).
  assert (F3 : Forall line_fits
                 (snd (remove_ban_list c2 source_p (Channel.exceptlist c2)
                                       "e"))).
  { apply (remove_ban_list_fits w); auto.
    - unfold c2. destruct c1; simpl in *. now rewrite N1.
    - unfold c2. destruct c1; simpl in *. now rewrite X1, Ee. }
  destruct (remove_ban_list c2 source_p (Channel.exceptlist c2) "e")
    as [el o3].
  set (c3 := Channel.set_lists c2 _ _ _).
  assert (F4 : Forall line_fits
                 (snd (remove_ban_list c3 source_p (Channel.invexlist c3)
                                       "I"))).
  { apply (remove_ban_list_fits w); auto.
    - unfold c3, c2. destruct c1; simpl in *. now rewrite N1.
    - unfold c3, c2. destruct c1; simpl in *. now rewrite I1, Ei. }
  destruct (remove_ban_list c3 source_p (Channel.invexlist c3) "I")
    as [il o4].
  simpl in *. rewrite !Forall_app. repeat split; auto;
    try destruct (negb _); repeat constructor.
Qed.

(** *** How far [modebuf] is written *)

Lemma fold_putc_snd l : forall st,
  snd (fold_left Raw.putc l st) = snd st + length l.
Proof.
  induction l as [|c l IH]; intros st; simpl; [lia|].
  rewrite IH. simpl. lia.
Qed.

Lemma fold_putc_len l : forall st,
  length (fst (fold_left Raw.putc l st))
  <= Nat.max (length (fst st)) (snd st + length l).
Proof.
  induction l as [|c l IH]; intros st; simpl; [lia|].
  etransitivity; [apply IH|]. simpl. rewrite length_poke. lia.
Qed.

Lemma close_sign_reach st sgn c adv :
  snd (close_sign st sgn c adv) <= S (snd st)
  /\ length (fst (close_sign st sgn c adv))
     <= Nat.max (length (fst st)) (S (snd st)).
Proof.
  unfold close_sign.
  destruct (Ascii.eqb _ _); simpl; rewrite length_poke.
  - lia.
  - destruct adv; lia.
Qed.

Lemma selected_len tab a b : length (selected tab a b) <= length tab.
Proof.
  induction tab as [|t tab IH]; simpl; [lia|].
  destruct (Ascii.eqb _ _); simpl; [lia|].
  rewrite length_app.
  destruct (nonzero (cm_mode t) && _ && _); simpl; lia.
Qed.

Lemma removed_letters_len mode oldmode :
  length (removed_letters mode oldmode) <= length cmode_tab + 2.
Proof.
  unfold removed_letters. rewrite !length_app, length_map.
  pose proof (selected_len cmode_tab (Mode.mode oldmode) (Mode.mode mode)).
  destruct (nonzero _ && _), (negb _ && _); simpl; lia.
Qed.

Lemma added_letters_len mode oldmode :
  length (added_letters mode oldmode) <= length cmode_tab + 2.
Proof.
  unfold added_letters. rewrite !length_app, length_map.
  pose proof (selected_len cmode_tab (Mode.mode mode) (Mode.mode oldmode)).
  destruct (nonzero _ && _), (negb _ && _); simpl; lia.
Qed.

Lemma set_final_mode_reach mode oldmode pin :
  length (fst (set_final_mode mode oldmode [] pin)) <= RAWLEN.
Proof.
  rewrite set_final_mode_fst. unfold final_mode_cursor.
  pose proof (removed_letters_len mode oldmode) as Hr.
  pose proof (added_letters_len mode oldmode) as Ha.
  set (s1 := fold_left Raw.putc ("-"%char :: removed_letters mode oldmode)
                       ([], 0)).
  assert (P1 : snd s1 = S (length (removed_letters mode oldmode)))
    by (unfold s1; rewrite fold_putc_snd; reflexivity).
  assert (L1 : length (fst s1) <= S (length (removed_letters mode oldmode))).
  { unfold s1. etransitivity; [apply fold_putc_len|]. simpl. lia. }
  destruct (close_sign_reach s1 "-" "+" true) as [P2 L2].
  set (s2 := close_sign s1 "-" "+" true) in *.
  set (s3 := fold_left Raw.putc (added_letters mode oldmode) s2).
  assert (P3 : snd s3 = snd s2 + length (added_letters mode oldmode))
    by (unfold s3; apply fold_putc_snd).
  pose proof (fold_putc_len (added_letters mode oldmode) s2) as L3.
  fold s3 in L3.
  destruct (close_sign_reach s3 "+" Str.NUL false) as [_ L4].
  change (length (fst (close_sign s3 "+" Str.NUL false)) <= RAWLEN).
  unfold RAWLEN. lia.
Qed.

Lemma set_final_mode_para mode oldmode buf :
  Str.len (Mode.key oldmode) <= KEYLEN -> Str.len (Mode.key mode) <= KEYLEN ->
  (Mode.limit mode < 2 ^ 32)%N ->
  Str.len (snd (set_final_mode mode oldmode buf "")) <= PARALEN.
Proof.
  intros Ho Hn Hl. rewrite set_final_mode_snd. unfold delta_params, PARALEN.
  pose proof (utoa_len (Mode.limit mode) 32 Hl) as Hu.
  destruct (negb (Str.is_empty (Mode.key oldmode)) && _);
    destruct (nonzero (Mode.limit mode) && _);
    destruct (negb (Str.is_empty (Mode.key mode)) && _);
    cbn [app Str.trailed fold_right];
    rewrite ?len_app; change (Str.len " ") with 1; change (Str.len "") with 0;
    lia.
Qed.

(** *** The lines of [remove_our_modes] *)

Lemma remove_a_mode_loop_status origin chname mask flag
      (members : list Membership.t) :
  forall lmodebuf lpara,
    Forall is_status
           (snd (remove_a_mode_loop origin chname mask flag members
                                    lmodebuf lpara)).
Proof.
  induction members as [|m members IH]; intros lmodebuf lpara; simpl;
    [constructor|].
  destruct (N.land _ _ =? 0)%N.
  - specialize (IH lmodebuf lpara).
    now destruct (remove_a_mode_loop _ _ _ _ members lmodebuf lpara)
      as [[ms0 st0] out0].
  - destruct (MAXMODEPARAMS <=? _).
    + specialize (IH "-" []).
      destruct (remove_a_mode_loop _ _ _ _ members "-" [])
        as [[ms0 st0] out0].
      simpl in *. constructor; [exact I | exact IH].
    + match goal with
      | |- context [remove_a_mode_loop _ _ _ _ members ?b ?p] =>
          specialize (IH b p);
          now destruct (remove_a_mode_loop origin chname mask flag members
                                           b p) as [[ms0 st0] out0]
      end.
Qed.

Lemma remove_a_mode_status w chptr source_p mask flag :
  Forall is_status (snd (remove_a_mode w chptr source_p mask flag)).
Proof.
  unfold remove_a_mode.
  pose proof (remove_a_mode_loop_status (origin_name w source_p)
                (Channel.name chptr) mask flag (Channel.members chptr)
                "-" []) as H.
  destruct (remove_a_mode_loop _ _ _ _ _ _ _) as [[ms [l p]] out].
  simpl in *. apply Forall_app. split; [exact H|].
  destruct (length p =? 0); repeat constructor.
Qed.

Lemma remove_our_modes_status w chptr source_p :
  Forall is_status (snd (remove_our_modes w chptr source_p)).
Proof.
  unfold remove_our_modes.
  pose proof (remove_a_mode_status w chptr source_p CHFL_CHANOP "o") as A1.
  destruct (remove_a_mode w chptr source_p CHFL_CHANOP "o") as [a1 p1].
  pose proof (remove_a_mode_status w a1 source_p CHFL_HALFOP "h") as A2.
  destruct (remove_a_mode w a1 source_p CHFL_HALFOP "h") as [a2 p2].
  pose proof (remove_a_mode_status w a2 source_p CHFL_VOICE "v") as A3.
  destruct (remove_a_mode w a2 source_p CHFL_VOICE "v") as [c1 p3].
  simpl in *. rewrite !Forall_app. auto.
Qed.

(** *** The pieces of the relay head *)

Lemma strtoumax_bound s : (Str.strtoumax s < 2 ^ 64)%N.
Proof.
  unfold Str.strtoumax, Str.UINTMAX_MAX.
  destruct (Str.sign _) as [neg d].
  destruct (N.ltb_spec (2 ^ 64 - 1) (Str.digits_val d 0)); [lia|].
  destruct neg; [apply N.mod_lt|]; lia.
Qed.

Lemma atoi_bound s : (Str.atoi s < 2 ^ 32)%N.
Proof.
  unfold Str.atoi. destruct (Str.sign _) as [neg d].
  match goal with |- (Z.to_N (?l mod _) < _)%N => generalize l end.
  intros l. pose proof (Z.mod_pos_bound l (2 ^ 32) ltac:(lia)). lia.
Qed.

Lemma parse_modes_bound parv parc modes : forall mode args mode' args',
  parse_modes parv parc modes mode args = Some (mode', args') ->
  Str.len (Mode.key mode) <= KEYLEN -> (Mode.limit mode < 2 ^ 32)%N ->
  Str.len (Mode.key mode') <= KEYLEN /\ (Mode.limit mode' < 2 ^ 32)%N.
Proof.
  induction modes as [|c modes IH]; intros mode args mode' args' E Hk Hl;
    simpl in E.
  - injection E as <- <-. auto.
  - destruct (Ascii.eqb c "k").
    + destruct (parc <? _); [discriminate|].
      eapply IH; [exact E| |exact Hl]. simpl. apply len_strlcpy.
    + destruct (Ascii.eqb c "l").
      * destruct (parc <? _); [discriminate|].
        eapply IH; [exact E|exact Hk|]. simpl. apply atoi_bound.
      * eapply IH; [exact E| |]; destruct (cmode_map c); simpl; auto.
Qed.

Lemma check_ts_bound w source_p chptr isnew newts oldts :
  (newts < 2 ^ 64)%N ->
  (fst (check_ts w source_p chptr isnew newts oldts) < 2 ^ 64)%N.
Proof.
  intros H. unfold check_ts.
  destruct (ignore_bogus_ts w); [|exact H].
  destruct (newts <? 800000000)%N; [|exact H].
  simpl. destruct (oldts =? 0)%N; lia.
Qed.

Lemma arbitrate_bound (isnew : bool) newts oldts :
  (newts < 2 ^ 64)%N -> (isnew = false -> (oldts < 2 ^ 64)%N) ->
  (tstosend (arbitrate isnew newts oldts) < 2 ^ 64)%N
  /\ (creationtime' (arbitrate isnew newts oldts) < 2 ^ 64)%N.
Proof.
  intros Hn Ho. unfold arbitrate.
  destruct isnew; [simpl; auto|]. specialize (Ho eq_refl).
  destruct ((newts =? 0)%N || (oldts =? 0)%N); [simpl; lia|].
  destruct (newts =? oldts)%N; [simpl; auto|].
  destruct (newts <? oldts)%N; simpl; auto.
Qed.

Lemma merge_modes_bound a mode oldmode :
  Str.len (Mode.key mode) <= KEYLEN -> (Mode.limit mode < 2 ^ 32)%N ->
  Str.len (Mode.key oldmode) <= KEYLEN -> (Mode.limit oldmode < 2 ^ 32)%N ->
  Str.len (Mode.key (merge_modes a mode oldmode)) <= KEYLEN
  /\ (Mode.limit (merge_modes a mode oldmode) < 2 ^ 32)%N.
Proof.
  intros Hk Hl Hok Hol. unfold merge_modes.
  destruct (negb (keep_new_modes a)); [auto|].
  destruct (keep_our_modes a); [|auto]. simpl.
  split.
  - destruct (Str.strcmp _ _ <? 0)%Z; [apply len_strlcpy | exact Hk].
  - destruct (Mode.limit mode <? Mode.limit oldmode)%N; auto.
Qed.

Lemma channel_modes_bound chptr (buf : Raw.t) :
  length buf <= RAWLEN ->
  Str.len (Mode.key (Channel.mode chptr)) <= KEYLEN ->
  (Mode.limit (Channel.mode chptr) < 2 ^ 32)%N ->
  length (fst (channel_modes chptr buf)) <= RAWLEN
  /\ Str.len (snd (channel_modes chptr buf)) <= PARALEN.
Proof.
  intros Hb Hk Hl. unfold channel_modes. rewrite tab_walk_fold.
  set (m := Channel.mode chptr) in *.
  set (s1 := fold_left Raw.putc (map letter (selected cmode_tab (Mode.mode m) 0))
                       (Raw.putc (buf, 0) "+")).
  assert (P1 : snd s1 = S (length (selected cmode_tab (Mode.mode m) 0))).
  { unfold s1. rewrite fold_putc_snd, length_map. reflexivity. }
  assert (L1 : length (fst s1)
               <= Nat.max (length buf)
                          (S (length (selected cmode_tab (Mode.mode m) 0)))).
  { unfold s1. etransitivity; [apply fold_putc_len|].
    cbn [fst snd Raw.putc]. rewrite length_poke, length_map. lia. }
  pose proof (selected_len cmode_tab (Mode.mode m) 0) as Hs.
  pose proof (utoa_len (Mode.limit m) 32 Hl ltac:(lia)) as Hu.
  clearbody s1. destruct s1 as [b1 i1]. simpl in P1, L1.
  unfold RAWLEN, PARALEN in *.
  destruct (nonzero (Mode.limit m)), (negb (Str.is_empty (Mode.key m)));
    cbn [fst snd Raw.putc]; rewrite ?length_poke, ?len_app;
    change (Str.len " ") with 1; change (Str.len "") with 0; lia.
Qed.

Lemma sjoin_header_len source_p ts chname modes params :
  Str.len (sjoin_header source_p ts chname modes params)
  = 1 + Str.len (Client.id source_p) + 7 + Str.len (Str.utoa ts) + 1
    + Str.len chname + 1 + Str.len modes + 1 + Str.len params + 1.
Proof.
  unfold sjoin_header. rewrite !len_app.
  change (Str.len ":") with 1. change (Str.len " SJOIN ") with 7.
  change (Str.len " ") with 1. lia.
Qed.

Lemma sjoin_header_fits w source_p ts chname (buf : Raw.t) params :
  world_fits Z w source_p -> (ts < 2 ^ 64)%N ->
  Str.len chname <= CHANNELLEN -> length buf <= RAWLEN ->
  Str.len params <= PARALEN ->
  Str.len (sjoin_header source_p ts chname (Raw.cstr buf) params) <= HEADLEN.
Proof.
  intros (_ & _ & Hi & _) Ht Hc Hb Hp. rewrite sjoin_header_len.
  pose proof (utoa_len ts 64 Ht ltac:(lia)).
  pose proof (cstr_le buf). unfold HEADLEN. lia.
Qed.

Lemma cstr_poke_nul buf i : Str.len (Raw.cstr (Raw.poke buf i Str.NUL)) <= i.
Proof.
  revert buf. induction i as [|i IH]; intros [|b r]; simpl;
    try (change (Str.len "") with 0; lia).
  destruct (Ascii.eqb b Str.NUL); [change (Str.len "") with 0; lia|].
  rewrite len_cons. specialize (IH r). lia.
Qed.

Lemma channel_make_fits w name : (CurrentTime w < 2 ^ 64)%N ->
  channel_fits Z (channel_make w name).
Proof.
  intros Ht. unfold channel_fits, channel_make. simpl.
  repeat split; auto; try apply len_strlcpy;
    try (change (Str.len "") with 0); lia.
Qed.

(** *** Up to the member list *)

Lemma reconcile_fits w source_p parv2 parv3 newts mode (isnew : bool) chptr :
  sizes_fit Z -> world_fits Z w source_p -> channel_fits Z chptr ->
  (newts < 2 ^ 64)%N ->
  Str.len (Mode.key mode) <= KEYLEN -> (Mode.limit mode < 2 ^ 32)%N ->
  let r := reconcile w source_p parv2 parv3 newts mode isnew chptr in
  Forall line_fits (r_out r)
  /\ length (r_modebuf r) <= RAWLEN
  /\ Str.len (r_parabuf r) <= PARALEN
  /\ Str.len (Channel.name (r_chptr r)) <= CHANNELLEN
  /\ (tstosend (r_arb r) < 2 ^ 64)%N.
Proof.
  intros HK Hw Hc Hts Hmk Hml.
  pose proof Hc as (Hn & Hct & Hok & Hol & Hms & Hb & He & Hi).
  unfold reconcile.
  pose proof (check_ts_bound w source_p chptr isnew newts
                (Channel.creationtime chptr) Hts) as Hts'.
  assert (H1f : Forall line_fits
                  (snd (check_ts w source_p chptr isnew newts
                                 (Channel.creationtime chptr)))).
  { unfold check_ts.
    repeat match goal with
           | |- context [if ?b then _ else _] => destruct b
           end; repeat constructor. }
  destruct (check_ts _ _ _ _ _ _) as [ts o_ts]. simpl in Hts', H1f.
  destruct (arbitrate_bound isnew ts (Channel.creationtime chptr) Hts'
              (fun _ => Hct)) as [Hsend Hcre].
  set (a := arbitrate _ _ _) in *.
  destruct (merge_modes_bound a mode (Channel.mode chptr) Hmk Hml Hok Hol)
    as [Hk' Hl'].
  set (mode' := merge_modes _ _ _) in *.
  pose proof (set_final_mode_reach mode' (Channel.mode chptr) "") as Hraw.
  pose proof (set_final_mode_para mode' (Channel.mode chptr) [] Hok Hk' Hl')
    as Hpar.
  destruct (set_final_mode _ _ _ _) as [mb pb]. simpl in Hraw, Hpar.
  set (c1 := Channel.set_mode _ _).
  assert (Hc1 : channel_fits Z c1).
  { unfold c1. destruct chptr; simpl in *. repeat split; auto. }
  assert (Hm1 : Channel.mode c1 = mode')
    by (unfold c1; destruct chptr; reflexivity).
  assert (Hn1 : Channel.name c1 = Channel.name chptr)
    by (unfold c1; destruct chptr; reflexivity).
  pose proof (lose_ts_fits w source_p isnew parv2
                (Channel.creationtime chptr) ts c1 HK Hw Hc1) as F2.
  pose proof (lose_ts_fst w source_p isnew parv2
                (Channel.creationtime chptr) ts c1) as E2.
  set (lost := lose_ts w source_p isnew parv2 _ ts c1) in *.
  set (c2o := if keep_our_modes a then (c1, []) else lost).
  assert (Hc2 : Str.len (Channel.name (fst c2o)) <= CHANNELLEN
                /\ Channel.mode (fst c2o) = mode'
                /\ Forall line_fits (snd c2o)).
  { unfold c2o. destruct (keep_our_modes a); cbn [fst snd].
    - rewrite Hn1. repeat split; auto.
    - rewrite E2. cbn [fst snd Channel.name Channel.mode].
      split; [|split]; auto.
      destruct isnew; [now rewrite Hn1 | apply len_strlcpy]. }
  clearbody c2o lost. destruct c2o as [c2 o2]. simpl in Hc2.
  destruct Hc2 as (Hn2 & Hm2 & Hf2).
  assert (Hmode : forall o,
             o = (if Str.is_empty (Raw.cstr mb) then []
                  else [LocalModeDelta (origin_name w source_p)
                                       (Channel.name c2) (Raw.cstr mb) pb]) ->
             Forall line_fits o).
  { intros o ->.
    destruct (Str.is_empty (Raw.cstr mb)); [constructor|].
    repeat constructor. unfold line_fits. rewrite wire_delta_len.
    pose proof (cstr_le mb). pose proof (origin_name_len w source_p Hw).
    destruct HK as (_ & _ & K2 & _). lia. }
  pose proof (Hmode _ eq_refl) as Fm.
  pose proof (channel_modes_bound c2 mb Hraw) as Hcm.
  rewrite Hm2 in Hcm. specialize (Hcm Hk' Hl').
  assert (H0 : length (Raw.poke (Raw.poke mb 0 "0") 1 Str.NUL) <= RAWLEN).
  { rewrite !length_poke. unfold RAWLEN in *. lia. }
  destruct (negb (starts_with_0 parv3) && keep_new_modes a);
    [destruct (channel_modes c2 mb) as [mb' pb']|];
    simpl in *; rewrite !Forall_app; tauto.
Qed.

(** *** The loop over the member list *)

Lemma uid_prefix_of_len fl : Str.len (uid_prefix_of fl) <= 3.
Proof.
  unfold uid_prefix_of.
  destruct (has fl CHFL_CHANOP), (has fl CHFL_HALFOP), (has fl CHFL_VOICE);
    vm_compute; lia.
Qed.

Lemma uid_prefix_of_0 : uid_prefix_of 0 = "".
Proof. reflexivity. Qed.

Lemma relay_token_fits w source_p a chname parabuf uid_prefix
      target_p s st :
  sizes_fit Z -> world_fits Z w source_p ->
  (tstosend a < 2 ^ 64)%N -> Str.len chname <= CHANNELLEN ->
  Str.len parabuf <= PARALEN ->
  find_person w source_p s = Some target_p ->
  (exists fl, uid_prefix = uid_prefix_of fl) ->
  fill_fits Z chname st ->
  fill_fits Z chname (relay_token source_p a parabuf uid_prefix target_p st).
Proof.
  intros HK Hw Hts Hcn Hpb Hfind [fl ->]
         (Hf & Hlen & Hraw & Hmb & Hpl & Hpn & Hname).
  pose proof Hw as (_ & _ & _ & Hfp & _).
  destruct (Hfp _ _ Hfind) as [_ Hid].
  pose proof (uid_prefix_of_len fl) as Hpre.
  unfold relay_token, fill_fits. cbn [out uid_buf modebuf mbuf para chan].
  rewrite Hname.
  destruct (IRCD_BUFSIZE <? _) eqn:E.
  - pose proof (sjoin_header_fits w source_p (tstosend a) chname
                  (modebuf st) parabuf Hw Hts Hcn Hraw Hpb) as Hh.
    rewrite !Forall_app, !len_app. change (Str.len " ") with 1.
    destruct HK as (K4 & _).
    repeat split; auto; try lia.
  - apply Nat.ltb_ge in E.
    rewrite !app_nil_r, !len_app in *. change (Str.len " ") with 1.
    repeat split; auto; try lia.
Qed.

Lemma join_user_fits chname target_p fl many st :
  fill_fits Z chname st -> fill_fits Z chname (join_user target_p fl many st).
Proof.
  intros H. unfold join_user.
  destruct (IsMember target_p (chan st)); [exact H|].
  destruct H as (Hf & Hlen & Hraw & Hmb & Hpl & Hpn & Hname).
  unfold fill_fits. cbn [out uid_buf modebuf mbuf para chan].
  rewrite !Forall_app.
  repeat split; auto; try (destruct (Str.is_empty _); repeat constructor);
    try (repeat constructor).
Qed.

Lemma grant_fits w source_p chname c target_p st :
  sizes_fit Z -> world_fits Z w source_p -> Str.len chname <= CHANNELLEN ->
  Str.len (Client.name target_p) <= NICKLEN Z ->
  fill_fits Z chname st ->
  fill_fits Z chname (grant (origin_name w source_p) c target_p st).
Proof.
  intros HK Hw Hcn Hnick (Hf & Hlen & Hraw & Hmb & Hpl & Hpn & Hname).
  assert (Hpn' : Forall (fun n => Str.len n <= NICKLEN Z)
                        (para st ++ [Client.name target_p]))
    by (apply Forall_app; split; [exact Hpn | repeat constructor; exact Hnick]).
  unfold grant, fill_fits. cbn [Raw.putc fst snd].
  destruct (MAXMODEPARAMS <=? _) eqn:E;
    cbn [out uid_buf modebuf mbuf para chan Raw.putc fst snd].
  - rewrite !Forall_app, !length_poke. rewrite Hname.
    repeat split; auto; try (unfold RAWLEN in *; simpl; lia);
      try (repeat constructor).
    apply status_line_fits; auto.
    + now apply origin_name_len.
    + etransitivity; [apply cstr_poke_nul|]. lia.
  - apply Nat.leb_gt in E. rewrite length_poke, length_app in *. simpl in *.
    repeat split; auto; try (unfold RAWLEN in *; lia).
Qed.

Lemma grants_fits w source_p chname target_p fl st :
  sizes_fit Z -> world_fits Z w source_p -> Str.len chname <= CHANNELLEN ->
  Str.len (Client.name target_p) <= NICKLEN Z ->
  fill_fits Z chname st ->
  fill_fits Z chname (grants (origin_name w source_p) target_p fl st).
Proof.
  intros HK Hw Hcn Hnick H. unfold grants.
  destruct (has fl CHFL_CHANOP), (has fl CHFL_HALFOP), (has fl CHFL_VOICE);
    repeat apply grant_fits; auto.
Qed.

Lemma fill_fits_fill w source_p r uids :
  sizes_fit Z -> world_fits Z w source_p ->
  Forall line_fits (r_out r) ->
  length (r_modebuf r) <= RAWLEN ->
  Str.len (r_parabuf r) <= PARALEN ->
  Str.len (Channel.name (r_chptr r)) <= CHANNELLEN ->
  (tstosend (r_arb r) < 2 ^ 64)%N ->
  fill_fits Z (Channel.name (r_chptr r)) (fill w source_p r uids).
Proof.
  intros HK Hw Hf Hraw Hpb Hcn Hts.
  apply fill_invariant.
  - intros st tok many Hst. apply sjoin_user_cases; [exact Hst|].
    intros target_p fl uid_prefix Hfind _ -> ->.
    pose proof Hw as (_ & _ & _ & Hfp & _).
    destruct (Hfp _ _ Hfind) as [Hnick _].
    apply grants_fits; auto. apply join_user_fits.
    eapply relay_token_fits; eauto.
    destruct (keep_new_modes (r_arb r)); [eauto|].
    exists 0%N. symmetry. apply uid_prefix_of_0.
  - unfold fill_fits. cbn [out uid_buf modebuf mbuf para chan].
    pose proof (sjoin_header_fits w source_p _ _ _ _ Hw Hts Hcn Hraw Hpb)
      as Hh.
    fold (first_header source_p r) in Hh.
    destruct HK as (K4 & _). rewrite length_poke.
    repeat split; auto; try lia; try (unfold RAWLEN in *; lia);
      try (simpl; lia).
Qed.

(** With the constants leaving room for a head of a relay line and one
    member, for a MODE line with MAXMODEPARAMS names, for a line of mode
    changes and for a removal line with one mask, and with the names of the
    world within their bounds, every line [ms_sjoin] sends is shorter than
    IRCD_BUFSIZE, whatever the member list: a MODE line and a removal line
    leave two bytes free, a relay line leaves one. *)
Lemma wire_lines_fit w source_p parv :
  sizes_fit Z -> world_fits Z w source_p ->
  Forall line_fits (snd (ms_sjoin w source_p parv)).
Proof.
  intros HK Hw. unfold ms_sjoin.
  destruct (negb (Client.server source_p)); [constructor|].
  destruct (negb (channel_check_name _ _)); [repeat constructor|].
  destruct (parse_modes _ _ _ _ _) as [[mode args]|] eqn:Ep;
    [|constructor].
  apply parse_modes_bound in Ep as [Hmk Hml];
    [|cbn [Mode.key]; change (Str.len "") with 0; lia
     |cbn [Mode.limit]; lia].
  set (found := hash_find_channel w (arg parv 2)).
  set (isnew := if found is None then true else false).
  set (chptr := default _ found).
  assert (Hc : channel_fits Z chptr).
  { pose proof Hw as (_ & _ & _ & _ & Hch & Hclock).
    unfold chptr. destruct found as [c|] eqn:Ef; simpl.
    - exact (Hch _ _ Ef).
    - now apply channel_make_fits. }
  destruct (reconcile_fits w source_p (arg parv 2) (arg parv 3)
              (Str.strtoumax (arg parv 1)) mode isnew chptr HK Hw Hc
              (strtoumax_bound _) Hmk Hml)
    as (Hf & Hraw & Hpb & Hcn & Hts).
  set (r := reconcile _ _ _ _ _ _ _ _) in *.
  destruct (long_sjoin _).
  { cbn [snd]. rewrite !Forall_app. repeat split; auto; repeat constructor. }
  destruct (fill_fits_fill w source_p r (arg parv (args + 4)) HK Hw
              Hf Hraw Hpb Hcn Hts)
    as (Gf & Glen & Graw & Gmb & Gpl & Gpn & Gname).
  set (st := fill _ _ _ _) in *.
  set (status := if length (para st) =? 0 then [] else _).
  assert (Sf : Forall line_fits status).
  { unfold status. destruct (length (para st) =? 0); [constructor|].
    repeat constructor.
    rewrite <- (firstn_all2 (para st) (n := MAXMODEPARAMS)) by exact Gpl.
    apply status_line_fits; auto.
    - now apply origin_name_len.
    - now rewrite Gname.
    - etransitivity; [apply cstr_poke_nul|]. lia. }
  assert (Lf : line_fits (ServerSjoin (Str.chop (uid_buf st)))).
  { unfold line_fits. rewrite len_chop. lia. }
  destruct ((length (Channel.members (chan st)) =? 0) && isnew);
    [|destruct (Str.is_empty _)]; cbn [snd]; rewrite !Forall_app;
    repeat split; auto.
Qed.

End Lengths.

(** ** The mode letters of parv[3] *)

Section Parsing.

Context `{K : Consts}.

Lemma parse_modes_shape parv parc modes : forall mode args,
  match parse_modes parv parc modes mode args with
  | Some (_, args') =>
      args' = args + kl_count modes
      /\ (0 < kl_count modes -> 5 + args' <= parc)
  | None => 0 < kl_count modes /\ parc < 5 + args + kl_count modes
  end.
Proof.
  induction modes as [|c modes IH]; intros mode args; simpl.
  - split; lia.
  - destruct (Ascii.eqb c "k") eqn:Ek; simpl.
    + destruct (parc <? _) eqn:E;
        [apply Nat.ltb_lt in E; lia | apply Nat.ltb_ge in E].
      match goal with
      | |- context [parse_modes _ _ modes ?m ?a] =>
          specialize (IH m a); destruct (parse_modes parv parc modes m a)
            as [[m' a']|]
      end; lia.
    + destruct (Ascii.eqb c "l") eqn:El; simpl.
      * destruct (parc <? _) eqn:E;
        [apply Nat.ltb_lt in E; lia | apply Nat.ltb_ge in E].
        match goal with
        | |- context [parse_modes _ _ modes ?m ?a] =>
            specialize (IH m a); destruct (parse_modes parv parc modes m a)
              as [[m' a']|]
        end; lia.
      * match goal with
        | |- context [parse_modes _ _ modes ?m ?a] =>
            specialize (IH m a); destruct (parse_modes parv parc modes m a)
              as [[m' a']|]
        end; lia.
Qed.

(** X1. The loop over parv[3] gives up exactly when a [k] or an [l] is there
    and parv is too short for all of them; when it goes through, [args]
    has grown by one for each [k] and [l], and with five parameters at
    least the member list parv[args + 4] is a parameter of the message. *)
Theorem parse_modes_counts_arguments parv parc modes mode args :
  (parse_modes parv parc modes mode args = None
   <-> 0 < kl_count modes /\ parc < 5 + args + kl_count modes)
  /\ (forall mode' args',
         parse_modes parv parc modes mode args = Some (mode', args') ->
         args' = args + kl_count modes
         /\ (5 + args <= parc -> args' + 4 < parc)).
Proof.
  pose proof (parse_modes_shape parv parc modes mode args) as H.
  destruct (parse_modes parv parc modes mode args) as [[m' a']|].
  - destruct H as [-> H]. split.
    + split; [discriminate|]. intros [Hpos Hlt]. specialize (H Hpos). lia.
    + intros mode' args' [= <- <-]. split; [reflexivity|]. intros Hp.
      destruct (kl_count modes); [lia|]. specialize (H ltac:(lia)). lia.
  - split; [tauto | discriminate].
Qed.

Lemma tab_find_in tab c t :
  tab_find tab c = Some t -> In t (tab_entries tab).
Proof.
  induction tab as [|e tab IH]; simpl; [discriminate|].
  destruct (Ascii.eqb (letter e) Str.NUL); [discriminate|].
  destruct (Ascii.eqb (letter e) c).
  - intros [= ->]. now left.
  - intros H. right. auto.
Qed.

Lemma cmode_map_recognized c t :
  tab_wf -> cmode_map c = Some t -> recognized (cm_mode t).
Proof.
  intros Hwf H. apply tab_find_in in H.
  destruct (N.eq_dec (cm_mode t) 0%N) as [E|E];
    [rewrite E; apply recognized_0|].
  destruct (Hwf t H E) as ((k & Hk) & _).
  rewrite Hk. now apply (recognized_bit t k).
Qed.

Lemma parse_modes_kept parv parc modes : forall mode args mode' args',
  tab_wf ->
  parse_modes parv parc modes mode args = Some (mode', args') ->
  mode_kept mode -> mode_kept mode'.
Proof.
  induction modes as [|c modes IH]; intros mode args mode' args' Hwf E Hm;
    simpl in E.
  - now injection E as <- <-.
  - destruct Hm as (Hr & Hl & Hk).
    destruct (Ascii.eqb c "k").
    + destruct (parc <? _); [discriminate|].
      eapply IH; [exact Hwf | exact E|].
      repeat split; auto. apply len_strlcpy.
    + destruct (Ascii.eqb c "l").
      * destruct (parc <? _); [discriminate|].
        eapply IH; [exact Hwf | exact E|].
        repeat split; auto. apply atoi_bound.
      * eapply IH; [exact Hwf | exact E|].
        destruct (cmode_map c) as [t|] eqn:Et; [|repeat split; auto].
        repeat split; auto. simpl. apply recognized_lor; [exact Hr|].
        now apply (cmode_map_recognized c).
Qed.

Lemma mode_kept_empty : mode_kept (Mode.mk 0 0 "").
Proof.
  split; [apply recognized_0|]. split; [reflexivity|].
  cbn [Mode.key]. change (Str.len "") with 0. lia.
Qed.

(** X2. Whatever parv[3] and its arguments are, the mode the loop over parv[3]
    collects is a mode as the server keeps one: its flag bits are bits of
    [cmode_tab] (a letter that is not in the table sets nothing), its limit
    is an [unsigned int], its key is cut to KEYLEN. *)
Theorem parsed_mode_is_kept parv parc modes mode args :
  tab_wf ->
  parse_modes parv parc modes (Mode.mk 0 0 "") 0 = Some (mode, args) ->
  mode_kept mode.
Proof.
  intros Hwf E. eapply parse_modes_kept; [exact Hwf | exact E|].
  apply mode_kept_empty.
Qed.

End Parsing.

(** ** The hash after an SJOIN *)

Section Hash.

Context `{K : Consts}.

Lemma ms_sjoin_channels w source_p parv :
  channels (fst (ms_sjoin w source_p parv)) = channels w
  \/ exists mode args,
      accepted source_p parv mode args
      /\ let c' := settled w source_p parv mode args (is_new w parv)
                           (channel_of w parv) in
         (channels (fst (ms_sjoin w source_p parv))
          = <[slot_of w parv := c']> (channels w)
          \/ (is_new w parv = true /\ Channel.members c' = []
              /\ channels (fst (ms_sjoin w source_p parv))
                 = delete (slot_of w parv) (channels w))).
Proof.
  unfold ms_sjoin.
  destruct (Client.server source_p) eqn:Hs; [|now left]. cbn [negb].
  destruct (channel_check_name (arg parv 2) false) eqn:Hn; [|now left].
  cbn [negb].
  destruct (parse_modes _ _ _ _ _) as [[mode args]|] eqn:Hp; [|now left].
  right. exists mode, args. split; [now repeat split|].
  unfold settled, oversized, reconciled, slot_of, is_new, channel_of.
  destruct (hash_find_channel w (arg parv 2)) as [chptr|]; cbn [default].
  - destruct (long_sjoin _); [now left|].
    rewrite andb_false_r. destruct (Str.is_empty _); now left.
  - destruct (long_sjoin _); [now left|].
    rewrite andb_true_r.
    destruct (length _ =? 0) eqn:E; [|destruct (Str.is_empty _); now left].
    right. apply Nat.eqb_eq in E.
    repeat split. now destruct (Channel.members _).
Qed.

Lemma ms_sjoin_invariant (P : Channel.t -> Prop) w source_p parv :
  (forall mode args chptr,
      accepted source_p parv mode args ->
      hash_find_channel w (arg parv 2) = Some chptr -> P chptr ->
      P (settled w source_p parv mode args false chptr)) ->
  (forall mode args,
      accepted source_p parv mode args ->
      hash_find_channel w (arg parv 2) = None ->
      P (settled w source_p parv mode args true
                 (channel_make w (arg parv 2)))) ->
  (forall k c, channels w !! k = Some c -> P c) ->
  forall k c,
    channels (fst (ms_sjoin w source_p parv)) !! k = Some c -> P c.
Proof.
  intros Hold Hnew Hw k c.
  destruct (ms_sjoin_channels w source_p parv)
    as [-> | (mode & args & Ha & [-> | (_ & _ & ->)])].
  - apply Hw.
  - intros H. apply lookup_insert_Some in H as [[_ <-] | [_ H]];
      [|now apply (Hw k)].
    unfold is_new, channel_of.
    destruct (hash_find_channel w (arg parv 2)) as [chptr|] eqn:Hf;
      cbn [default].
    + eapply Hold; eauto.
    + now apply Hnew.
  - intros H. apply lookup_delete_Some in H as [_ H]. now apply (Hw k).
Qed.

Lemma settled_shape w source_p parv mode args (isnew : bool) chptr :
  let oldts := Channel.creationtime chptr in
  let a := arbitrate isnew (incoming_ts w parv oldts) oldts in
  let md := merge_modes a mode (Channel.mode chptr) in
  exists added,
    settled w source_p parv mode args isnew chptr
    = (if keep_our_modes a
       then Channel.mk (Channel.name chptr) (creationtime' a) md
                       (Channel.topic chptr) (Channel.topic_info chptr)
                       (Channel.topic_time chptr)
                       (added ++ Channel.members chptr)
                       (Channel.banlist chptr) (Channel.exceptlist chptr)
                       (Channel.invexlist chptr) (Channel.invites chptr)
       else Channel.mk (if isnew then Channel.name chptr
                        else Str.strlcpy (arg parv 2) (S CHANNELLEN))
                       (creationtime' a) md ""
                       (if Str.is_empty (Channel.topic chptr)
                        then Channel.topic_info chptr else "")
                       (if Str.is_empty (Channel.topic chptr)
                        then Channel.topic_time chptr else 0%N)
                       (added ++ map lost_member (Channel.members chptr))
                       [] [] [] [])
    /\ (keep_new_modes a = false ->
        Forall (fun m => Membership.flags m = 0%N) added).
Proof.
  intros oldts a md.
  destruct (settled_members w source_p parv mode args isnew chptr)
    as (added & E & Hf).
  rewrite reconciled_arb in Hf. fold oldts a in Hf.
  exists added. split; [|exact Hf].
  rewrite E, reconciled_chptr. fold oldts a md.
  destruct (keep_our_modes a).
  - now destruct chptr.
  - rewrite lose_ts_fst. now destruct chptr.
Qed.

Lemma arbitrate_ts (isnew : bool) newts oldts :
  tstosend (arbitrate isnew newts oldts)
  = creationtime' (arbitrate isnew newts oldts)
  /\ creationtime' (arbitrate isnew newts oldts)
     = (if isnew then newts
        else if (newts =? 0)%N || (oldts =? 0)%N then 0%N
             else N.min newts oldts).
Proof.
  unfold arbitrate. destruct isnew; [auto|].
  destruct ((newts =? 0)%N || (oldts =? 0)%N); [auto|].
  destruct (N.eqb_spec newts oldts); [simpl; split; auto; lia|].
  destruct (N.ltb_spec newts oldts); simpl; split; auto; lia.
Qed.

(** X4. The timestamp of a channel never goes up: after an SJOIN for a channel
    of the hash its creation time is zero if the incoming timestamp (as it
    leaves the [ignore_bogus_ts] block) or its own is zero, and the smaller
    of the two otherwise. *)
Theorem channel_ts_is_the_older w source_p parv mode args chptr :
  accepted source_p parv mode args ->
  hash_find_channel w (arg parv 2) = Some chptr ->
  let oldts := Channel.creationtime chptr in
  let newts := incoming_ts w parv oldts in
  exists chptr',
    channels (fst (ms_sjoin w source_p parv)) !! casefold (arg parv 2)
    = Some chptr'
    /\ Channel.creationtime chptr'
       = (if (newts =? 0)%N || (oldts =? 0)%N then 0%N else N.min newts oldts)
    /\ (Channel.creationtime chptr' <= oldts)%N.
Proof.
  intros Ha Hf oldts newts.
  exists (settled w source_p parv mode args false chptr).
  split; [now apply ms_sjoin_found|].
  destruct (settled_shape w source_p parv mode args false chptr)
    as (added & -> & _).
  fold oldts newts.
  destruct (arbitrate_ts false newts oldts) as [_ E].
  assert (Hc : forall x y : Channel.t,
             Channel.creationtime x = creationtime' (arbitrate false newts oldts) ->
             Channel.creationtime y = creationtime' (arbitrate false newts oldts) ->
             forall b : bool,
               Channel.creationtime (if b then x else y)
               = creationtime' (arbitrate false newts oldts))
    by (intros x y Hx Hy []; assumption).
  rewrite Hc by reflexivity. rewrite E. split; [reflexivity|].
  destruct ((newts =? 0)%N || (oldts =? 0)%N); lia.
Qed.

Lemma incoming_ts_sane w parv oldts :
  ignore_bogus_ts w = true -> ts_sane (incoming_ts w parv oldts).
Proof.
  intros Hb. unfold incoming_ts, ts_sane. rewrite Hb. simpl.
  destruct (N.ltb_spec (Str.strtoumax (arg parv 1)) 800000000); [|now right].
  destruct (oldts =? 0)%N; [now left | right; lia].
Qed.

(** X5. With [ignore_bogus_ts] on, a timestamp between 1 and 799999999 never
    enters the hash: if every channel has a creation time that is zero or
    at least 800000000, so has every channel after an SJOIN. *)
Theorem bogus_ts_never_enters w source_p parv :
  ignore_bogus_ts w = true ->
  (forall k c, channels w !! k = Some c -> ts_sane (Channel.creationtime c)) ->
  forall k c,
    channels (fst (ms_sjoin w source_p parv)) !! k = Some c ->
    ts_sane (Channel.creationtime c).
Proof.
  intros Hb Hw.
  apply (ms_sjoin_invariant (fun c => ts_sane (Channel.creationtime c)));
    [| |exact Hw].
  - intros mode args chptr _ _ Hc.
    destruct (settled_shape w source_p parv mode args false chptr)
      as (added & -> & _).
    pose proof (incoming_ts_sane w parv (Channel.creationtime chptr) Hb) as Hn.
    destruct (arbitrate_ts false (incoming_ts w parv (Channel.creationtime chptr))
                           (Channel.creationtime chptr)) as [_ E].
    cbv zeta.
    match goal with
    | |- ts_sane (Channel.creationtime (if ?b then _ else _)) =>
        destruct b; cbn [Channel.creationtime]
    end; rewrite E;
      (destruct (N.eqb_spec (incoming_ts w parv (Channel.creationtime chptr)) 0);
       [now left|];
       destruct (N.eqb_spec (Channel.creationtime chptr) 0); [now left|];
       cbn [orb]; unfold ts_sane in *; lia).
  - intros mode args _ _.
    destruct (settled_shape w source_p parv mode args true
                            (channel_make w (arg parv 2)))
      as (added & -> & _).
    pose proof (incoming_ts_sane w parv
                  (Channel.creationtime (channel_make w (arg parv 2))) Hb)
      as Hn.
    cbv zeta.
    match goal with
    | |- ts_sane (Channel.creationtime (if ?b then _ else _)) =>
        destruct b; cbn [Channel.creationtime]
    end; exact Hn.
Qed.

Lemma merge_modes_kept a mode oldmode :
  mode_kept mode -> mode_kept oldmode -> mode_kept (merge_modes a mode oldmode).
Proof.
  intros (Rn & Ln & Kn) (Ro & Lo & Ko).
  destruct (merge_modes_bound a mode oldmode Kn Ln Ko Lo) as [Hk Hl].
  split; [|split; assumption].
  unfold merge_modes.
  destruct (negb (keep_new_modes a)); [exact Ro|].
  destruct (keep_our_modes a); [|exact Rn].
  now apply recognized_lor.
Qed.

(** X6. The mode of every channel stays a mode as the server keeps one: if the
    flag bits of every channel of the hash are bits of [cmode_tab], its
    limit an [unsigned int] and its key within KEYLEN, the same holds after
    an SJOIN, whatever the message carries. *)
Theorem channel_modes_stay_kept w source_p parv :
  tab_wf ->
  (forall k c, channels w !! k = Some c -> mode_kept (Channel.mode c)) ->
  forall k c,
    channels (fst (ms_sjoin w source_p parv)) !! k = Some c ->
    mode_kept (Channel.mode c).
Proof.
  intros Hwf Hw.
  assert (Hs : forall mode args isnew chptr,
             accepted source_p parv mode args ->
             mode_kept (Channel.mode chptr) ->
             mode_kept (Channel.mode
                          (settled w source_p parv mode args isnew chptr))).
  { intros mode args isnew chptr (_ & _ & Hp) Hc.
    destruct (settled_shape w source_p parv mode args isnew chptr)
      as (added & -> & _).
    assert (Hm : mode_kept (merge_modes
                   (arbitrate isnew
                      (incoming_ts w parv (Channel.creationtime chptr))
                      (Channel.creationtime chptr)) mode (Channel.mode chptr))).
    { apply merge_modes_kept; [|exact Hc].
      eapply parse_modes_kept; [exact Hwf | exact Hp | apply mode_kept_empty]. }
    cbv zeta. now destruct (keep_our_modes _). }
  apply (ms_sjoin_invariant (fun c => mode_kept (Channel.mode c)));
    [| |exact Hw].
  - intros mode args chptr Ha _ Hc. now apply Hs.
  - intros mode args Ha _. apply Hs; [exact Ha|]. apply mode_kept_empty.
Qed.

End Hash.

(** ** Who is on the channel after an SJOIN *)

Section Members.

Context `{K : Consts}.

Lemma sjoin_user_members w source_p servername a parabuf many st tok :
  Channel.members
    (chan (sjoin_user w source_p servername a parabuf many st tok))
  = fold_left (join_member a)
              (match accepted_member w source_p tok with
               | Some m => [m]
               | None => []
               end)
              (Channel.members (chan st)).
Proof.
  unfold sjoin_user, accepted_member.
  destruct (status_prefix tok 0) as [fl s]. cbn [fst snd].
  destruct (find_person w source_p s) as [target_p|]; [|reflexivity].
  destruct (String.eqb (Client.from target_p) (Client.from source_p));
    [|reflexivity].
  cbn [negb fold_left]. rewrite grants_chan.
  unfold join_user, join_member, IsMember, given_flags.
  cbn [chan relay_token fst snd].
  destruct (existsb _ _); [reflexivity|].
  cbn [chan]. now destruct (chan st).
Qed.

Lemma fill_members w source_p r uids :
  Channel.members (chan (fill w source_p r uids))
  = fold_left (join_member (r_arb r)) (accepted_members w source_p uids)
              (Channel.members (r_chptr r)).
Proof.
  assert (H : forall servername parabuf many toks st,
             Channel.members
               (chan (fold_left (sjoin_user w source_p servername (r_arb r)
                                            parabuf many) toks st))
             = fold_left (join_member (r_arb r))
                 (flat_map (fun tok =>
                              match accepted_member w source_p tok with
                              | Some m => [m]
                              | None => []
                              end) toks)
                 (Channel.members (chan st))).
  { intros servername parabuf many toks.
    induction toks as [|tok toks IH]; intros st; [reflexivity|].
    cbn [fold_left flat_map]. rewrite IH, fold_left_app.
    now rewrite sjoin_user_members. }
  unfold fill, accepted_members. now rewrite H.
Qed.

Lemma IsMember_ids (target_p : Client.t) (ms : list Membership.t) :
  existsb (fun x => String.eqb (Client.id (Membership.client_p x))
                               (Client.id target_p)) ms = false ->
  ~ In (Client.id target_p)
       (map (fun m => Client.id (Membership.client_p m)) ms).
Proof.
  induction ms as [|m ms IH]; simpl; [tauto|].
  intros H. apply orb_false_iff in H as [H1 H2].
  apply String.eqb_neq in H1. intros [E | Hin]; [congruence|].
  now apply IH.
Qed.

Lemma join_member_nodup a m (ms : list Membership.t) :
  NoDup (map (fun x => Client.id (Membership.client_p x)) ms) ->
  NoDup (map (fun x => Client.id (Membership.client_p x))
             (join_member a ms m)).
Proof.
  intros H. unfold join_member.
  destruct (existsb _ ms) eqn:E; [exact H|].
  simpl. constructor; [|exact H].
  rewrite list_elem_of_In. now apply IsMember_ids.
Qed.

Lemma joined_nodup a l : forall ms : list Membership.t,
  NoDup (map (fun x => Client.id (Membership.client_p x)) ms) ->
  NoDup (map (fun x => Client.id (Membership.client_p x))
             (fold_left (join_member a) l ms)).
Proof.
  induction l as [|m l IH]; intros ms H; [exact H|].
  simpl. apply IH. now apply join_member_nodup.
Qed.

Lemma lost_member_ids (ms : list Membership.t) :
  map (fun x => Client.id (Membership.client_p x)) (map lost_member ms)
  = map (fun x => Client.id (Membership.client_p x)) ms.
Proof.
  rewrite map_map. apply map_ext. intros m. now rewrite lost_member_client.
Qed.

Lemma reconciled_members w source_p parv mode (isnew : bool) chptr :
  let a := arbitrate isnew (incoming_ts w parv (Channel.creationtime chptr))
                     (Channel.creationtime chptr) in
  Channel.members (r_chptr (reconciled w source_p parv mode isnew chptr))
  = if keep_our_modes a then Channel.members chptr
    else map lost_member (Channel.members chptr).
Proof.
  intros a. rewrite reconciled_chptr. fold a.
  destruct (keep_our_modes a); [now destruct chptr|].
  now rewrite lose_ts_fst.
Qed.

Lemma settled_nodup w source_p parv mode args (isnew : bool) chptr :
  NoDup (member_ids chptr) ->
  NoDup (member_ids (settled w source_p parv mode args isnew chptr)).
Proof.
  intros H. unfold member_ids, settled.
  assert (Hr : NoDup (map (fun m => Client.id (Membership.client_p m))
                          (Channel.members
                             (r_chptr (reconciled w source_p parv mode isnew
                                                  chptr))))).
  { rewrite reconciled_members.
    destruct (keep_our_modes _); [exact H | now rewrite lost_member_ids]. }
  destruct (oversized _ _); [exact Hr|].
  rewrite fill_members. now apply joined_nodup.
Qed.

(** X7. Nobody is on a channel twice: if no channel of the hash has two
    memberships of one client, none has after an SJOIN, however often the
    member list names a client. *)
Theorem nobody_joins_twice w source_p parv :
  (forall k c, channels w !! k = Some c -> NoDup (member_ids c)) ->
  forall k c,
    channels (fst (ms_sjoin w source_p parv)) !! k = Some c ->
    NoDup (member_ids c).
Proof.
  intros Hw.
  apply (ms_sjoin_invariant (fun c => NoDup (member_ids c))); [| |exact Hw].
  - intros mode args chptr _ _ Hc. now apply settled_nodup.
  - intros mode args _ _. apply settled_nodup. constructor.
Qed.

(** X8. The members of a channel of the hash after an SJOIN that is not
    oversized: those it had (with their flags as they were if the channel
    keeps its modes, stripped if it lost the TS), and in front of them the
    clients of the member list that the sender introduced, one after the
    other, each with the flags it is given unless it is on the channel
    already. *)
Theorem sjoin_adds_members_in_order w source_p parv mode args chptr :
  accepted source_p parv mode args ->
  hash_find_channel w (arg parv 2) = Some chptr ->
  oversized source_p (reconciled w source_p parv mode false chptr) = false ->
  let a := arbitrate false (incoming_ts w parv (Channel.creationtime chptr))
                     (Channel.creationtime chptr) in
  exists chptr',
    channels (fst (ms_sjoin w source_p parv)) !! casefold (arg parv 2)
    = Some chptr'
    /\ Channel.members chptr'
       = fold_left (join_member a)
                   (accepted_members w source_p (arg parv (args + 4)))
                   (if keep_our_modes a then Channel.members chptr
                    else map lost_member (Channel.members chptr)).
Proof.
  intros Ha Hf Ho a.
  exists (settled w source_p parv mode args false chptr).
  split; [now apply ms_sjoin_found|].
  unfold settled. rewrite Ho, fill_members, reconciled_arb.
  now rewrite reconciled_members.
Qed.

Lemma join_member_keeps a m (target_p : Client.t) (ms : list Membership.t) :
  existsb (fun x => String.eqb (Client.id (Membership.client_p x))
                               (Client.id target_p)) ms = true ->
  existsb (fun x => String.eqb (Client.id (Membership.client_p x))
                               (Client.id target_p)) (join_member a ms m)
  = true.
Proof.
  intros H. unfold join_member.
  destruct (existsb (fun x => String.eqb (Client.id (Membership.client_p x))
                                         (Client.id (snd m))) ms);
    [exact H|].
  simpl. rewrite H. apply orb_true_r.
Qed.

Lemma join_member_in a m (ms : list Membership.t) :
  existsb (fun x => String.eqb (Client.id (Membership.client_p x))
                               (Client.id (snd m))) (join_member a ms m)
  = true.
Proof.
  unfold join_member.
  destruct (existsb (fun x => String.eqb (Client.id (Membership.client_p x))
                                         (Client.id (snd m))) ms) eqn:E;
    [exact E|].
  simpl. now rewrite String.eqb_refl.
Qed.

Lemma joined_keeps a (target_p : Client.t) l : forall ms : list Membership.t,
  existsb (fun x => String.eqb (Client.id (Membership.client_p x))
                               (Client.id target_p)) ms = true ->
  existsb (fun x => String.eqb (Client.id (Membership.client_p x))
                               (Client.id target_p))
          (fold_left (join_member a) l ms) = true.
Proof.
  induction l as [|m l IH]; intros ms H; [exact H|].
  simpl. apply IH. now apply join_member_keeps.
Qed.

Lemma joined_in a m l : forall ms : list Membership.t,
  In m l ->
  existsb (fun x => String.eqb (Client.id (Membership.client_p x))
                               (Client.id (snd m)))
          (fold_left (join_member a) l ms) = true.
Proof.
  induction l as [|x l IH]; intros ms; [intros []|].
  intros [-> | Hin]; simpl.
  - apply joined_keeps, join_member_in.
  - now apply IH.
Qed.

(** X9. Every client of the member list that the sender introduced is on the
    channel after an SJOIN that is not oversized, whether the channel was
    in the hash or is new, and whichever side keeps its modes. *)
Theorem introduced_members_are_on_the_channel w source_p parv mode args m :
  accepted source_p parv mode args ->
  oversized source_p (reconciled w source_p parv mode (is_new w parv)
                                 (channel_of w parv)) = false ->
  In m (accepted_members w source_p (arg parv (args + 4))) ->
  exists chptr',
    channels (fst (ms_sjoin w source_p parv)) !! slot_of w parv = Some chptr'
    /\ IsMember (snd m) chptr' = true.
Proof.
  intros Ha Ho Hin.
  assert (Hm : forall isnew chptr,
             oversized source_p (reconciled w source_p parv mode isnew chptr)
             = false ->
             IsMember (snd m) (settled w source_p parv mode args isnew chptr)
             = true).
  { intros isnew chptr Hov. unfold IsMember, settled.
    rewrite Hov, fill_members. now apply joined_in. }
  unfold slot_of, is_new, channel_of in *.
  destruct (hash_find_channel w (arg parv 2)) as [chptr|] eqn:Hf;
    cbn [default] in *.
  - exists (settled w source_p parv mode args false chptr).
    split; [now apply ms_sjoin_found | now apply Hm].
  - exists (settled w source_p parv mode args true
                    (channel_make w (arg parv 2))).
    split; [|now apply Hm].
    pose proof (ms_sjoin_made w source_p parv mode args Ha Hf) as E.
    cbv zeta in E. rewrite E, Ho.
    specialize (Hm true (channel_make w (arg parv 2)) Ho).
    unfold IsMember in Hm.
    destruct (Channel.members (settled _ _ _ _ _ _ _)); [discriminate|].
    reflexivity.
Qed.






End Members.

(** ** Channels that are newer, channels that are new *)

Section Joined.

Context `{K : Consts}.

Lemma join_member_flagged a :
  join_member a = join_flagged (keep_new_modes a).
Proof. reflexivity. Qed.

Lemma joined_nonempty keep l ms :
  ms <> [] -> fold_left (join_flagged keep) l ms <> [].
Proof.
  revert ms. induction l as [|m l IH]; intros ms Hms; [exact Hms|].
  cbn [fold_left]. apply IH. unfold join_flagged.
  destruct (existsb _ ms); [exact Hms|discriminate].
Qed.

(** C4. An SJOIN on an existing channel whose timestamp is non-zero and
    greater than the non-zero timestamp of the channel leaves the creation
    timestamp and the mode of the channel as they were; the members it
    adds carry no privilege flag, whatever sigils their tokens had; and
    unless the relay line is oversized the member list of the channel is
    the old one with every user the list names, in the order of the list,
    put in front of it without flags, so that every token that names a
    user reachable through the sender's link has that user in the channel
    afterwards. *)
Theorem newer_sjoin_joins_unprivileged w source_p parv mode args chptr :
  accepted source_p parv mode args ->
  hash_find_channel w (arg parv 2) = Some chptr ->
  Str.strtoumax (arg parv 1) <> 0%N ->
  Channel.creationtime chptr <> 0%N ->
  (Channel.creationtime chptr < Str.strtoumax (arg parv 1))%N ->
  exists chptr' added,
    channels (fst (ms_sjoin w source_p parv)) !! casefold (arg parv 2)
    = Some chptr'
    /\ Channel.creationtime chptr' = Channel.creationtime chptr
    /\ Channel.mode chptr' = Channel.mode chptr
    /\ Channel.members chptr' = added ++ Channel.members chptr
    /\ Forall (fun m => Membership.flags m = 0%N) added
    /\ (oversized source_p (reconciled w source_p parv mode false chptr)
        = false ->
        Channel.members chptr'
        = fold_left (join_flagged false)
                    (accepted_members w source_p (arg parv (args + 4)))
                    (Channel.members chptr))
    /\ (oversized source_p (reconciled w source_p parv mode false chptr)
        = false ->
        forall tok target_p,
          In tok (uid_tokens (arg parv (args + 4)) "") ->
          find_person w source_p (snd (status_prefix tok 0)) = Some target_p ->
          Client.from target_p = Client.from source_p ->
          IsMember target_p chptr' = true).
Proof.
  intros Hacc Hfound Hnew Hold Hlt.
  set (r := reconciled w source_p parv mode false chptr).
  assert (Hts : (Channel.creationtime chptr
                 < incoming_ts w parv (Channel.creationtime chptr))%N).
  { unfold incoming_ts.
    destruct (ignore_bogus_ts w); simpl; [|exact Hlt].
    destruct (_ <? 800000000)%N eqn:E; [|exact Hlt].
    apply N.ltb_lt in E.
    destruct (_ =? 0)%N eqn:E0; [apply N.eqb_eq in E0; contradiction|].
    lia. }
  assert (Ha : r_arb r = Build_Arbitration true false
                           (Channel.creationtime chptr)
                           (Channel.creationtime chptr)).
  { unfold r. rewrite reconciled_arb. apply arbitrate_newer; lia. }
  assert (Hc : r_chptr r = chptr).
  { unfold r. rewrite reconciled_chptr. fold r.
    rewrite <- reconciled_arb with (source_p := source_p) (mode := mode).
    fold r. rewrite Ha. simpl. unfold merge_modes. simpl.
    now destruct chptr. }
  assert (Hm : Channel.members (chan (fill w source_p r (arg parv (args + 4))))
               = fold_left (join_flagged false)
                           (accepted_members w source_p (arg parv (args + 4)))
                           (Channel.members chptr)).
  { rewrite fill_members, Ha, Hc, join_member_flagged. reflexivity. }
  destruct (fill_chan w source_p r (arg parv (args + 4)))
    as (added & Hfill & Hflags).
  rewrite Hc in Hfill.
  exists (settled w source_p parv mode args false chptr).
  unfold settled. fold r.
  destruct (oversized source_p r) eqn:Hlong.
  - exists []. rewrite Hc.
    split.
    { rewrite (ms_sjoin_found _ _ _ _ _ _ Hacc Hfound). unfold settled.
      fold r. now rewrite Hlong, Hc. }
    do 4 (split; [auto|]). split; discriminate.
  - exists added. rewrite <- Hm, Hfill.
    split.
    { rewrite (ms_sjoin_found _ _ _ _ _ _ Hacc Hfound). unfold settled.
      fold r. now rewrite Hlong, Hfill. }
    do 3 (split; [now destruct chptr|]).
    split; [apply Hflags; now rewrite Ha|].
    split; [reflexivity|].
    intros _ tok target_p Hin Hf Hfrom. rewrite <- Hfill.
    now apply fill_joins with (tok := tok).
Qed.

(** C8, amended. An SJOIN that names a channel not in the hash makes the
    channel with the timestamp of the message after the [ignore_bogus_ts]
    adjustment as its creation timestamp and with the mode of the message
    as its mode, nothing being merged.  When the relay line passes the
    length check, the channel is in the hash with the users the member
    list names as its members, each with the flags of its sigils, and it
    is freed again when the list names nobody; when the relay line is
    oversized the channel is in the hash without members. *)
Theorem new_channel_takes_incoming_ts_and_mode w source_p parv mode args :
  accepted source_p parv mode args ->
  hash_find_channel w (arg parv 2) = None ->
  let chptr := channel_make w (arg parv 2) in
  let after := channels (fst (ms_sjoin w source_p parv))
                 !! casefold (Channel.name chptr) in
  let named := accepted_members w source_p (arg parv (args + 4)) in
  let kept (members : list Membership.t) :=
    exists chptr',
      after = Some chptr'
      /\ Channel.creationtime chptr' = incoming_ts w parv (CurrentTime w)
      /\ Channel.mode chptr' = mode
      /\ Channel.members chptr' = members in
  if oversized source_p (reconciled w source_p parv mode true chptr)
  then kept []
  else match named with
       | [] => after = None
       | _ :: _ => kept (fold_left (join_flagged true) named [])
       end.
Proof.
  intros Hacc Hfound chptr after named kept.
  pose proof (ms_sjoin_made w source_p parv mode args Hacc Hfound) as Hl.
  cbv zeta in Hl. fold chptr after in Hl.
  destruct (settled_shape w source_p parv mode args true chptr)
    as (added & Hs & _).
  cbv zeta in Hs.
  change (Channel.creationtime chptr) with (CurrentTime w) in Hs.
  change (Channel.mode chptr) with (Mode.mk 0 0 "") in Hs.
  rewrite merge_modes_new in Hs. cbn in Hs.
  assert (Hm : Channel.members (settled w source_p parv mode args true chptr)
               = if oversized source_p
                      (reconciled w source_p parv mode true chptr)
                 then [] else fold_left (join_flagged true) named []).
  { unfold settled.
    destruct (oversized _ _).
    - now rewrite reconciled_members.
    - rewrite fill_members, reconciled_members, reconciled_arb,
        join_member_flagged.
      reflexivity. }
  destruct (oversized _ _).
  - exists (settled w source_p parv mode args true chptr).
    split; [exact Hl|]. rewrite Hs at 1 2. now split.
  - destruct named as [|m named'] eqn:En.
    + rewrite Hm in Hl. exact Hl.
    + assert (Hne : fold_left (join_flagged true) (m :: named') [] <> []).
      { cbn [fold_left]. apply joined_nonempty. discriminate. }
      exists (settled w source_p parv mode args true chptr).
      rewrite Hm in Hl.
      destruct (fold_left _ _ _) eqn:Ef; [contradiction|].
      split; [exact Hl|]. rewrite Hs at 1 2. now split.
Qed.

End Joined.

(** ** The lines of the side that lost the TS *)

Section Undo.

Context `{K : Consts}.

Lemma letters_snoc s c :
  list_ascii_of_string (s +:+ String c "") = list_ascii_of_string s ++ [c].
Proof. induction s as [|d s IH]; simpl; [reflexivity | now rewrite IH]. Qed.

Lemma repeat_snoc {A : Type} (x : A) n : repeat x n ++ [x] = repeat x (S n).
Proof. induction n as [|n IH]; simpl; [reflexivity | now rewrite IH]. Qed.

Lemma remove_ban_loop_lines header mlen c (blist : list Ban.t) :
  0 < MAXMODEPARAMS ->
  Forall (fun b => mlen + 1 + (Ban.len b + 3) + 2 <= IRCD_BUFSIZE) blist ->
  forall cur_len count letters masks rest letters' masks' out,
    remove_ban_loop header mlen c blist cur_len count letters masks
    = (rest, (letters', masks'), out) ->
    count = length masks ->
    (count = 0 -> cur_len = mlen) ->
    list_ascii_of_string letters = repeat c (length masks) ->
    list_ascii_of_string letters' = repeat c (length masks')
    /\ (blist <> [] \/ masks <> [] -> masks' <> [])
    /\ Forall (fun e => removal_header e = header
                        /\ removal_letters e = repeat c (length (removal_masks e))
                        /\ removal_masks e <> []) out.
Proof.
  intros Hpos Hfit. induction Hfit as [|ban blist Hb _ IH];
    intros cur_len count letters masks rest letters' masks' out; simpl.
  - intros [= <- <- <- <-] _ _ Hl. repeat split; auto. tauto.
  - destruct (remove_ban_loop _ _ _ blist _ _ _ _)
      as [[rest0 [l0 m0]] out0] eqn:E.
    intros [= <- <- <- <-] Hc Hcur Hl.
    destruct ((MAXMODEPARAMS <=? count)
              || (IRCD_BUFSIZE <? cur_len + 1 + (Ban.len ban + 4 - 1) + 2))
      eqn:Efull.
    + apply IH in E as (H1 & H2 & H3);
        [|reflexivity | discriminate | reflexivity].
      split; [exact H1|]. split; [intros _; apply H2; right; discriminate|].
      constructor; [|exact H3]. cbn.
      split; [reflexivity|]. split; [exact Hl|].
      intros ->. simpl in Hc. subst count.
      apply orb_true_iff in Efull as [F | F].
      * apply Nat.leb_le in F. lia.
      * apply Nat.ltb_lt in F. rewrite (Hcur eq_refl) in F. lia.
    + apply IH in E as (H1 & H2 & H3).
      * split; [exact H1|].
        split; [intros _; apply H2; right; now destruct masks|exact H3].
      * rewrite length_app. simpl. lia.
      * discriminate.
      * rewrite letters_snoc, Hl, length_app. simpl.
        rewrite Nat.add_1_r. apply repeat_snoc.
Qed.

(** X11. When MAXMODEPARAMS is positive and each mask of the list has room on a
    line of its own, every line [remove_ban_list] sends starts with
    [:<sender> MODE <channel> -], carries at least one mask, and has one
    letter [c] for each of its masks. *)
Theorem removal_lines_pair_letters_and_masks chptr source_p
        (blist : list Ban.t) c :
  0 < MAXMODEPARAMS ->
  Forall (fun b => Str.len (Client.name source_p)
                   + Str.len (Channel.name chptr) + 9 + (Ban.len b + 4) + 2
                   <= IRCD_BUFSIZE) blist ->
  Forall (fun e => removal_header e
                   = ":" +:+ Client.name source_p +:+ " MODE "
                     +:+ Channel.name chptr +:+ " -"
                   /\ removal_letters e = repeat c (length (removal_masks e))
                   /\ removal_masks e <> [])
         (snd (remove_ban_list chptr source_p blist c)).
Proof.
  intros Hpos Hfit. unfold remove_ban_list.
  destruct blist as [|ban blist]; [constructor|].
  change (length (ban :: blist) =? 0) with false. cbv iota.
  set (header := ":" +:+ Client.name source_p +:+ " MODE "
                 +:+ Channel.name chptr +:+ " -").
  destruct (remove_ban_loop _ _ _ _ _ _ _ _) as [[rest [l m]] out] eqn:E.
  apply (remove_ban_loop_lines header (Str.len header) c (ban :: blist) Hpos)
    in E as (H1 & H2 & H3); try reflexivity.
  - cbn [snd]. apply Forall_app. split; [exact H3|].
    repeat constructor; [exact H1|]. apply H2. left. discriminate.
  - eapply List.Forall_impl; [|exact Hfit]. intros b Hb. cbv beta in Hb.
    unfold header. rewrite !len_app.
    change (Str.len ":") with 1. change (Str.len " MODE ") with 6.
    change (Str.len " -") with 2. lia.
Qed.

Lemma status_of_letters o c m p sgn l :
  list_ascii_of_string m = sgn :: l ->
  status_sign (LocalModeStatus o c m p) = Some sgn
  /\ status_letters (LocalModeStatus o c m p) = l.
Proof.
  destruct m as [|s m]; [discriminate|]. simpl. intros [= -> ->]. auto.
Qed.

Lemma remove_a_mode_loop_lines origin chname mask flag
      (members : list Membership.t) :
  0 < MAXMODEPARAMS ->
  forall lmodebuf lpara ms lm lp out,
    remove_a_mode_loop origin chname mask flag members lmodebuf lpara
    = (ms, (lm, lp), out) ->
    list_ascii_of_string lmodebuf = "-"%char :: repeat flag (length lpara) ->
    length lpara < MAXMODEPARAMS ->
    list_ascii_of_string lm = "-"%char :: repeat flag (length lp)
    /\ length lp < MAXMODEPARAMS
    /\ flat_map status_names out ++ lp
       = lpara
         ++ map (fun m => Client.name (Membership.client_p m))
                (List.filter
                   (fun m => negb (N.land (Membership.flags m) mask =? 0)%N)
                   members)
    /\ Forall (fun e => status_sign e = Some "-"%char
                        /\ status_letters e
                           = repeat flag (length (status_names e))
                        /\ status_names e <> []) out.
Proof.
  intros Hpos. induction members as [|m members IH];
    intros lmodebuf lpara ms lm lp out; simpl.
  - intros [= <- <- <- <-] Hl Hn. simpl. rewrite app_nil_r. auto.
  - destruct (N.land (Membership.flags m) mask =? 0)%N; cbn [negb].
    + destruct (remove_a_mode_loop _ _ _ _ members lmodebuf lpara)
        as [[ms0 [l0 p0]] out0] eqn:E.
      intros [= <- <- <- <-] Hl Hn. eapply IH; eauto.
    + set (name := Client.name (Membership.client_p m)).
      assert (Hl' : list_ascii_of_string lmodebuf
                    = "-"%char :: repeat flag (length lpara) ->
                    list_ascii_of_string (lmodebuf +:+ String flag "")
                    = "-"%char :: repeat flag (length (lpara ++ [name]))).
      { intros Hl. rewrite letters_snoc, Hl, length_app. simpl.
        rewrite Nat.add_1_r. f_equal. apply repeat_snoc. }
      destruct (MAXMODEPARAMS <=? length (lpara ++ [name])) eqn:Efull.
      * destruct (remove_a_mode_loop _ _ _ _ members "-" [])
          as [[ms0 [l0 p0]] out0] eqn:E.
        intros [= <- <- <- <-] Hl Hn.
        apply IH in E as (H1 & H2 & H3 & H4); [|reflexivity | simpl; lia].
        apply Nat.leb_le in Efull.
        rewrite firstn_all2 by (rewrite length_app in *; simpl in *; lia).
        split; [exact H1|]. split; [exact H2|]. split.
        -- simpl in *. rewrite <- !app_assoc, H3. reflexivity.
        -- constructor; [|exact H4].
           destruct (status_of_letters origin chname
                       (lmodebuf +:+ String flag "") (lpara ++ [name])
                       "-"%char _ (Hl' Hl)) as [-> ->].
           cbn [status_names]. repeat split. now destruct lpara.
      * destruct (remove_a_mode_loop _ _ _ _ members _ (lpara ++ [name]))
          as [[ms0 [l0 p0]] out0] eqn:E.
        intros [= <- <- <- <-] Hl Hn.
        apply Nat.leb_gt in Efull.
        apply IH in E as (H1 & H2 & H3 & H4); [|now apply Hl' | exact Efull].
        split; [exact H1|]. split; [exact H2|]. split; [|exact H4].
        rewrite H3, <- app_assoc. reflexivity.
Qed.

(** X12. With MAXMODEPARAMS positive, the MODE lines of [remove_a_mode] name,
    in the order of the member list, exactly the members that had the flag,
    each of them once; every line starts with [-], has one letter [flag]
    for each of its names and at least one name; and the flag is cleared on
    every member while nothing else of the membership changes. *)
Theorem remove_a_mode_names_who_had_the_flag w chptr source_p mask flag :
  0 < MAXMODEPARAMS ->
  flat_map status_names (snd (remove_a_mode w chptr source_p mask flag))
  = map (fun m => Client.name (Membership.client_p m))
        (List.filter (fun m => negb (N.land (Membership.flags m) mask =? 0)%N)
                     (Channel.members chptr))
  /\ Forall (fun e => status_sign e = Some "-"%char
                      /\ status_letters e
                         = repeat flag (length (status_names e))
                      /\ status_names e <> [])
            (snd (remove_a_mode w chptr source_p mask flag))
  /\ Channel.members (fst (remove_a_mode w chptr source_p mask flag))
     = map (strip_flags mask) (Channel.members chptr).
Proof.
  intros Hpos. split; [|split].
  3: { rewrite remove_a_mode_fst. now destruct chptr. }
  all: unfold remove_a_mode;
    destruct (remove_a_mode_loop _ _ _ _ _ _ _) as [[ms [lm lp]] out] eqn:E;
    apply (remove_a_mode_loop_lines _ _ _ _ _ Hpos) in E
      as (H1 & H2 & H3 & H4); [|reflexivity | exact Hpos]; cbn [snd].
  - rewrite flat_map_app. simpl in H3. rewrite <- H3.
    destruct lp; simpl; now rewrite ?app_nil_r.
  - apply Forall_app. split; [exact H4|].
    destruct lp as [|p lp]; [constructor|]. repeat constructor.
    + apply (status_of_letters _ _ _ _ _ _ H1).
    + apply (status_of_letters _ _ _ _ _ _ H1).
    + discriminate.
Qed.

End Undo.

(** ** The relay lines *)

Section Relay.

Context `{K : Consts}.

Lemma relay_lines_app a b : relay_lines (a ++ b) = relay_lines a ++ relay_lines b.
Proof. apply flat_map_app. Qed.

Lemma grant_relay servername c target_p st :
  relay_lines (out (grant servername c target_p st)) = relay_lines (out st)
  /\ uid_buf (grant servername c target_p st) = uid_buf st.
Proof.
  unfold grant. cbn [Raw.putc fst snd].
  destruct (MAXMODEPARAMS <=? _); cbn [out uid_buf]; [|auto].
  rewrite relay_lines_app. simpl. now rewrite app_nil_r.
Qed.

Lemma grants_relay servername target_p fl st :
  relay_lines (out (grants servername target_p fl st)) = relay_lines (out st)
  /\ uid_buf (grants servername target_p fl st) = uid_buf st.
Proof.
  unfold grants.
  destruct (has fl CHFL_CHANOP), (has fl CHFL_HALFOP), (has fl CHFL_VOICE);
    repeat match goal with
           | |- context [grant ?s ?c ?t ?x] =>
               destruct (grant_relay s c t x) as [-> ->]
           end; auto.
Qed.

Lemma join_user_relay target_p fl many st :
  relay_lines (out (join_user target_p fl many st)) = relay_lines (out st)
  /\ uid_buf (join_user target_p fl many st) = uid_buf st
  /\ modebuf (join_user target_p fl many st) = modebuf st
  /\ Channel.name (chan (join_user target_p fl many st))
     = Channel.name (chan st).
Proof.
  unfold join_user. destruct (IsMember _ _); [auto|].
  cbn [out uid_buf modebuf chan]. rewrite !relay_lines_app.
  split; [|split; [reflexivity|split; [reflexivity|now destruct (chan st)]]].
  destruct (Str.is_empty _); simpl; now rewrite app_nil_r.
Qed.

(** One turn of the loop as the relay line sees it. *)
Lemma sjoin_user_relay w source_p servername a parabuf many st tok :
  match accepted_member w source_p tok with
  | None => sjoin_user w source_p servername a parabuf many st tok = st
  | Some m =>
      let st' := sjoin_user w source_p servername a parabuf many st tok in
      let flush :=
        IRCD_BUFSIZE
        <? Str.len (uid_buf st)
           + (Str.len (Client.id (snd m))
              + Str.len (uid_prefix_of (given_flags a (fst m)))) + 2 in
      Channel.name (chan st') = Channel.name (chan st)
      /\ relay_lines (out st')
         = relay_lines (out st) ++ (if flush then [uid_buf st] else [])
      /\ uid_buf st'
         = (if flush
            then sjoin_header source_p (tstosend a) (Channel.name (chan st))
                              (Raw.cstr (modebuf st)) parabuf
            else uid_buf st) +:+ unit_of a m +:+ " "
  end.
Proof.
  unfold sjoin_user, accepted_member.
  destruct (status_prefix tok 0) as [fl s]. cbn [fst snd].
  destruct (find_person w source_p s) as [target_p|]; [|reflexivity].
  destruct (String.eqb (Client.from target_p) (Client.from source_p));
    [|reflexivity].
  cbn [negb fst snd].
  assert (Ep : (if keep_new_modes a then uid_prefix_of fl else "")
               = uid_prefix_of (given_flags a fl))
    by (unfold given_flags; now destruct (keep_new_modes a)).
  rewrite Ep.
  match goal with
  | |- context [grants ?sv ?t ?f ?x] =>
      destruct (grants_relay sv t f x) as [-> ->]; rewrite (grants_chan sv t f x)
  end.
  match goal with
  | |- context [join_user ?t ?f ?b ?x] =>
      destruct (join_user_relay t f b x) as (-> & -> & _ & ->)
  end.
  unfold relay_token, unit_of. cbn [chan out uid_buf fst snd].
  rewrite relay_lines_app.
  split; [reflexivity|]. split.
  - f_equal. now destruct (IRCD_BUFSIZE <? _).
  - now rewrite !app_assoc_s.
Qed.

Lemma trailed_one h u : h +:+ u +:+ " " = h +:+ Str.trailed [u].
Proof. cbn [Str.trailed fold_right]. now rewrite app_empty_r. Qed.

Lemma trailed_snoc h us u :
  (h +:+ Str.trailed us) +:+ u +:+ " " = h +:+ Str.trailed (us ++ [u]).
Proof.
  rewrite trailed_app. cbn [Str.trailed fold_right].
  now rewrite ?app_assoc_s, ?app_empty_r.
Qed.

Lemma accepted_member_found w source_p tok m :
  accepted_member w source_p tok = Some m ->
  exists s, find_person w source_p s = Some (snd m).
Proof.
  unfold accepted_member.
  destruct (find_person w source_p _) as [t|] eqn:E; [|discriminate].
  destruct (String.eqb _ _); [|discriminate].
  intros [= <-]. eauto.
Qed.

Lemma relay_fold w source_p servername a parabuf many cname toks :
  forall st h us,
    Channel.name (chan st) = cname ->
    uid_buf st = h +:+ Str.trailed us ->
    let st' := fold_left (sjoin_user w source_p servername a parabuf many)
                         toks st in
    exists cs h' us',
      Channel.name (chan st') = cname
      /\ relay_lines (out st') = relay_lines (out st) ++ map render cs
      /\ uid_buf st' = h' +:+ Str.trailed us'
      /\ flat_map snd cs ++ us'
         = us ++ map (unit_of a)
                     (flat_map (fun tok =>
                                  match accepted_member w source_p tok with
                                  | Some m => [m]
                                  | None => []
                                  end) toks)
      /\ Forall (fun hd => hd = h
                           \/ exists modes,
                               hd = sjoin_header source_p (tstosend a) cname
                                                 modes parabuf)
                (map fst cs ++ [h'])
      /\ ((forall s c, find_person w source_p s = Some c ->
                       Str.len (Client.id c) <= IDLEN) ->
          us <> [] \/ Str.len h + IDLEN + 3 + 2 <= IRCD_BUFSIZE ->
          Forall (fun c => snd c <> []) cs
          /\ (us' <> [] \/ Str.len h' + IDLEN + 3 + 2 <= IRCD_BUFSIZE)).
Proof.
  induction toks as [|tok toks IH]; intros st h us Hn Hb; cbn [fold_left].
  - exists [], h, us. cbn [map flat_map app]. rewrite !app_nil_r.
    repeat split; auto; try (repeat constructor; now left).
  - pose proof (sjoin_user_relay w source_p servername a parabuf many st tok)
      as Hstep.
    cbn [flat_map].
    destruct (accepted_member w source_p tok) as [m|] eqn:Em.
    2: { rewrite Hstep. cbn [app]. now apply IH. }
    cbv zeta in Hstep. destruct Hstep as (Hn1 & Hl1 & Hb1).
    set (st1 := sjoin_user w source_p servername a parabuf many st tok) in *.
    destruct (accepted_member_found _ _ _ _ Em) as [s Hs].
    pose proof (uid_prefix_of_len (given_flags a (fst m))) as Hpre.
    destruct (IRCD_BUFSIZE <? _) eqn:Efl.
    + rewrite Hn, trailed_one in Hb1.
      destruct (IH st1 _ _ (eq_trans Hn1 Hn) Hb1)
        as (cs & h' & us' & G1 & G2 & G3 & G4 & G5 & G6).
      exists ((h, us) :: cs), h', us'.
      split; [exact G1|]. split.
      { rewrite G2, Hl1, <- app_assoc. cbn [map app].
        unfold render at 1. cbn [fst snd]. now rewrite Hb. }
      split; [exact G3|]. split.
      { cbn [flat_map snd map app]. rewrite <- app_assoc, G4. reflexivity. }
      split.
      { cbn [map fst app]. constructor; [now left|].
        eapply List.Forall_impl; [|exact G5].
        intros hd [-> | Hm]; [right; eauto | now right]. }
      intros Hid HC.
      assert (Hne : [unit_of a m] <> []) by discriminate.
      destruct (G6 Hid (or_introl Hne)) as [G7 G8].
      split; [|exact G8]. constructor; [|exact G7]. cbn [snd].
      destruct HC as [HC | HC]; [exact HC|]. intros ->.
      apply Nat.ltb_lt in Efl. rewrite Hb in Efl.
      cbn [Str.trailed fold_right] in Efl. rewrite app_empty_r in Efl.
      specialize (Hid _ _ Hs). lia.
    + rewrite Hb, trailed_snoc in Hb1.
      destruct (IH st1 _ _ (eq_trans Hn1 Hn) Hb1)
        as (cs & h' & us' & G1 & G2 & G3 & G4 & G5 & G6).
      exists cs, h', us'.
      split; [exact G1|]. split.
      { rewrite G2, Hl1, app_nil_r. reflexivity. }
      split; [exact G3|]. split.
      { rewrite G4, <- app_assoc. reflexivity. }
      split; [exact G5|].
      intros Hid _. apply (G6 Hid). left. now destruct us.
Qed.

Lemma relay_lines_local l :
  Forall (fun e => ~ is_relay e) l -> relay_lines l = [].
Proof.
  induction 1 as [|e l He _ IH]; [reflexivity|].
  unfold relay_lines in *. cbn [flat_map]. rewrite IH.
  destruct e; simpl in *; tauto.
Qed.

Lemma reconciled_ts w source_p parv mode (isnew : bool) chptr :
  Channel.creationtime (r_chptr (reconciled w source_p parv mode isnew chptr))
  = tstosend (r_arb (reconciled w source_p parv mode isnew chptr)).
Proof.
  rewrite reconciled_chptr, reconciled_arb.
  destruct (arbitrate_ts isnew
              (incoming_ts w parv (Channel.creationtime chptr))
              (Channel.creationtime chptr)) as [-> _].
  destruct (keep_our_modes _); [now destruct chptr|].
  rewrite lose_ts_fst. now destruct chptr.
Qed.

(** X13. The relay lines of an SJOIN that is not oversized carry the members
    the sender introduced, all of them, in the order of the member list,
    each of them once: every line is a head naming the channel and the
    creation time it is left with, followed by units of sigils and id; the
    lines sent inside the loop are sent as they stand, the last one without
    its final blank, and it is left out when the channel was new and is
    empty or when the member list is the empty string. With ids within
    IDLEN and room for two sigils in CMEMBER_STATUS_FLAGS_LEN, no line sent
    inside the loop is a bare head. *)
Theorem relay_lines_carry_the_members w source_p parv mode args :
  accepted source_p parv mode args ->
  let r := reconciled w source_p parv mode (is_new w parv)
                      (channel_of w parv) in
  let c' := settled w source_p parv mode args (is_new w parv)
                    (channel_of w parv) in
  oversized source_p r = false ->
  exists cs h us,
    relay_lines (snd (ms_sjoin w source_p parv))
    = map render cs
      ++ (if ((length (Channel.members c') =? 0) && is_new w parv)
             || Str.is_empty (arg parv (args + 4))
          then [] else [Str.chop (render (h, us))])
    /\ flat_map snd cs ++ us
       = map (unit_of (r_arb r))
             (accepted_members w source_p (arg parv (args + 4)))
    /\ Forall (relay_head source_p c' (r_parabuf r)) (map fst cs ++ [h])
    /\ ((forall s c, find_person w source_p s = Some c ->
                     Str.len (Client.id c) <= IDLEN) ->
        2 <= CMEMBER_STATUS_FLAGS_LEN ->
        Forall (fun c => snd c <> []) cs).
Proof.
  intros (Hs & Hn & Hp) r c' Ho.
  pose proof (reconciled_ts w source_p parv mode (is_new w parv)
                            (channel_of w parv)) as Hts.
  pose proof (reconcile_local w source_p (arg parv 2) (arg parv 3)
                (Str.strtoumax (arg parv 1)) mode (is_new w parv)
                (channel_of w parv)) as Hloc.
  fold (reconciled w source_p parv mode (is_new w parv) (channel_of w parv))
    in Hloc.
  fold r in Hts, Hloc.
  assert (Hc' : c' = chan (fill w source_p r (arg parv (args + 4))))
    by (unfold c', settled; fold r; now rewrite Ho).
  destruct (fill_chan w source_p r (arg parv (args + 4))) as (added & Ec & _).
  assert (Hname : Channel.name c' = Channel.name (r_chptr r))
    by (rewrite Hc', Ec; now destruct (r_chptr r)).
  assert (Htime : Channel.creationtime c' = tstosend (r_arb r))
    by (rewrite Hc', Ec, <- Hts; now destruct (r_chptr r)).
  unfold ms_sjoin. rewrite Hs, Hn, Hp. cbn [negb].
  unfold oversized in Ho.
  change (reconcile w source_p (arg parv 2) (arg parv 3)
            (Str.strtoumax (arg parv 1)) mode
            (if hash_find_channel w (arg parv 2) is None then true else false)
            (default (channel_make w (arg parv 2))
                     (hash_find_channel w (arg parv 2)))) with r.
  rewrite Ho. rewrite <- Hc'.
  change (if hash_find_channel w (arg parv 2) is None then true else false)
    with (is_new w parv).
  rewrite (Nat.add_comm 4 args).
  set (st0 := {| chan := r_chptr r; uid_buf := first_header source_p r;
                 modebuf := Raw.poke (r_modebuf r) 0 "+"; mbuf := 1;
                 para := []; out := r_out r |}).
  assert (Efill : fold_left
                    (sjoin_user w source_p (origin_name w source_p) (r_arb r)
                       (r_parabuf r)
                       (2 <=? length (uid_tokens (arg parv (args + 4)) "")))
                    (uid_tokens (arg parv (args + 4)) "") st0
                  = fill w source_p r (arg parv (args + 4)))
    by reflexivity.
  assert (Hb0 : uid_buf st0
                = first_header source_p r +:+ Str.trailed [])
    by (cbn [uid_buf st0 Str.trailed fold_right]; now rewrite app_empty_r).
  destruct (relay_fold w source_p (origin_name w source_p) (r_arb r)
              (r_parabuf r)
              (2 <=? length (uid_tokens (arg parv (args + 4)) ""))
              (Channel.name (r_chptr r))
              (uid_tokens (arg parv (args + 4)) "") st0 _ _ eq_refl Hb0)
    as (cs & h & us & _ & G2 & G3 & G4 & G5 & G6).
  rewrite Efill in G2, G3. clear Efill.
  fold (accepted_members w source_p (arg parv (args + 4))) in G4.
  set (st := fill w source_p r (arg parv (args + 4))) in *.
  cbn [out st0] in G2. rewrite (relay_lines_local _ Hloc) in G2.
  cbn [app] in G2, G4.
  exists cs, h, us.
  split; [|split; [exact G4|split]].
  - destruct ((length (Channel.members c') =? 0) && is_new w parv);
      [|destruct (Str.is_empty _)]; cbn [snd orb];
      rewrite ?relay_lines_app, G2;
      (destruct (length (para st) =? 0); cbn [relay_lines flat_map app];
       rewrite ?app_nil_r; try reflexivity).
    all: unfold render; cbn [fst snd]; now rewrite G3.
  - eapply List.Forall_impl; [|exact G5].
    intros hd Hhd. unfold relay_head. rewrite Hname, Htime.
    destruct Hhd as [-> | Hm]; [|exact Hm].
    exists (Raw.cstr (r_modebuf r)). reflexivity.
  - intros Hid HF. apply (G6 Hid). right.
    unfold long_sjoin in Ho. apply Nat.leb_gt in Ho. lia.
Qed.

End Relay.

(** ** The MODE lines of the member list *)

Section Grants.

Context `{K : Consts}.

Lemma combine_fst_snd {A B : Type} (l : list (A * B)) :
  combine (map fst l) (map snd l) = l.
Proof. induction l as [|[a b] l IH]; simpl; [reflexivity | now rewrite IH]. Qed.

(** What the loop has queued: [pend] holds the letters behind the [+] of
    [modebuf], each with the name queued for it in [para]. *)
Lemma grant_pending servername c target_p st pend :
  0 < MAXMODEPARAMS -> c <> Str.NUL ->
  written (modebuf st, mbuf st) ("+"%char :: map fst pend) ->
  para st = map snd pend ->
  Forall (fun p : ascii * string => fst p <> Str.NUL) pend ->
  length pend < MAXMODEPARAMS ->
  let st' := grant servername c target_p st in
  exists evs pend',
    out st' = out st ++ evs
    /\ written (modebuf st', mbuf st') ("+"%char :: map fst pend')
    /\ para st' = map snd pend'
    /\ Forall (fun p : ascii * string => fst p <> Str.NUL) pend'
    /\ length pend' < MAXMODEPARAMS
    /\ flat_map status_pairs evs ++ pend' = pend ++ [(c, Client.name target_p)]
    /\ Forall (fun e => status_sign e = Some "+"%char
                        /\ length (status_letters e)
                           = length (status_names e)
                        /\ status_names e <> []) evs.
Proof.
  intros Hpos Hc Hw Hp Hn Hl. unfold grant.
  pose proof (written_putc _ _ c Hw) as Hw'.
  set (pend2 := pend ++ [(c, Client.name target_p)]).
  assert (E1 : ("+"%char :: map fst pend) ++ [c] = "+"%char :: map fst pend2)
    by (unfold pend2; now rewrite map_app).
  assert (E2 : para st ++ [Client.name target_p] = map snd pend2)
    by (unfold pend2; now rewrite map_app, Hp).
  assert (Hn2 : Forall (fun p : ascii * string => fst p <> Str.NUL) pend2)
    by (apply Forall_app; split; [exact Hn | repeat constructor; exact Hc]).
  assert (Hl2 : length pend2 = S (length pend))
    by (unfold pend2; rewrite length_app; simpl; lia).
  rewrite E1 in Hw'. rewrite E2.
  destruct (Raw.putc (modebuf st, mbuf st) c) as [buf i] eqn:Eput.
  rewrite length_map.
  destruct (MAXMODEPARAMS <=? length pend2) eqn:Efull.
  - apply Nat.leb_le in Efull. cbn [Raw.putc fst snd out modebuf mbuf para].
    exists [LocalModeStatus servername (Channel.name (chan st))
                            (Raw.cstr (Raw.poke buf i Str.NUL))
                            (firstn MAXMODEPARAMS (map snd pend2))], [].
    split; [reflexivity|].
    split; [exact (written_putc (Raw.poke buf i Str.NUL, 0) [] "+"%char
                                (written_start _))|].
    split; [reflexivity|]. split; [constructor|]. split; [exact Hpos|].
    rewrite firstn_all2 by (rewrite length_map; lia).
    assert (Ec : Raw.cstr (Raw.poke buf i Str.NUL)
                 = String "+" (string_of_list_ascii (map fst pend2))).
    { apply (written_cstr (buf, i) ("+"%char :: map fst pend2) Hw').
      constructor; [discriminate|].
      apply Forall_map. exact Hn2. }
    rewrite Ec. unfold status_pairs.
    cbn [flat_map status_letters status_names status_sign].
    rewrite list_ascii_of_string_of_list_ascii, combine_fst_snd, !app_nil_r.
    split; [reflexivity|]. constructor; [|constructor].
    cbn [status_letters status_names status_sign].
    rewrite list_ascii_of_string_of_list_ascii.
    split; [reflexivity|]. split; [now rewrite !length_map|].
    unfold pend2. now destruct pend.
  - apply Nat.leb_gt in Efull. cbn [out modebuf mbuf para].
    exists [], pend2. rewrite app_nil_r.
    split; [reflexivity|]. split; [exact Hw'|]. split; [reflexivity|].
    split; [exact Hn2|]. split; [exact Efull|].
    split; [reflexivity | constructor].
Qed.

Lemma queue_step_refl st pend : queue_step st st pend pend [].
Proof. exists []. rewrite !app_nil_r. repeat split. constructor. Qed.

Lemma queue_step_trans st st1 st2 p p1 p2 a1 a2 :
  queue_step st st1 p p1 a1 -> queue_step st1 st2 p1 p2 a2 ->
  queue_step st st2 p p2 (a1 ++ a2).
Proof.
  intros (e1 & O1 & F1 & G1) (e2 & O2 & F2 & G2). exists (e1 ++ e2).
  split; [rewrite O2, O1; now rewrite app_assoc|]. split.
  - rewrite flat_map_app, <- app_assoc, F2, app_assoc, F1.
    now rewrite app_assoc.
  - apply Forall_app. now split.
Qed.

Lemma grant_step servername c target_p st pend (b : bool) :
  0 < MAXMODEPARAMS -> c <> Str.NUL -> queued st pend ->
  let st' := if b then grant servername c target_p st else st in
  exists pend',
    queued st' pend'
    /\ queue_step st st' pend pend'
                  (if b then [(c, Client.name target_p)] else []).
Proof.
  intros Hpos Hc Hq. destruct b; cbv zeta.
  - destruct Hq as (Hw & Hp & Hn & Hl).
    destruct (grant_pending servername c target_p st pend Hpos Hc Hw Hp Hn Hl)
      as (evs & pend' & O & W & P & N & L & F & G).
    exists pend'. split; [exact (conj W (conj P (conj N L)))|].
    exists evs. split; [exact O|]. split; [exact F|].
    eapply List.Forall_impl; [|exact G]. auto.
  - exists pend. split; [exact Hq | apply queue_step_refl].
Qed.

Lemma grants_step servername target_p fl st pend :
  0 < MAXMODEPARAMS -> queued st pend ->
  exists pend',
    queued (grants servername target_p fl st) pend'
    /\ queue_step st (grants servername target_p fl st) pend pend'
         ((if has fl CHFL_CHANOP then [("o"%char, Client.name target_p)]
           else [])
          ++ (if has fl CHFL_HALFOP then [("h"%char, Client.name target_p)]
              else [])
          ++ (if has fl CHFL_VOICE then [("v"%char, Client.name target_p)]
              else [])).
Proof.
  intros Hpos Hq. unfold grants.
  destruct (grant_step servername "o" target_p st pend (has fl CHFL_CHANOP)
              Hpos ltac:(discriminate) Hq) as (p1 & Q1 & S1).
  cbv zeta in Q1, S1.
  destruct (grant_step servername "h" target_p _ p1 (has fl CHFL_HALFOP)
              Hpos ltac:(discriminate) Q1) as (p2 & Q2 & S2).
  cbv zeta in Q2, S2.
  destruct (grant_step servername "v" target_p _ p2 (has fl CHFL_VOICE)
              Hpos ltac:(discriminate) Q2) as (p3 & Q3 & S3).
  cbv zeta in Q3, S3.
  exists p3. split; [exact Q3|].
  eapply queue_step_trans; [exact S1|].
  eapply queue_step_trans; [exact S2 | exact S3].
Qed.

Lemma sjoin_user_step w source_p servername a parabuf many st tok pend :
  0 < MAXMODEPARAMS -> queued st pend ->
  let st' := sjoin_user w source_p servername a parabuf many st tok in
  exists pend',
    queued st' pend'
    /\ queue_step st st' pend pend'
         (match accepted_member w source_p tok with
          | Some m => grants_of a m
          | None => []
          end).
Proof.
  intros Hpos Hq. unfold sjoin_user, accepted_member.
  destruct (status_prefix tok 0) as [fl s]. cbn [fst snd].
  destruct (find_person w source_p s) as [target_p|];
    [|exists pend; split; [exact Hq | apply queue_step_refl]].
  destruct (String.eqb (Client.from target_p) (Client.from source_p));
    cbn [negb];
    [|exists pend; split; [exact Hq | apply queue_step_refl]].
  set (st1 := join_user _ _ _ _).
  assert (Q1 : queued st1 pend).
  { unfold st1, join_user, relay_token, queued in *.
    destruct (IsMember _ _); exact Hq. }
  assert (S1 : queue_step st st1 pend pend []).
  { unfold st1, join_user, relay_token.
    destruct (IsMember _ _); cbn [chan out].
    - eexists. split; [reflexivity|]. rewrite app_nil_r.
      destruct (IRCD_BUFSIZE <? _); simpl; (split; [reflexivity|]);
        repeat (apply List.Forall_cons; [intros []|]); apply List.Forall_nil.
    - eexists. split; [rewrite <- app_assoc; reflexivity|].
      rewrite app_nil_r.
      destruct (IRCD_BUFSIZE <? _), (Str.is_empty _); simpl;
        (split; [reflexivity|]);
        repeat (apply List.Forall_cons; [intros []|]); apply List.Forall_nil. }
  destruct (grants_step servername target_p
              (if keep_new_modes a then fl else 0%N) st1 pend Hpos Q1)
    as (pend' & Q2 & S2).
  exists pend'. split; [exact Q2|].
  apply (queue_step_trans _ _ _ _ _ _ [] _ S1 S2).
Qed.

Lemma fill_step w source_p servername a parabuf many toks :
  0 < MAXMODEPARAMS ->
  forall st pend,
    queued st pend ->
    let st' := fold_left (sjoin_user w source_p servername a parabuf many)
                         toks st in
    exists pend',
      queued st' pend'
      /\ queue_step st st' pend pend'
           (flat_map (grants_of a)
              (flat_map (fun tok =>
                           match accepted_member w source_p tok with
                           | Some m => [m]
                           | None => []
                           end) toks)).
Proof.
  intros Hpos. induction toks as [|tok toks IH]; intros st pend Hq;
    cbn [fold_left flat_map].
  - exists pend. split; [exact Hq | apply queue_step_refl].
  - destruct (sjoin_user_step w source_p servername a parabuf many st tok pend
                Hpos Hq) as (p1 & Q1 & S1).
    cbv zeta in Q1, S1.
    destruct (IH _ p1 Q1) as (p2 & Q2 & S2).
    exists p2. split; [exact Q2|].
    rewrite flat_map_app.
    replace (flat_map (grants_of a)
               match accepted_member w source_p tok with
               | Some m => [m]
               | None => []
               end)
      with (match accepted_member w source_p tok with
            | Some m => grants_of a m
            | None => []
            end)
      by (destruct (accepted_member w source_p tok); simpl;
          now rewrite ?app_nil_r).
    eapply queue_step_trans; [exact S1 | exact S2].
Qed.

(** X14. With MAXMODEPARAMS positive, the MODE lines an SJOIN that is not
    oversized sends behind those of the reconciliation grant, in the order
    of the member list, exactly the privileges of the members the sender
    introduced: [o], [h], [v] in this order for the flags a member is given,
    each letter with the name of the member; every such line starts with
    [+] and has one letter for each of its names. A member that was on the
    channel already is named all the same. *)
Theorem grant_lines_name_the_privileged w source_p parv mode args :
  0 < MAXMODEPARAMS ->
  accepted source_p parv mode args ->
  let r := reconciled w source_p parv mode (is_new w parv)
                      (channel_of w parv) in
  oversized source_p r = false ->
  exists evs,
    snd (ms_sjoin w source_p parv) = r_out r ++ evs
    /\ flat_map status_pairs evs
       = flat_map (grants_of (r_arb r))
                  (accepted_members w source_p (arg parv (args + 4)))
    /\ Forall (fun e => is_status e -> grant_line e) evs.
Proof.
  intros Hpos (Hs & Hn & Hp) r Ho.
  unfold ms_sjoin. rewrite Hs, Hn, Hp. cbn [negb].
  unfold oversized in Ho.
  change (reconcile w source_p (arg parv 2) (arg parv 3)
            (Str.strtoumax (arg parv 1)) mode
            (if hash_find_channel w (arg parv 2) is None then true else false)
            (default (channel_make w (arg parv 2))
                     (hash_find_channel w (arg parv 2)))) with r.
  rewrite Ho. unfold fill.
  set (st0 := {| chan := r_chptr r; uid_buf := first_header source_p r;
                 modebuf := Raw.poke (r_modebuf r) 0 "+"; mbuf := 1;
                 para := []; out := r_out r |}).
  assert (Q0 : queued st0 []).
  { split; [apply (written_putc (r_modebuf r, 0) [] "+"%char), written_start|].
    split; [reflexivity|]. split; [constructor | exact Hpos]. }
  destruct (fill_step w source_p (origin_name w source_p) (r_arb r)
              (r_parabuf r)
              (2 <=? length (uid_tokens (arg parv (args + 4)) "")) 
              (uid_tokens (arg parv (args + 4)) "") Hpos st0 [] Q0)
    as (pend & (Hw & Hpa & Hnn & Hl) & (evs & O & F & G)).
  cbv zeta in *. fold (accepted_members w source_p (arg parv (args + 4))) in F.
  set (st := fold_left _ _ st0) in *.
  set (status := if length (para st) =? 0 then [] else _).
  assert (Hst : flat_map status_pairs status = pend
                /\ Forall (fun e => is_status e -> grant_line e) status).
  { unfold status. rewrite Hpa, length_map.
    destruct pend as [|p pend]; [split; [reflexivity | constructor]|].
    cbn [length Nat.eqb flat_map].
    assert (Ec : Raw.cstr (Raw.poke (modebuf st) (mbuf st) Str.NUL)
                 = String "+" (string_of_list_ascii (map fst (p :: pend)))).
    { apply (written_cstr (modebuf st, mbuf st) _ Hw).
      constructor; [discriminate|]. apply Forall_map. exact Hnn. }
    rewrite Ec. unfold status_pairs, grant_line.
    cbn [status_letters status_names status_sign].
    rewrite list_ascii_of_string_of_list_ascii, combine_fst_snd, app_nil_r.
    split; [reflexivity|].
    apply List.Forall_cons; [|apply List.Forall_nil]. intros _.
    cbn [status_letters status_names status_sign].
    rewrite list_ascii_of_string_of_list_ascii.
    split; [reflexivity|]. split; [now rewrite !length_map | discriminate]. }
  destruct Hst as [Hs1 Hs2].
  cbn [out st0] in O. cbn [app] in F.
  destruct (_ && _); [|destruct (Str.is_empty _)]; cbn [snd]; rewrite O.
  - exists (evs ++ status). split; [now rewrite app_assoc|].
    rewrite flat_map_app, Hs1, F. split; [reflexivity|].
    apply Forall_app. now split.
  - exists (evs ++ status). split; [now rewrite app_assoc|].
    rewrite flat_map_app, Hs1, F. split; [reflexivity|].
    apply Forall_app. now split.
  - eexists ((evs ++ status) ++ [_]).
    split; [now rewrite !app_assoc|].
    rewrite !flat_map_app, Hs1, F. cbn. rewrite app_nil_r.
    split; [reflexivity|].
    rewrite !Forall_app. split; [split; assumption|].
    apply List.Forall_cons; [intros [] | apply List.Forall_nil].
Qed.

End Grants.

(** ** Reading a relay line back *)

Section ReadBack.

Context `{K : Consts}.

Lemma uid_tokens_last p : forall cur,
  no_blank p ->
  uid_tokens p cur = if Str.is_empty (cur +:+ p) then [] else [cur +:+ p].
Proof.
  induction p as [|c p IH]; intros cur Hp.
  - now rewrite app_empty_r.
  - destruct Hp as [Hc Hp]. simpl.
    destruct (Ascii.eqb_spec c " "); [contradiction|].
    rewrite IH by exact Hp. now rewrite app_assoc_s.
Qed.

Lemma tokens_spaced us : forall u,
  Forall (fun p => p <> "" /\ no_blank p) us -> u <> "" -> no_blank u ->
  uid_tokens (Str.trailed us +:+ u) "" = us ++ [u].
Proof.
  induction us as [|p us IH]; intros u Hus Hu Hb.
  - cbn [Str.trailed fold_right app]. rewrite app_empty_l.
    rewrite uid_tokens_last by exact Hb. rewrite app_empty_l.
    now destruct u.
  - inversion Hus as [|? ? [Hp Hpb] Hus']; subst.
    cbn [Str.trailed fold_right]. rewrite !app_assoc_s.
    rewrite uid_tokens_word by exact Hpb. rewrite app_empty_l.
    fold (Str.trailed us). rewrite IH by assumption.
    now destruct p.
Qed.

Lemma tokens_chopped us :
  Forall (fun p => p <> "" /\ no_blank p) us ->
  uid_tokens (Str.chop (Str.trailed us)) "" = us.
Proof.
  intros Hus. induction us as [|u us' _] using rev_ind.
  - reflexivity.
  - apply Forall_app in Hus as [Hus' Hu].
    inversion Hu as [|? ? [Hne Hb] _]; subst.
    rewrite trailed_app. cbn [Str.trailed fold_right].
    rewrite app_empty_r, <- !app_assoc_s.
    rewrite (chop_snoc (Str.trailed us' +:+ u) " ").
    now apply tokens_spaced.
Qed.

Lemma status_prefix_stop s fl : no_sigil s -> status_prefix s fl = (fl, s).
Proof.
  destruct s as [|c s]; [reflexivity|]. intros (H1 & H2 & H3).
  destruct c as [[] [] [] [] [] [] [] []]; try reflexivity;
    exfalso; auto.
Qed.

Lemma no_blank_app s t : no_blank s -> no_blank t -> no_blank (s +:+ t).
Proof.
  induction s as [|c s IH]; intros Hs Ht; [now rewrite app_empty_l|].
  rewrite app_cons. destruct Hs. split; auto.
Qed.

Lemma uid_prefix_no_blank fl : no_blank (uid_prefix_of fl).
Proof.
  unfold uid_prefix_of.
  destruct (has fl CHFL_CHANOP), (has fl CHFL_HALFOP), (has fl CHFL_VOICE);
    vm_compute; repeat split; discriminate.
Qed.

Lemma has_lor a b c : has (N.lor b a) c = has b c || has a c.
Proof.
  unfold has, nonzero. rewrite N.land_lor_distr_l.
  destruct (N.eqb_spec (N.land b c) 0) as [-> | Hb]; cbn [negb orb].
  - now rewrite N.lor_0_l.
  - apply negb_true_iff, N.eqb_neq. intros E.
    apply N.lor_eq_0_iff in E. tauto.
Qed.

Lemma has_self a : a <> 0%N -> has a a = true.
Proof.
  intros Ha. unfold has, nonzero. rewrite N.land_diag.
  now apply negb_true_iff, N.eqb_neq.
Qed.

Lemma has_apart a b : N.land a b = 0%N -> has a b = false.
Proof. intros E. unfold has, nonzero. now rewrite E. Qed.

Lemma has_none c : has 0 c = false.
Proof. reflexivity. Qed.

Lemma unit_read_back a (m : N * Client.t) :
  flags_apart -> no_sigil (Client.id (snd m)) ->
  let d := status_prefix (unit_of a m) 0 in
  snd d = Client.id (snd m)
  /\ has (fst d) CHFL_CHANOP = has (given_flags a (fst m)) CHFL_CHANOP
  /\ has (fst d) CHFL_HALFOP = has (given_flags a (fst m)) CHFL_HALFOP
  /\ has (fst d) CHFL_VOICE = has (given_flags a (fst m)) CHFL_VOICE.
Proof.
  intros (O & H & V & OH & OV & HV) Hid. unfold unit_of, uid_prefix_of.
  assert (HO : N.land CHFL_HALFOP CHFL_CHANOP = 0%N)
    by now rewrite N.land_comm.
  assert (VO : N.land CHFL_VOICE CHFL_CHANOP = 0%N)
    by now rewrite N.land_comm.
  assert (VH : N.land CHFL_VOICE CHFL_HALFOP = 0%N)
    by now rewrite N.land_comm.
  pose proof (has_self _ O) as SO. pose proof (has_self _ H) as SH.
  pose proof (has_self _ V) as SV.
  apply has_apart in OH, OV, HV, HO, VO, VH.
  destruct (has (given_flags a (fst m)) CHFL_CHANOP),
    (has (given_flags a (fst m)) CHFL_HALFOP),
    (has (given_flags a (fst m)) CHFL_VOICE);
    repeat (rewrite app_cons || rewrite app_empty_l);
    cbn [status_prefix]; rewrite status_prefix_stop by exact Hid;
    cbn [fst snd]; rewrite ?has_lor, ?has_none;
    rewrite ?SO, ?SH, ?SV, ?OH, ?OV, ?HV, ?HO, ?VO, ?VH;
    repeat split; reflexivity.
Qed.

(** X15. A server that reads the member part of a relay line with the loop of
    the handler finds what the line was built from: when the three
    privilege flags are bits of their own and no id is empty or has a blank
    or a leading sigil, the tokens of the units with their blanks, with or
    without the last blank, are the units, and the sigils of each unit give
    back the privileges the member was given and leave its id. *)
Theorem relay_units_read_back a (ms : list (N * Client.t)) :
  flags_apart ->
  Forall (fun m => Client.id (snd m) <> ""
                   /\ no_blank (Client.id (snd m))
                   /\ no_sigil (Client.id (snd m))) ms ->
  let us := map (unit_of a) ms in
  uid_tokens (Str.trailed us) "" = us
  /\ uid_tokens (Str.chop (Str.trailed us)) "" = us
  /\ Forall (fun m =>
               let d := status_prefix (unit_of a m) 0 in
               snd d = Client.id (snd m)
               /\ has (fst d) CHFL_CHANOP
                  = has (given_flags a (fst m)) CHFL_CHANOP
               /\ has (fst d) CHFL_HALFOP
                  = has (given_flags a (fst m)) CHFL_HALFOP
               /\ has (fst d) CHFL_VOICE
                  = has (given_flags a (fst m)) CHFL_VOICE) ms.
Proof.
  intros Hfl Hms us.
  assert (Hus : Forall (fun p => p <> "" /\ no_blank p) us).
  { unfold us. apply Forall_map.
    eapply List.Forall_impl; [|exact Hms]. intros m (Hne & Hb & _).
    cbn. unfold unit_of. split.
    - intros E. apply (f_equal Str.len) in E. rewrite len_app in E.
      change (Str.len "") with 0 in E.
      destruct (Client.id (snd m)); [contradiction|].
      rewrite len_cons in E. lia.
    - apply no_blank_app; [apply uid_prefix_no_blank | exact Hb]. }
  split; [now apply tokens_trailed|]. split; [now apply tokens_chopped|].
  eapply List.Forall_impl; [|exact Hms]. intros m (_ & _ & Hs).
  now apply unit_read_back.
Qed.

End ReadBack.

(** ** What the local clients are told *)

Section Announce.

Context `{K : Consts}.

Lemma apply_set_final_mode old new buf pin :
  tab_wf -> mode_ok old -> mode_ok new ->
  apply_delta old (Raw.cstr (fst (set_final_mode new old buf pin)))
              (snd (set_final_mode new old buf pin))
  = new.
Proof.
  intros Hwf (Ro & Lo & Ko) (Rn & Ln & Kn).
  rewrite set_final_mode_cstr by now apply delta_letters_plain.
  rewrite set_final_mode_snd.
  unfold apply_delta. rewrite list_ascii_of_string_of_list_ascii.
  unfold delta_letters. rewrite fold_left_app, ad_part_fold.
  set (ps := uid_tokens _ "").
  destruct (rm_part_fold (removed_letters new old) ps old) as [Hm Hps].
  rewrite Hm, Hps. clear Hm Hps.
  assert (Hps : delta_params new old <> [] -> ps = delta_params new old).
  { intros Hne. unfold ps.
    destruct (delta_params new old) eqn:E; [contradiction|].
    rewrite <- E. apply tokens_trailed. now apply delta_params_ok. }
  clearbody ps.
  pose proof (limit_settled (Mode.limit old) (Mode.limit new)) as HL.
  pose proof (key_settled (Mode.key old) (Mode.key new)
                          (key_ok_cstring _ Ko) (key_ok_cstring _ Kn)) as HK.
  pose proof (atoi_utoa (Mode.limit new) Ln) as HA.
  pose proof (flags_round_trip (Mode.mode old) (Mode.mode new) Hwf Ro Rn)
    as HF.
  unfold removed_letters, added_letters, delta_params in *.
  rewrite !fold_left_app.
  rewrite (fold_flag_letters false) by (intros t; now apply selected_plain).
  set (c1 := nonzero (Mode.limit old) && (Mode.limit new =? 0)%N) in *.
  set (c2 := negb (Str.is_empty (Mode.key old))
             && Str.is_empty (Mode.key new)) in *.
  set (c3 := nonzero (Mode.limit new)
             && negb (Mode.limit old =? Mode.limit new)%N) in *.
  set (c4 := negb (Str.is_empty (Mode.key new))
             && negb (Str.strcmp (Mode.key old) (Mode.key new) =? 0)%Z) in *.
  destruct new as [nm nl nk]. cbn [Mode.mode Mode.limit Mode.key] in *.
  destruct c2, c3, c4; cbn [app] in Hps;
    try (rewrite Hps by discriminate); clear Hps;
    destruct c1; cbn [fold_left delta_step Ascii.eqb Bool.eqb fst snd
                      hd tail Mode.mode Mode.limit Mode.key];
    rewrite (fold_flag_letters true) by (intros t; now apply selected_plain);
    cbn [fst snd Mode.mode Mode.limit Mode.key fold_left delta_step
         Ascii.eqb Bool.eqb hd tail];
    rewrite HF; f_equal;
    try (symmetry; exact HA); try reflexivity;
    try (specialize (HL eq_refl)); try (specialize (HK eq_refl));
    try exact HL; try exact HK; try congruence.
Qed.

Lemma key_ok_take n : forall s, key_ok s -> key_ok (Str.take n s).
Proof.
  induction n as [|n IH]; intros [|c s]; simpl; auto.
  intros (H1 & H2 & H3). auto.
Qed.

Lemma mode_ok_merge a mode oldmode :
  mode_ok mode -> mode_ok oldmode -> mode_ok (merge_modes a mode oldmode).
Proof.
  intros (Rn & Ln & Kn) (Ro & Lo & Ko). unfold merge_modes.
  destruct (negb (keep_new_modes a)); [now repeat split|].
  destruct (keep_our_modes a); [|now repeat split].
  split; [now apply recognized_lor|]. split; cbn.
  - destruct (Mode.limit mode <? Mode.limit oldmode)%N; assumption.
  - destruct (Str.strcmp _ _ <? 0)%Z; [now apply key_ok_take | exact Kn].
Qed.

Lemma remove_ban_list_flat chptr source_p (blist : list Ban.t) c :
  flat_map removal_masks (snd (remove_ban_list chptr source_p blist c))
  = map ban_mask blist
  /\ Forall is_removal (snd (remove_ban_list chptr source_p blist c)).
Proof.
  unfold remove_ban_list.
  destruct blist as [|ban blist]; [split; [reflexivity | constructor]|].
  change (length (ban :: blist) =? 0) with false. cbv iota.
  destruct (remove_ban_loop _ _ _ _ _ _ _ _) as [[rest [l m]] out] eqn:E.
  apply remove_ban_loop_spec in E as (_ & Hm & _ & Hf).
  cbn [fst snd]. rewrite flat_map_app. simpl. rewrite app_nil_r.
  split; [exact Hm|]. apply Forall_app. split; [exact Hf|].
  repeat constructor.
Qed.

Lemma no_masks (l : list Event) :
  Forall (fun e => ~ is_removal e) l -> flat_map removal_masks l = [].
Proof.
  induction 1 as [|e l He _ IH]; [reflexivity|]. cbn [flat_map].
  rewrite IH. destruct e; simpl in *; tauto.
Qed.

Lemma lose_ts_out w source_p isnew parv2 oldts newts chptr :
  flat_map removal_masks (snd (lose_ts w source_p isnew parv2 oldts newts chptr))
  = map ban_mask (all_bans chptr)
  /\ Forall (fun e => ~ is_delta e /\ ~ is_member_line e \/ is_status e)
            (snd (lose_ts w source_p isnew parv2 oldts newts chptr)).
Proof.
  unfold lose_ts.
  set (c0 := if isnew then chptr else _).
  assert (E0 : Channel.banlist c0 = Channel.banlist chptr
               /\ Channel.exceptlist c0 = Channel.exceptlist chptr
               /\ Channel.invexlist c0 = Channel.invexlist chptr)
    by (unfold c0; destruct isnew, chptr; auto).
  destruct E0 as (Eb & Ee & Ei).
  pose proof (remove_our_modes_status w c0 source_p) as F1.
  pose proof (remove_our_modes_fst w c0 source_p) as E1.
  destruct (remove_our_modes w c0 source_p) as [c1 o1]. simpl in E1, F1.
  assert (Hc1 : Channel.banlist c1 = Channel.banlist c0
                /\ Channel.exceptlist c1 = Channel.exceptlist c0
                /\ Channel.invexlist c1 = Channel.invexlist c0)
    by (subst c1; destruct c0; auto).
  destruct Hc1 as (B1 & X1 & I1).
  destruct (remove_ban_list_flat c1 source_p (Channel.banlist c1) "b")
    as [M2 F2].
  destruct (remove_ban_list c1 source_p (Channel.banlist c1) "b") as [bl o2].
  set (c2 := Channel.set_lists c1 _ _ _) in *.
  destruct (remove_ban_list_flat c2 source_p (Channel.exceptlist c2) "e")
    as [M3 F3].
  destruct (remove_ban_list c2 source_p (Channel.exceptlist c2) "e")
    as [el o3].
  set (c3 := Channel.set_lists c2 _ _ _) in *.
  destruct (remove_ban_list_flat c3 source_p (Channel.invexlist c3) "I")
    as [M4 F4].
  destruct (remove_ban_list c3 source_p (Channel.invexlist c3) "I")
    as [il o4].
  assert (X2 : Channel.exceptlist c2 = Channel.exceptlist chptr)
    by (unfold c2; destruct c1; simpl in *; congruence).
  assert (X3 : Channel.invexlist c3 = Channel.invexlist chptr)
    by (unfold c3, c2; destruct c1; simpl in *; congruence).
  cbn [snd] in *. split.
  - rewrite !flat_map_app, M2, M3, M4, B1, Eb, X2, X3.
    rewrite (no_masks o1)
      by (eapply List.Forall_impl; [|exact F1]; now intros []).
    unfold all_bans. rewrite !map_app. cbn [app].
    destruct (negb _); simpl; now rewrite ?app_nil_r.
  - rewrite !Forall_app. repeat split.
    + eapply List.Forall_impl; [|exact F1]. now right.
    + eapply List.Forall_impl; [|exact F2]. intros []; simpl; tauto.
    + eapply List.Forall_impl; [|exact F3]. intros []; simpl; tauto.
    + eapply List.Forall_impl; [|exact F4]. intros []; simpl; tauto.
    + destruct (negb _);
        [apply List.Forall_cons; [simpl; tauto | apply List.Forall_nil]
        |apply List.Forall_nil].
    + apply List.Forall_cons; [simpl; tauto | apply List.Forall_nil].
Qed.

Lemma fill_split w source_p r uids :
  exists evs,
    out (fill w source_p r uids) = r_out r ++ evs
    /\ Forall is_member_line evs.
Proof.
  apply fill_invariant.
  - intros st tok many (evs & E & F). apply sjoin_user_cases; [eauto|].
    intros target_p fl uid_prefix _ _ _ _.
    assert (H1 : exists e1,
               out (join_user target_p fl many
                      (relay_token source_p (r_arb r) (r_parabuf r)
                                   uid_prefix target_p st))
               = r_out r ++ e1 /\ Forall is_member_line e1).
    { unfold join_user, relay_token. destruct (IsMember _ _); cbn [out chan].
      - eexists. rewrite E, <- app_assoc. split; [reflexivity|].
        apply Forall_app. split; [exact F|].
        destruct (IRCD_BUFSIZE <? _); repeat constructor.
      - eexists. rewrite E, <- !app_assoc. split; [reflexivity|].
        rewrite !Forall_app. repeat split; [exact F| | |].
        + destruct (IRCD_BUFSIZE <? _); repeat constructor.
        + repeat constructor.
        + destruct (Str.is_empty _); repeat constructor. }
    revert H1. generalize (join_user target_p fl many
                             (relay_token source_p (r_arb r) (r_parabuf r)
                                          uid_prefix target_p st)).
    assert (G : forall c x, (exists e1, out x = r_out r ++ e1
                                        /\ Forall is_member_line e1) ->
                            exists e1,
                              out (grant (origin_name w source_p) c target_p x)
                              = r_out r ++ e1 /\ Forall is_member_line e1).
    { intros c x (e1 & E1 & F1). unfold grant. cbn [Raw.putc fst snd].
      destruct (MAXMODEPARAMS <=? _); cbn [out]; [|eauto].
      eexists. rewrite E1, <- app_assoc. split; [reflexivity|].
      apply Forall_app. split; [exact F1 | repeat constructor]. }
    intros x Hx. unfold grants.
    destruct (has fl CHFL_CHANOP), (has fl CHFL_HALFOP), (has fl CHFL_VOICE);
      repeat apply G; exact Hx.
  - exists []. cbn [out]. rewrite app_nil_r. split; [reflexivity|constructor].
Qed.

Lemma ms_sjoin_split w source_p parv mode args :
  accepted source_p parv mode args ->
  exists evs,
    snd (ms_sjoin w source_p parv)
    = r_out (reconciled w source_p parv mode (is_new w parv)
                        (channel_of w parv)) ++ evs
    /\ Forall is_member_line evs.
Proof.
  intros (Hs & Hn & Hp).
  unfold ms_sjoin, reconciled, is_new, channel_of.
  rewrite Hs, Hn, Hp. cbn [negb].
  set (r := reconcile _ _ _ _ _ _ _ _).
  destruct (long_sjoin _); cbn [snd]; [eexists; split; [reflexivity|]|].
  { repeat constructor. }
  destruct (fill_split w source_p r (arg parv (args + 4))) as (evs & E & F).
  set (st := fill _ _ _ _) in *.
  set (status := if length (para st) =? 0 then [] else _).
  assert (Fs : Forall is_member_line status)
    by (unfold status; destruct (length (para st) =? 0); repeat constructor).
  destruct (_ && _); [|destruct (Str.is_empty _)]; cbn [snd]; rewrite E.
  - exists (evs ++ status). rewrite app_assoc. split; [reflexivity|].
    apply Forall_app. now split.
  - exists (evs ++ status). rewrite app_assoc. split; [reflexivity|].
    apply Forall_app. now split.
  - eexists ((evs ++ status) ++ [_]). rewrite !app_assoc.
    split; [reflexivity|]. rewrite !Forall_app. repeat split; auto.
    repeat constructor.
Qed.

Lemma reconciled_out w source_p parv mode (isnew : bool) chptr :
  let oldts := Channel.creationtime chptr in
  let newts := incoming_ts w parv oldts in
  let a := arbitrate isnew newts oldts in
  let md := merge_modes a mode (Channel.mode chptr) in
  let c1 := Channel.set_mode (Channel.set_creationtime chptr (creationtime' a))
                             md in
  let sfm := set_final_mode md (Channel.mode chptr) [] "" in
  let r := reconciled w source_p parv mode isnew chptr in
  r_out r
  = snd (check_ts w source_p chptr isnew (Str.strtoumax (arg parv 1)) oldts)
    ++ (if keep_our_modes a then []
        else snd (lose_ts w source_p isnew (arg parv 2) oldts newts c1))
    ++ (if Str.is_empty (Raw.cstr (fst sfm)) then []
        else [LocalModeDelta (origin_name w source_p)
                             (Channel.name (r_chptr r))
                             (Raw.cstr (fst sfm)) (snd sfm)]).
Proof.
  cbv zeta. unfold reconciled, reconcile.
  rewrite <- (check_ts_fst w source_p chptr isnew parv).
  destruct (check_ts _ _ _ _ _ _) as [ts o_ts].
  destruct (set_final_mode _ _ _ _) as [mb pb]. cbn [fst snd].
  destruct (keep_our_modes _); [|destruct (lose_ts _ _ _ _ _ _ _)];
    destruct (_ && _); try destruct (channel_modes _ _); reflexivity.
Qed.

Lemma check_ts_kinds w source_p chptr isnew newts oldts :
  Forall (fun e => ~ is_delta e /\ ~ is_removal e)
         (snd (check_ts w source_p chptr isnew newts oldts)).
Proof.
  unfold check_ts.
  repeat match goal with
         | |- context [if ?b then _ else _] => destruct b
         end; repeat constructor; simpl; tauto.
Qed.

(** X16. [set_final_mode] writes the delta and nothing else, whatever [modebuf]
    held before: with a table of one-bit flags, the string it leaves in
    [modebuf] is a [-] and the letters taken away if there are any,
    followed by a [+] and the letters added if there are any (no sign
    stands without a letter), and [parabuf] holds the parameters of these
    letters, each with a blank behind it, or is left as it was when no
    letter has a parameter. *)
Theorem set_final_mode_writes_the_delta mode oldmode modebuf parabuf :
  tab_wf ->
  Raw.cstr (fst (set_final_mode mode oldmode modebuf parabuf))
  = string_of_list_ascii (delta_letters mode oldmode)
  /\ snd (set_final_mode mode oldmode modebuf parabuf)
     = (if delta_params mode oldmode is [] then parabuf
        else Str.trailed (delta_params mode oldmode)).
Proof.
  intros Hwf. split; [|apply set_final_mode_snd].
  apply set_final_mode_cstr. now apply delta_letters_plain.
Qed.

(** X17. The line of mode changes the local clients get tells what happened to
    the mode of the channel: for a channel of the hash, with the table one
    of one-bit flags and the two modes modes of the data model, the delta
    of every [MODE <channel> <modes> <parameters>] line of the
    reconciliation, applied to the mode the channel had, gives the mode it
    has now; and when no such line is sent the mode is what it was. *)
Theorem mode_line_announces_the_change w source_p parv mode args chptr :
  tab_wf ->
  accepted source_p parv mode args ->
  hash_find_channel w (arg parv 2) = Some chptr ->
  mode_ok (Channel.mode chptr) -> mode_ok mode ->
  exists chptr',
    channels (fst (ms_sjoin w source_p parv)) !! casefold (arg parv 2)
    = Some chptr'
    /\ Forall (announces (Channel.mode chptr) (Channel.mode chptr'))
              (snd (ms_sjoin w source_p parv))
    /\ (Forall (fun e => ~ is_delta e) (snd (ms_sjoin w source_p parv)) ->
        Channel.mode chptr' = Channel.mode chptr).
Proof.
  intros Hwf Ha Hf Hold Hnew.
  exists (settled w source_p parv mode args false chptr).
  split; [now apply ms_sjoin_found|].
  destruct (settled_shape w source_p parv mode args false chptr)
    as (added & Es & _).
  set (a := arbitrate false (incoming_ts w parv (Channel.creationtime chptr))
                      (Channel.creationtime chptr)) in *.
  set (md := merge_modes a mode (Channel.mode chptr)) in *.
  assert (Em : Channel.mode (settled w source_p parv mode args false chptr)
               = md) by (rewrite Es; now destruct (keep_our_modes a)).
  rewrite Em.
  assert (Hmd : mode_ok md) by now apply mode_ok_merge.
  pose proof (apply_set_final_mode (Channel.mode chptr) md [] "" Hwf Hold Hmd)
    as Hrt.
  destruct (ms_sjoin_split w source_p parv mode args Ha) as (evs & -> & Fe).
  unfold is_new, channel_of. rewrite Hf. cbn [default].
  change (id chptr) with chptr.
  rewrite reconciled_out. fold a md.
  set (sfm := set_final_mode md (Channel.mode chptr) [] "") in *.
  pose proof (check_ts_kinds w source_p chptr false
                (Str.strtoumax (arg parv 1)) (Channel.creationtime chptr))
    as F1.
  pose proof (lose_ts_out w source_p false (arg parv 2)
                (Channel.creationtime chptr)
                (incoming_ts w parv (Channel.creationtime chptr))
                (Channel.set_mode
                   (Channel.set_creationtime chptr (creationtime' a)) md))
    as [_ F2].
  split.
  - rewrite !Forall_app. repeat split.
    + eapply List.Forall_impl; [|exact F1]. intros []; simpl; tauto.
    + destruct (keep_our_modes a); [constructor|].
      eapply List.Forall_impl; [|exact F2]. intros []; simpl; tauto.
    + destruct (Str.is_empty (Raw.cstr (fst sfm)));
        [apply List.Forall_nil|].
      apply List.Forall_cons; [exact Hrt | apply List.Forall_nil].
    + eapply List.Forall_impl; [|exact Fe]. intros []; simpl; tauto.
  - intros Hno. rewrite !Forall_app in Hno.
    destruct Hno as ((_ & _ & Hno) & _).
    destruct (Str.is_empty (Raw.cstr (fst sfm))) eqn:E.
    + apply is_empty_true in E. rewrite E in Hrt. symmetry. exact Hrt.
    + apply Forall_inv in Hno. simpl in Hno. tauto.
Qed.

(** X18. The side that lost the TS tells its clients of every entry it drops:
    when the incoming timestamp (as it leaves the [ignore_bogus_ts] block)
    is the smaller one and neither is zero, the masks on the removal lines
    of the SJOIN, read in order, are the masks of the ban list, of the
    exception list and of the invex list of the channel, each entry
    once. *)
Theorem lost_side_announces_every_mask w source_p parv mode args chptr :
  accepted source_p parv mode args ->
  hash_find_channel w (arg parv 2) = Some chptr ->
  incoming_ts w parv (Channel.creationtime chptr) <> 0%N ->
  Channel.creationtime chptr <> 0%N ->
  (incoming_ts w parv (Channel.creationtime chptr)
   < Channel.creationtime chptr)%N ->
  flat_map removal_masks (snd (ms_sjoin w source_p parv))
  = map ban_mask (all_bans chptr).
Proof.
  intros Ha Hf Hn Ho Hlt.
  destruct (ms_sjoin_split w source_p parv mode args Ha) as (evs & -> & Fe).
  unfold is_new, channel_of. rewrite Hf. cbn [default].
  change (id chptr) with chptr.
  rewrite reconciled_out, (arbitrate_older _ _ Hn Ho Hlt).
  cbn [keep_our_modes creationtime'].
  rewrite !flat_map_app.
  rewrite (no_masks (snd (check_ts _ _ _ _ _ _)))
    by (eapply List.Forall_impl; [|apply check_ts_kinds]; simpl; tauto).
  rewrite (no_masks evs)
    by (eapply List.Forall_impl; [|exact Fe]; intros []; simpl; tauto).
  match goal with
  | |- context [lose_ts ?w ?s ?i ?p ?o ?n ?c] =>
      destruct (lose_ts_out w s i p o n c) as [-> _]
  end.
  rewrite app_nil_r. cbn [app].
  destruct (Str.is_empty _); cbn [flat_map removal_masks];
    rewrite ?app_nil_r; now destruct chptr.
Qed.

End Announce.

(** ** Examples *)

Section Examples.

Local Existing Instance Sample.consts.

Import Sample.

(** C1 as the spec words it fails: the channel has the key [b], the
    message of the same timestamp brings the key [a], and the channel
    keeps [b], which is not the smaller of the two. *)
Lemma merge_as_stated_fails :
  ~ merge_as_stated (net false) hub
      (sjoin "2000" "#a" "+k" ["a"; two_users]).
Proof.
  intros H.
  destruct (H (Mode.mk 0 0 "a") 1 room) as (c & Hl & _ & _ & Hk).
  - repeat split; reflexivity.
  - reflexivity.
  - left. split; [reflexivity | discriminate].
  - vm_compute in Hl. injection Hl as <-. vm_compute in Hk. discriminate.
Qed.

Lemma merge_keeps_union_max_and_greater_key_witness :
  exists chptr',
    channels (fst (ms_sjoin (net false) hub
                            (sjoin "2000" "#a" "+k" ["a"; two_users])))
      !! "#a" = Some chptr'
    /\ Mode.mode (Channel.mode chptr') = N.lor 0 32
    /\ Mode.limit (Channel.mode chptr') = N.max 0 0
    /\ Mode.key (Channel.mode chptr') = greater_key "a" "b"
    /\ ("b" = "" -> Mode.key (Channel.mode chptr') = "a")
    /\ ("a" = "" -> cstring "b" -> Mode.key (Channel.mode chptr') = "b").
Proof.
  refine (merge_keeps_union_max_and_greater_key (net false) hub
            (sjoin "2000" "#a" "+k" ["a"; two_users])
            (Mode.mk 0 0 "a") 1 room _ _ _ _).
  - repeat split; reflexivity.
  - reflexivity.
  - right. right. reflexivity.
  - vm_compute. lia.
Defined.

(** C2 as the spec words it fails: with [ignore_bogus_ts] on, the
    timestamp 1000 of the message is replaced by 800000000, the channel
    created at 2000 wins and keeps its timestamp. *)
Lemma older_sjoin_as_stated_fails :
  ~ older_sjoin_as_stated (net true) hub (sjoin "1000" "#a" "+nt" [two_users]).
Proof.
  intros H.
  destruct (H (Mode.mk 40 0 "") 0 room) as (c & Hl & Hts & _).
  - repeat split; reflexivity.
  - reflexivity.
  - discriminate.
  - discriminate.
  - reflexivity.
  - vm_compute in Hl. injection Hl as <-. vm_compute in Hts. discriminate.
Qed.

Lemma older_sjoin_resets_channel_witness :
  exists chptr' added had,
    channels (fst (ms_sjoin (net false) hub
                            (sjoin "1000" "#a" "+nt" [two_users])))
      !! "#a" = Some chptr'
    /\ Channel.creationtime chptr' = 1000%N
    /\ Channel.members chptr' = added ++ had
    /\ Forall2 (fun m m' =>
                  Membership.client_p m' = Membership.client_p m
                  /\ N.land (Membership.flags m') CHFL_PRIVS = 0%N)
               [Membership.mk carol 9] had
    /\ Channel.banlist chptr' = []
    /\ Channel.exceptlist chptr' = []
    /\ Channel.invexlist chptr' = [].
Proof.
  refine (older_sjoin_resets_channel (net false) hub
            (sjoin "1000" "#a" "+nt" [two_users])
            (Mode.mk 40 0 "") 0 room _ _ _ _ _).
  - repeat split; reflexivity.
  - reflexivity.
  - vm_compute. discriminate.
  - discriminate.
  - reflexivity.
Defined.



(** C8 as the spec words it fails: with [ignore_bogus_ts] on, the new
    channel of a message with the timestamp 1000 is created at
    800000000. *)
Lemma new_channel_as_stated_fails :
  ~ new_channel_as_stated (bare true) hub
      (sjoin "1000" "#b" "+nt" [two_users]).
Proof.
  intros H.
  destruct (H (Mode.mk 40 0 "") 0) with
    (chptr' := Channel.mk "#b" 800000000 (Mode.mk 40 0 "") "" "" 0
                 [Membership.mk bob 4; Membership.mk alice 1] [] [] [] [])
    as [Hts _].
  - repeat split; reflexivity.
  - reflexivity.
  - vm_compute. reflexivity.
  - vm_compute in Hts. discriminate.
Qed.

Lemma newer_sjoin_joins_unprivileged_witness :
  exists chptr',
    channels (fst (ms_sjoin (net false) hub
                            (sjoin "3000" "#a" "+l" ["50"; two_users])))
      !! "#a" = Some chptr'
    /\ Channel.creationtime chptr' = 2000%N
    /\ Channel.mode chptr' = Mode.mk 32 0 "b"
    /\ Channel.members chptr'
       = [Membership.mk bob 0; Membership.mk alice 0; Membership.mk carol 9]
    /\ IsMember alice chptr' = true
    /\ IsMember bob chptr' = true.
Proof.
  unshelve epose proof
    (newer_sjoin_joins_unprivileged (net false) hub
       (sjoin "3000" "#a" "+l" ["50"; two_users])
       (Mode.mk 0 50 "") 1 room _ _ _ _ _) as H.
  - repeat split; reflexivity.
  - reflexivity.
  - discriminate.
  - discriminate.
  - reflexivity.
  - destruct H as (c & added & L & T & M & _ & _ & J & I).
    assert (O : oversized hub
                  (reconciled (net false) hub
                     (sjoin "3000" "#a" "+l" ["50"; two_users])
                     (Mode.mk 0 50 "") false room) = false)
      by (vm_compute; reflexivity).
    exists c. split; [exact L|]. split; [exact T|]. split; [exact M|].
    split; [exact (J O)|].
    split.
    + apply (I O "@0ABAAAAAA"%string alice);
        [left; reflexivity|reflexivity|reflexivity].
    + apply (I O "+0ABAAAAAB"%string bob);
        [right; left; reflexivity|reflexivity|reflexivity].
Defined.

Lemma new_channel_takes_incoming_ts_and_mode_witness :
  exists chptr',
    channels (fst (ms_sjoin (bare false) hub
                            (sjoin "1000" "#b" "+nt" [two_users])))
      !! "#b" = Some chptr'
    /\ Channel.creationtime chptr' = 1000%N
    /\ Channel.mode chptr' = Mode.mk 40 0 ""
    /\ Channel.members chptr'
       = [Membership.mk bob 4; Membership.mk alice 1].
Proof.
  unshelve epose proof
    (new_channel_takes_incoming_ts_and_mode (bare false) hub
       (sjoin "1000" "#b" "+nt" [two_users]) (Mode.mk 40 0 "") 0 _ _) as H.
  - repeat split; reflexivity.
  - reflexivity.
  - cbv zeta in H.
    assert (O : oversized hub
                  (reconciled (bare false) hub
                     (sjoin "1000" "#b" "+nt" [two_users])
                     (Mode.mk 40 0 "") true
                     (channel_make (bare false) "#b")) = false)
      by (vm_compute; reflexivity).
    change (arg (sjoin "1000" "#b" "+nt" [two_users]) 2) with "#b"%string in H.
    rewrite O in H. exact H.
Defined.

Lemma mode_lines_within_maxmodeparams_witness :
  Forall params_ok
         (snd (ms_sjoin (net false) hub
                        (sjoin "1000" "#a" "+nt" [two_users]))).
Proof.
  refine (mode_lines_within_maxmodeparams (net false) hub
            (sjoin "1000" "#a" "+nt" [two_users]) _).
  vm_compute. lia.
Defined.

Lemma sample_tab_wf : tab_wf.
Proof.
  intros t Hin H0. simpl in Hin.
  repeat (destruct Hin as [<- | Hin]; [try (now contradiction H0)|]);
    try contradiction;
    (split; [match goal with
             | |- ex (fun k => ?v = _) => exists (N.log2 v)
             end; reflexivity|]);
    repeat (split; [discriminate|]); eexists; split; reflexivity.
Qed.

Lemma sample_mode_ok_old : mode_ok (Mode.mk 32 0 "b").
Proof.
  split; [|split; [reflexivity | repeat split; discriminate]].
  apply (recognized_bit (Sample.entry "n" 32) 5); [|reflexivity].
  simpl. tauto.
Qed.

Lemma sample_mode_ok_new : mode_ok (Mode.mk 40 50 "").
Proof.
  split; [|split; [reflexivity | exact I]].
  change 40%N with (N.lor (2 ^ 5) (2 ^ 3)). apply recognized_lor.
  - apply (recognized_bit (Sample.entry "n" 32) 5); [|reflexivity].
    simpl. tauto.
  - apply (recognized_bit (Sample.entry "t" 8) 3); [|reflexivity].
    simpl. tauto.
Qed.

Lemma mode_delta_round_trip_witness :
  apply_delta (Mode.mk 32 0 "b")
    (Raw.cstr (fst (set_final_mode (Mode.mk 40 50 "") (Mode.mk 32 0 "b")
                                   [] "")))
    (snd (set_final_mode (Mode.mk 40 50 "") (Mode.mk 32 0 "b") [] ""))
  = Mode.mk 40 50 "".
Proof.
  refine (proj2 mode_delta_round_trip _ (Mode.mk 32 0 "b") (Mode.mk 40 50 "")
                [] "" _ _).
  - exact sample_tab_wf.
  - exact sample_mode_ok_old.
  - exact sample_mode_ok_new.
Defined.

Lemma sample_sizes_fit : sizes_fit sizes.
Proof. repeat split; vm_compute; lia. Qed.

Lemma sample_world_fits : world_fits sizes (net false) hub.
Proof.
  unfold world_fits.
  split; [vm_compute; lia|]. split; [vm_compute; lia|].
  split; [vm_compute; lia|]. split; [|split; [|reflexivity]].
  - intros s c H. cbn [find_person net] in H. unfold directory in H.
    destruct (String.eqb s "0ABAAAAAA");
      [injection H as <-; split; vm_compute; lia|].
    destruct (String.eqb s "0ABAAAAAB");
      [injection H as <-; split; vm_compute; lia | discriminate].
  - intros k c H. cbn [channels net] in H.
    apply lookup_singleton_Some in H as [_ <-].
    unfold channel_fits.
    split; [vm_compute; lia|]. split; [reflexivity|].
    split; [vm_compute; lia|]. split; [reflexivity|].
    repeat split; repeat constructor; vm_compute; lia.
Qed.

(** C9 as the spec words it fails: a [k] without its argument is dropped
    without any notice. *)
Lemma malformed_as_stated_fails :
  ~ malformed_as_stated (net false) hub (sjoin "1000" "#a" "k" ["x"]).
Proof.
  intros H. destruct H as (Hn & _).
  - reflexivity.
  - right. left. split; reflexivity.
  - vm_compute in Hn. inversion Hn.
Qed.

Lemma malformed_sjoin_is_dropped_witness :
  (true = false ->
   ms_sjoin (net false) hub (sjoin "1000" "#a" "k" ["x"])
   = (net false, [RealopsBadName "hub.example" "hub.example" "#a"]))
  /\ (true = true ->
      parse_modes (sjoin "1000" "#a" "k" ["x"]) 5 "k" (Mode.mk 0 0 "") 0
      = None ->
      ms_sjoin (net false) hub (sjoin "1000" "#a" "k" ["x"])
      = (net false, []))
  /\ (forall mode args,
         accepted hub (sjoin "1000" "#a" "k" ["x"]) mode args ->
         let r := reconciled (net false) hub (sjoin "1000" "#a" "k" ["x"])
                             mode false room in
         oversized hub r = true ->
         ms_sjoin (net false) hub (sjoin "1000" "#a" "k" ["x"])
         = (hash_put (net false) "#a" (r_chptr r),
            r_out r ++ [RealopsLongSjoin "hub.example" "hub.example"])
         /\ Forall (fun e => ~ is_relay e)
                   (snd (ms_sjoin (net false) hub
                                  (sjoin "1000" "#a" "k" ["x"])))).
Proof.
  refine (malformed_sjoin_is_dropped (net false) hub
            (sjoin "1000" "#a" "k" ["x"]) _).
  reflexivity.
Defined.

Lemma parse_modes_counts_arguments_witness :
  2 = 0 + kl_count "+kl" /\ (5 + 0 <= 7 -> 2 + 4 < 7).
Proof.
  refine (proj2 (parse_modes_counts_arguments
                   (sjoin "1000" "#a" "+kl" ["key"; "5"; two_users]) 7 "+kl"
                   (Mode.mk 0 0 "") 0)
                (Mode.mk 0 5 "key") 2 _).
  reflexivity.
Defined.

Lemma parsed_mode_is_kept_witness : mode_kept (Mode.mk 40 5 "key").
Proof.
  refine (parsed_mode_is_kept
            (sjoin "1000" "#a" "+ntkl" ["key"; "5"; two_users]) 7 "+ntkl"
            (Mode.mk 40 5 "key") 2 sample_tab_wf _).
  reflexivity.
Defined.

Lemma channel_ts_is_the_older_witness :
  exists chptr',
    channels (fst (ms_sjoin (net false) hub
                            (sjoin "1000" "#a" "+nt" [two_users])))
      !! "#a" = Some chptr'
    /\ Channel.creationtime chptr' = 1000%N
    /\ (Channel.creationtime chptr' <= 2000)%N.
Proof.
  refine (channel_ts_is_the_older (net false) hub
            (sjoin "1000" "#a" "+nt" [two_users]) (Mode.mk 40 0 "") 0 room
            _ _).
  - repeat split; reflexivity.
  - reflexivity.
Defined.

Lemma bogus_ts_never_enters_witness :
  ts_sane (Channel.creationtime
             (settled town hub (sjoin "1000" "#a" "+nt" [two_users])
                      (Mode.mk 40 0 "") 0 false hall)).
Proof.
  refine (bogus_ts_never_enters town hub
            (sjoin "1000" "#a" "+nt" [two_users]) _ _ "#a" _ _).
  - reflexivity.
  - intros k c H. cbn [channels town] in H.
    apply lookup_singleton_Some in H as [_ <-].
    right. vm_compute. discriminate.
  - refine (ms_sjoin_found _ hub (sjoin "1000" "#a" "+nt" [two_users])
                           (Mode.mk 40 0 "") 0 _ _ _);
      [repeat split; reflexivity | reflexivity].
Defined.

Lemma channel_modes_stay_kept_witness :
  mode_kept (Channel.mode
               (settled (net false) hub (sjoin "1000" "#a" "+nt" [two_users])
                        (Mode.mk 40 0 "") 0 false room)).
Proof.
  refine (channel_modes_stay_kept (net false) hub
            (sjoin "1000" "#a" "+nt" [two_users]) sample_tab_wf _ "#a" _ _).
  - intros k c H. cbn [channels net] in H.
    apply lookup_singleton_Some in H as [_ <-].
    split; [exact (proj1 sample_mode_ok_old)|].
    split; [reflexivity | vm_compute; lia].
  - refine (ms_sjoin_found _ hub (sjoin "1000" "#a" "+nt" [two_users])
                           (Mode.mk 40 0 "") 0 _ _ _);
      [repeat split; reflexivity | reflexivity].
Defined.

Lemma nobody_joins_twice_witness :
  NoDup (member_ids
           (settled (net false) hub
                    (sjoin "1000" "#a" "+nt" ["@0ABAAAAAA +0ABAAAAAA"])
                    (Mode.mk 40 0 "") 0 false room)).
Proof.
  refine (nobody_joins_twice (net false) hub
            (sjoin "1000" "#a" "+nt" ["@0ABAAAAAA +0ABAAAAAA"]) _ "#a" _ _).
  - intros k c H. cbn [channels net] in H.
    apply lookup_singleton_Some in H as [_ <-].
    vm_compute. repeat constructor. intros H. inversion H.
  - refine (ms_sjoin_found _ hub
                           (sjoin "1000" "#a" "+nt" ["@0ABAAAAAA +0ABAAAAAA"])
                           (Mode.mk 40 0 "") 0 _ _ _);
      [repeat split; reflexivity | reflexivity].
Defined.

Lemma sjoin_adds_members_in_order_witness :
  exists chptr',
    channels (fst (ms_sjoin (net false) hub
                            (sjoin "3000" "#a" "+nt" [two_users])))
      !! "#a" = Some chptr'
    /\ Channel.members chptr'
       = [Membership.mk bob 0; Membership.mk alice 0; Membership.mk carol 9].
Proof.
  refine (sjoin_adds_members_in_order (net false) hub
            (sjoin "3000" "#a" "+nt" [two_users]) (Mode.mk 40 0 "") 0 room
            _ _ _).
  - repeat split; reflexivity.
  - reflexivity.
  - reflexivity.
Defined.

Lemma introduced_members_are_on_the_channel_witness :
  exists chptr',
    channels (fst (ms_sjoin (bare false) hub
                            (sjoin "1000" "#b" "+nt" [two_users])))
      !! "#b" = Some chptr'
    /\ IsMember alice chptr' = true.
Proof.
  refine (introduced_members_are_on_the_channel (bare false) hub
            (sjoin "1000" "#b" "+nt" [two_users]) (Mode.mk 40 0 "") 0
            (1%N, alice) _ _ _).
  - repeat split; reflexivity.
  - reflexivity.
  - left. reflexivity.
Defined.


Lemma removal_lines_pair_letters_and_masks_witness :
  Forall (fun e => removal_header e = ":hub.example MODE #a -"
                   /\ removal_letters e
                      = repeat "b"%char (length (removal_masks e))
                   /\ removal_masks e <> [])
         (snd (remove_ban_list room hub (Channel.banlist room) "b")).
Proof.
  refine (removal_lines_pair_letters_and_masks room hub
            (Channel.banlist room) "b" _ _).
  - vm_compute. lia.
  - repeat constructor; vm_compute; lia.
Defined.

Lemma remove_a_mode_names_who_had_the_flag_witness :
  flat_map status_names (snd (remove_a_mode (net false) room hub 1 "o"))
  = ["carol"]
  /\ Forall (fun e => status_sign e = Some "-"%char
                      /\ status_letters e
                         = repeat "o"%char (length (status_names e))
                      /\ status_names e <> [])
            (snd (remove_a_mode (net false) room hub 1 "o"))
  /\ Channel.members (fst (remove_a_mode (net false) room hub 1 "o"))
     = [Membership.mk carol 8].
Proof.
  refine (remove_a_mode_names_who_had_the_flag (net false) room hub 1 "o" _).
  vm_compute. lia.
Defined.

Lemma relay_lines_carry_the_members_witness :
  let parv := sjoin "1000" "#a" "+nt" [two_users] in
  let r := reconciled (net false) hub parv (Mode.mk 40 0 "") false room in
  let c' := settled (net false) hub parv (Mode.mk 40 0 "") 0 false room in
  exists cs h us,
    relay_lines (snd (ms_sjoin (net false) hub parv))
    = map render cs ++ [Str.chop (render (h, us))]
    /\ flat_map snd cs ++ us = ["@0ABAAAAAA"; "+0ABAAAAAB"]
    /\ Forall (relay_head hub c' (r_parabuf r)) (map fst cs ++ [h])
    /\ ((forall s c, find_person (net false) hub s = Some c ->
                     Str.len (Client.id c) <= 12) ->
        2 <= 3 -> Forall (fun c => snd c <> []) cs).
Proof.
  refine (relay_lines_carry_the_members (net false) hub
            (sjoin "1000" "#a" "+nt" [two_users]) (Mode.mk 40 0 "") 0 _ _).
  - repeat split; reflexivity.
  - reflexivity.
Defined.

Lemma grant_lines_name_the_privileged_witness :
  let parv := sjoin "1000" "#a" "+nt" [two_users] in
  let r := reconciled (net false) hub parv (Mode.mk 40 0 "") false room in
  exists evs,
    snd (ms_sjoin (net false) hub parv) = r_out r ++ evs
    /\ flat_map status_pairs evs = [("o"%char, "alice"); ("v"%char, "bob")]
    /\ Forall (fun e => is_status e -> grant_line e) evs.
Proof.
  refine (grant_lines_name_the_privileged (net false) hub
            (sjoin "1000" "#a" "+nt" [two_users]) (Mode.mk 40 0 "") 0 _ _ _).
  - vm_compute. lia.
  - repeat split; reflexivity.
  - reflexivity.
Defined.

Lemma sample_flags_apart : flags_apart.
Proof. repeat split; discriminate. Qed.

Lemma relay_units_read_back_witness :
  let a := arbitrate true 1000 0 in
  let ms := [(1%N, alice); (4%N, bob)] in
  let us := map (unit_of a) ms in
  uid_tokens (Str.trailed us) "" = us
  /\ uid_tokens (Str.chop (Str.trailed us)) "" = us
  /\ Forall (fun m =>
               let d := status_prefix (unit_of a m) 0 in
               snd d = Client.id (snd m)
               /\ has (fst d) CHFL_CHANOP
                  = has (given_flags a (fst m)) CHFL_CHANOP
               /\ has (fst d) CHFL_HALFOP
                  = has (given_flags a (fst m)) CHFL_HALFOP
               /\ has (fst d) CHFL_VOICE
                  = has (given_flags a (fst m)) CHFL_VOICE) ms.
Proof.
  refine (relay_units_read_back (arbitrate true 1000 0)
            [(1%N, alice); (4%N, bob)] sample_flags_apart _).
  repeat constructor; vm_compute; try discriminate; exact I.
Defined.

Lemma set_final_mode_writes_the_delta_witness :
  Raw.cstr (fst (set_final_mode (Mode.mk 40 50 "") (Mode.mk 32 0 "b")
                                ["x"%char; "y"%char] "old"))
  = "-k+tl"
  /\ snd (set_final_mode (Mode.mk 40 50 "") (Mode.mk 32 0 "b")
                         ["x"%char; "y"%char] "old")
     = "b 50 ".
Proof.
  refine (set_final_mode_writes_the_delta (Mode.mk 40 50 "") (Mode.mk 32 0 "b")
            ["x"%char; "y"%char] "old" sample_tab_wf).
Defined.

Lemma mode_line_announces_the_change_witness :
  let parv := sjoin "1000" "#a" "+ntl" ["50"; two_users] in
  exists chptr',
    channels (fst (ms_sjoin (net false) hub parv)) !! "#a" = Some chptr'
    /\ Forall (announces (Mode.mk 32 0 "b") (Channel.mode chptr'))
              (snd (ms_sjoin (net false) hub parv))
    /\ (Forall (fun e => ~ is_delta e) (snd (ms_sjoin (net false) hub parv)) ->
        Channel.mode chptr' = Mode.mk 32 0 "b").
Proof.
  refine (mode_line_announces_the_change (net false) hub
            (sjoin "1000" "#a" "+ntl" ["50"; two_users]) (Mode.mk 40 50 "") 1
            room sample_tab_wf _ _ sample_mode_ok_old sample_mode_ok_new).
  - repeat split; reflexivity.
  - reflexivity.
Defined.

Lemma lost_side_announces_every_mask_witness :
  flat_map removal_masks
           (snd (ms_sjoin (net false) hub
                          (sjoin "1000" "#a" "+nt" [two_users])))
  = ["x!y@z"; "spam!*@*"; "*!*@bad.example"].
Proof.
  refine (lost_side_announces_every_mask (net false) hub
            (sjoin "1000" "#a" "+nt" [two_users]) (Mode.mk 40 0 "") 0 room
            _ _ _ _ _).
  - repeat split; reflexivity.
  - reflexivity.
  - vm_compute. discriminate.
  - discriminate.
  - reflexivity.
Defined.

(** The lines of the sample SJOIN are within the bounds. *)
Example sample_lines_fit :
  Forall (line_fits (K := consts))
         (snd (ms_sjoin (net false) hub
                        (sjoin "1000" "#a" "+nt" [two_users]))).
Proof.
  apply (wire_lines_fit sizes (net false) hub);
    [exact sample_sizes_fit | exact sample_world_fits].
Qed.


End Examples.

(** The oversized relay line, on a server whose lines are 40 bytes long:
    the channel is reconciled (the side that lost the TS is emptied), no
    member is read, and the operators are told. *)
Example oversized_sjoin_is_dropped :
  let w := Sample.net false in
  let parv := Sample.sjoin "1000" "#a" "+nt" [Sample.two_users] in
  @oversized Sample.cramped Sample.hub
    (@reconciled Sample.cramped w Sample.hub parv (Mode.mk 40 0 "") false
                 Sample.room) = true
  /\ map wire (snd (@ms_sjoin Sample.cramped w Sample.hub parv))
     = [":hub.example MODE #a -o carol";
        ":hub.example MODE #a -b x!y@z";
        ":hub.example MODE #a -b spam!*@*";
        ":hub.example MODE #a -b *!*@bad.example";
        ":hub.example TOPIC #a :";
        ":me.example NOTICE #a :*** Notice -- TS for #a changed from 2000 to 1000";
        ":hub.example MODE #a -k+t b ";
        "Long SJOIN from server: hub.example(via hub.example) (ignored)"]
  /\ (Channel.members <$>
        channels (fst (@ms_sjoin Sample.cramped w Sample.hub parv)) !! "#a")
     = Some [Membership.mk Sample.carol 0].
Proof. vm_compute. auto. Qed.

(** A relay line filled to the last byte but one, on a server whose lines
    are 45 bytes long: the third member does not fit behind the second, the
    line is sent with its last blank and the member opens the next line. *)
Example relay_line_split_between_units :
  let w := Sample.bare false in
  let parv := Sample.sjoin "1000" "#b" "+nt"
                           ["0ABAAAAAA 0ABAAAAAB 0ABAAAAAA"] in
  map wire (snd (@ms_sjoin Sample.tight w Sample.hub parv))
  = [":hub.example MODE #b +nt ";
     ":alice!user@host.example JOIN #b * :Real Name";
     ":alice!user@host.example JOIN :#b";
     ":bob!user@host.example JOIN #b * :Real Name";
     ":bob!user@host.example JOIN :#b";
     ":0AB SJOIN 1000 #b +nt :0ABAAAAAA 0ABAAAAAB ";
     ":0AB SJOIN 1000 #b +nt :0ABAAAAAA"]
  /\ Str.len ":0AB SJOIN 1000 #b +nt :0ABAAAAAA 0ABAAAAAB " + 1
     = @IRCD_BUFSIZE Sample.tight.
Proof. vm_compute. auto. Qed.

(** A new channel whose member list names nobody the sender introduced is
    freed again; with an oversized relay line, on the server whose lines
    are 40 bytes long, it stays in the hash without members. *)
Example new_channel_without_members :
  let parv := Sample.sjoin "1000" "#b" "+nt" ["@9XXAAAAAA"] in
  channels (fst (@ms_sjoin Sample.consts (Sample.bare false) Sample.hub parv))
    !! "#b" = None
  /\ channels (fst (@ms_sjoin Sample.cramped (Sample.bare false) Sample.hub
                              parv)) !! "#b"
     = Some (Channel.mk "#b" 1000 (Mode.mk 40 0 "") "" "" 0 [] [] [] [] []).
Proof. vm_compute. auto. Qed.
